(** * Job tracker of the image-generation service

    A shallow embedding of [src/lib/job-tracker.ts]: the in-memory job
    registry, the status probe [checkJobStatus], the callback dispatcher
    [sendCallback], the scheduler tick [pollAllJobs] and the registration
    entry point [addJob].

    Asynchronous functions are embedded as programs of a small effect
    language ([Prog]) whose suspension points are the [await]s of the source.
    Two semantics are given to these programs: [run], which drives one call
    to completion against a fixed world, and [async_step], the event-loop
    semantics in which several calls on the same job object may be
    suspended at the same time.

    The repository also holds an older copy of the tracker, with other
    constants and without the delay between the two callbacks; this
    development follows [src/lib/job-tracker.ts], and line numbers refer to
    it. *)

From Stdlib Require Import String List ZArith Bool Arith Lia.
Import ListNotations.
Local Open Scope string_scope.
Local Set Warnings "-register-all".

(** ** JSON values and the JavaScript operators used on them *)

Module Json.

(** Parsed JSON.  Numbers are carried as integers: the tracker only ever
    observes whether a number is zero.  The fields of an object are its own
    properties; [assoc] takes the first binding of a key.  A string is
    carried as its WTF-8 bytes: UTF-8 for well-formed text, and the three
    bytes [ED A0..BF xx] for a surrogate that has no partner. *)
Inductive value : Type :=
| JNull
| JBool (b : bool)
| JNum (n : Z)
| JStr (s : string)
| JArr (items : list value)
| JObj (fields : list (string * value)).

(** What a property read yields: [None] is [undefined]. *)
Definition js : Type := option value.

(** [Boolean(v)] *)
Definition truthy (v : value) : bool :=
  match v with
  | JNull => false
  | JBool b => b
  | JNum n => negb (n =? 0)%Z
  | JStr s => negb (s =? "")
  | JArr _ => true
  | JObj _ => true
  end.

Definition truthy_js (x : js) : bool :=
  match x with
  | Some v => truthy v
  | None => false
  end.

(** [a || b] *)
Definition or_else (a b : js) : js :=
  if truthy_js a then a else b.

Fixpoint assoc (k : string) (fs : list (string * value)) : js :=
  match fs with
  | [] => None
  | (k', v) :: rest => if k' =? k then Some v else assoc k rest
  end.

(** [payload?.k] for the property names the tracker reads (none of them
    is defined on a prototype): [undefined] unless [payload] is an object
    that has the property. *)
Definition prop (payload : value) (k : string) : js :=
  match payload with
  | JObj fs => assoc k fs
  | _ => None
  end.

(** [Array.isArray(x)] *)
Definition isArray (x : js) : bool :=
  match x with
  | Some (JArr _) => true
  | _ => false
  end.

(** [Array.isArray(x) ? x : []] *)
Definition arrayOrEmpty (x : js) : list value :=
  match x with
  | Some (JArr items) => items
  | _ => []
  end.

(** [x === s] for a string literal [s] *)
Definition is_str (x : js) (s : string) : bool :=
  match x with
  | Some (JStr t) => t =? s
  | _ => false
  end.

(** [k] is an own property of the object. *)
Definition hasKey (k : string) (fs : list (string * value)) : bool :=
  match assoc k fs with
  | Some _ => true
  | None => false
  end.

(** Whether the conversion to a string, as in a template literal, returns.
    It throws a TypeError for an object with an own [toString] property:
    after [JSON.parse] that property is never a function, and the inherited
    [valueOf] returns the object itself.  A list joins the strings of its
    elements. *)
Fixpoint stringifies (v : value) : bool :=
  match v with
  | JArr items => forallb stringifies items
  | JObj fs => negb (hasKey "toString" fs)
  | JNull | JBool _ | JNum _ | JStr _ => true
  end.

Definition stringifies_js (x : js) : bool :=
  match x with
  | Some v => stringifies v
  | None => true
  end.

(** A surrogate without a partner: the byte [ED] followed by a byte from
    [A0] up. *)
Fixpoint hasLoneSurrogate (s : string) : bool :=
  match s with
  | String a (String b _ as rest) =>
      ((Ascii.N_of_ascii a =? 237)%N && (160 <=? Ascii.N_of_ascii b)%N)
      || hasLoneSurrogate rest
  | _ => false
  end.

(** Whether [encodeURIComponent(v)] returns: [v] converts to a string, and
    the string has no lone surrogate (a URIError otherwise). *)
Fixpoint encodable (v : value) : bool :=
  match v with
  | JStr s => negb (hasLoneSurrogate s)
  | JArr items => forallb encodable items
  | JObj fs => negb (hasKey "toString" fs)
  | JNull | JBool _ | JNum _ => true
  end.

End Json.

Import Json.

(** ** Constants (lines 5-8) *)

Definition HIGGSFIELD_BASE : string := "https://platform.higgsfield.ai".
Definition POLL_INTERVAL_MS : Z := 20000.
Definition MAX_POLL_ATTEMPTS : nat := 30.
Definition CALLBACK_2_DELAY_MS : Z := 15000.

(** Two literals of the source, named here: the delay of the first check
    (line 292) and the retention window of settled jobs (line 245). *)
Definition FIRST_CHECK_DELAY_MS : Z := 5000.
Definition RETENTION_MS : Z := 60 * 60 * 1000.

(** ** The job record (lines 10-22) *)

Inductive JobStatus : Type := polling | succeeded | failed | cancelled.

Definition JobStatus_eqb (a b : JobStatus) : bool :=
  match a, b with
  | polling, polling | succeeded, succeeded
  | failed, failed | cancelled, cancelled => true
  | _, _ => false
  end.

(** Dates are milliseconds since the epoch.  [images] and [error] hold what
    the code stores at run time, which is whatever the provider sent. *)
Record Job : Type := mkJob {
  requestId : string;
  contactId : string;
  userId : string;
  status : JobStatus;
  pollCount : nat;
  images : list value;
  createdAt : Z;
  completedAt : option Z;
  error : option value
}.

Definition isPolling (j : Job) : bool := JobStatus_eqb j.(status) polling.

(** [job.pollCount++] *)
Definition incPollCount (j : Job) : Job :=
  mkJob j.(requestId) j.(contactId) j.(userId) j.(status)
        (S j.(pollCount)) j.(images) j.(createdAt) j.(completedAt) j.(error).

(** [job.status = "succeeded"; job.images = images] (lines 96-97) *)
Definition markSucceeded (imgs : list value) (j : Job) : Job :=
  mkJob j.(requestId) j.(contactId) j.(userId) succeeded
        j.(pollCount) imgs j.(createdAt) j.(completedAt) j.(error).

(** [job.status = "failed"; job.error = e] (lines 104-105, 114-115) *)
Definition markFailed (e : value) (j : Job) : Job :=
  mkJob j.(requestId) j.(contactId) j.(userId) failed
        j.(pollCount) j.(images) j.(createdAt) j.(completedAt) (Some e).

(** [job.completedAt = new Date()] *)
Definition setCompletedAt (now : Z) (j : Job) : Job :=
  mkJob j.(requestId) j.(contactId) j.(userId) j.(status)
        j.(pollCount) j.(images) j.(createdAt) (Some now) j.(error).

(** ** Reading the provider's status document (lines 71-90) *)

(** [payload?.status || payload?.state] *)
Definition statusOf (payload : value) : js :=
  or_else (prop payload "status") (prop payload "state").

(** The callback of [payload.images.map] (lines 81-82):
    [typeof img === "object" && img.url ? img.url
       : (typeof img === "string" ? img : "")].
    [typeof null] is ["object"], so a [null] element reads [null.url] and
    throws a TypeError: the result is [None] then. *)
Definition imageUrlOf (img : value) : option value :=
  match img with
  | JNull => None
  | JObj fs =>
      Some (if truthy_js (assoc "url" fs)
            then match assoc "url" fs with Some u => u | None => JStr "" end
            else JStr "")
  | JArr _ => Some (JStr "")
  | JStr s => Some (JStr s)
  | JBool _ | JNum _ => Some (JStr "")
  end.

(** [items.map(...)], stopping at the first element that throws. *)
Fixpoint mapImageUrls (items : list value) : option (list value) :=
  match items with
  | [] => Some []
  | img :: rest =>
      match imageUrlOf img with
      | None => None
      | Some u =>
          match mapImageUrls rest with
          | None => None
          | Some us => Some (u :: us)
          end
      end
  end.

(** Lines 77-90.  [None]: the extraction throws. *)
Definition extractImages (payload : value) : option (list value) :=
  if truthy_js (prop payload "images") && isArray (prop payload "images") then
    match mapImageUrls (arrayOrEmpty (prop payload "images")) with
    | None => None
    | Some urls => Some (filter truthy urls)
    end
  else if truthy_js (prop payload "image_urls") then
    Some (arrayOrEmpty (prop payload "image_urls"))
  else if truthy_js (prop payload "outputs") then
    Some (arrayOrEmpty (prop payload "outputs"))
  else if truthy_js (prop payload "result") then
    Some (arrayOrEmpty (prop payload "result"))
  else Some [].

(** Line 95 *)
Definition isSuccessStatus (st : js) : bool :=
  is_str st "completed" || is_str st "succeeded".

(** Line 103 *)
Definition isFailureStatus (st : js) : bool :=
  is_str st "failed" || is_str st "error" || is_str st "cancelled".

(** [`Generation ${status}`], used where [status] is one of the three
    failure spellings. *)
Definition generationMessage (st : js) : value :=
  match st with
  | Some (JStr s) => JStr ("Generation " ++ s)
  | _ => JStr "Generation "
  end.

(** [payload?.error || payload?.message || `Generation ${status}`] *)
Definition failureReasonOf (payload : value) (st : js) : value :=
  match or_else (or_else (prop payload "error") (prop payload "message"))
                (Some (generationMessage st)) with
  | Some v => v
  | None => generationMessage st
  end.

Definition TIMEOUT_MESSAGE : string := "Polling timeout - max attempts reached".

(** ** The process environment

    The variables read through [process.env].  The access token has a
    hardcoded fallback in the source (line 135); its value is a credential
    and is kept out of this development as the field [fallbackToken]. *)
Record Env : Type := mkEnv {
  HIGGSFIELD_KEY_ID : option string;
  HIGGSFIELD_KEY_SECRET : option string;
  HIGGSFIELD_BEARER_TOKEN : option string;
  HIGGSFIELD_API_KEY : option string;
  CHATGPT_BUILDER_TOKEN : option string;
  CHATGPT_BUILDER_CUSTOM_FIELD_ID : option string;
  CHATGPT_BUILDER_FLOW_ID : option string;
  fallbackToken : string
}.

(** Truthiness of an environment variable: set and not empty. *)
Definition isSet (v : option string) : bool :=
  match v with
  | Some s => negb (s =? "")
  | None => false
  end.

(** [process.env.X || dflt] *)
Definition envOr (v : option string) (dflt : string) : string :=
  match v with
  | Some s => if s =? "" then dflt else s
  | None => dflt
  end.

(** Lines 33-50 *)
Definition buildAuthHeaders (env : Env) : list (string * string) :=
  let auth :=
    if isSet env.(HIGGSFIELD_BEARER_TOKEN) then
      [("Authorization", "Bearer " ++ envOr env.(HIGGSFIELD_BEARER_TOKEN) "")]
    else if isSet env.(HIGGSFIELD_KEY_ID) && isSet env.(HIGGSFIELD_KEY_SECRET) then
      [("Authorization",
        "Key " ++ envOr env.(HIGGSFIELD_KEY_ID) "" ++ ":"
               ++ envOr env.(HIGGSFIELD_KEY_SECRET) "")]
    else [] in
  let key :=
    if isSet env.(HIGGSFIELD_API_KEY) then
      [("x-api-key", envOr env.(HIGGSFIELD_API_KEY) "")]
    else [] in
  auth ++ key.

(** ** Outbound requests and their answers *)

(** The three [fetch] calls of the tracker.  [CustomFieldReq] posts the form
    body [value=<encodeURIComponent(imageUrl)>]; the encoding is not
    interpreted and the request carries the value itself.  The request is
    built only for a value that [encodable] accepts. *)
Inductive Request : Type :=
| StatusReq (headers : list (string * string)) (requestId : string)
| CustomFieldReq (contactId customFieldId accessToken : string) (imageUrl : value)
| TriggerFlowReq (contactId flowId accessToken : string).

Definition urlOf (r : Request) : string :=
  match r with
  | StatusReq _ rid => HIGGSFIELD_BASE ++ "/requests/" ++ rid ++ "/status"
  | CustomFieldReq c f _ _ =>
      "https://app.chatgptbuilder.io/api/contacts/" ++ c ++ "/custom_fields/" ++ f
  | TriggerFlowReq c f _ =>
      "https://app.chatgptbuilder.io/api/contacts/" ++ c ++ "/send/" ++ f
  end.

(** Calls to the messaging platform, as opposed to the provider. *)
Definition isMessagingCall (r : Request) : bool :=
  match r with
  | StatusReq _ _ => false
  | CustomFieldReq _ _ _ _ | TriggerFlowReq _ _ _ => true
  end.

(** An HTTP response: [json] is what [response.json()] resolves to, [None]
    when it rejects (malformed body). *)
Record Response : Type := mkResponse {
  statusCode : Z;
  json : option value
}.

(** [response.ok] *)
Definition ok (r : Response) : bool :=
  (200 <=? r.(statusCode))%Z && (r.(statusCode) <=? 299)%Z.

(** [await response.json().catch(() => null)] *)
Definition payloadOf (r : Response) : value :=
  match r.(json) with
  | Some v => v
  | None => JNull
  end.

Inductive FetchResult : Type :=
| NetworkError              (* [fetch] rejects *)
| Responded (r : Response).

(** ** Observable events *)

Inductive LogLine : Type :=
| LStatusCheckFailed (requestId : string)
| LJobStatus (requestId : string) (st : js) (poll nImages : nat)
| LJobCompleted (requestId : string) (nImages : nat)
| LJobFailed (requestId : string) (reason : value)
| LJobTimedOut (requestId : string) (attempts : nat)
| LErrorChecking (requestId : string)
| LNoImages (requestId : string)
| LStartingCallbacks (requestId : string)
| LCallback1Success
| LCallback1Failed (code : Z)
| LCallback1Error
| LWaitingBeforeCallback2
| LCallback2Success
| LCallback2Failed (code : Z)
| LCallback2Error
| LCallbacksCompleted (requestId : string)
| LPolling (nPending : nat)
| LCleanedUp (requestId : string).

(** [EEnterSendCallback] marks an invocation of [sendCallback]; the other
    events are the side effects of the source. *)
Inductive Event : Type :=
| EFetch (r : Request)
| ESleep (ms : Z)
| ELog (l : LogLine)            (* console.log *)
| EError (l : LogLine)          (* console.error *)
| EEnterSendCallback (requestId : string).

Definition Trace : Type := list Event.

Definition isOutboundMessaging (e : Event) : bool :=
  match e with
  | EFetch r => isMessagingCall r
  | _ => false
  end.

Definition isSendCallback (e : Event) : bool :=
  match e with
  | EEnterSendCallback _ => true
  | _ => false
  end.

Definition isErrorLog (e : Event) : bool :=
  match e with
  | EError _ => true
  | _ => false
  end.

(** The calls made to the messaging platform, in the order they are issued. *)
Definition messagingCalls (t : Trace) : list Event := filter isOutboundMessaging t.

(** How often [sendCallback] was invoked. *)
Definition invocations (t : Trace) : nat := length (filter isSendCallback t).

(** ** Asynchronous programs over one job object

    [AwaitFetch] and [AwaitSleep] are the suspension points ([await fetch]
    together with the read of the body, and [await new Promise(setTimeout)]);
    the other nodes run synchronously.  [ReadJob] and [UpdateJob] act on the
    job object the call was given, which other calls may share.  [Throw]
    ends the program with an exception (the promise rejects). *)
Inductive Prog : Type :=
| Done
| Throw
| AwaitFetch (r : Request) (k : FetchResult -> Prog)
| AwaitSleep (ms : Z) (k : Prog)
| ReadClock (k : Z -> Prog)
| ReadJob (k : Job -> Prog)
| UpdateJob (f : Job -> Job) (k : Prog)
| Emit (e : Event) (k : Prog).

(** [try { p } catch { handler }], where nothing follows the statement. *)
Fixpoint catching (handler : Prog) (p : Prog) : Prog :=
  match p with
  | Done => Done
  | Throw => handler
  | AwaitFetch r k => AwaitFetch r (fun res => catching handler (k res))
  | AwaitSleep ms k => AwaitSleep ms (catching handler k)
  | ReadClock k => ReadClock (fun now => catching handler (k now))
  | ReadJob k => ReadJob (fun j => catching handler (k j))
  | UpdateJob f k => UpdateJob f (catching handler k)
  | Emit e k => Emit e (catching handler k)
  end.

(** ** [sendCallback] (lines 129-227)

    [k] is what the caller does once the returned promise resolves. *)

(** The outcome of callback 1 is only logged (lines 175-182). *)
Definition logCallback1 (res : FetchResult) : Event :=
  match res with
  | NetworkError => EError LCallback1Error
  | Responded r =>
      if ok r then ELog LCallback1Success
      else EError (LCallback1Failed r.(statusCode))
  end.

(** Lines 215-222 *)
Definition logCallback2 (res : FetchResult) : Event :=
  match res with
  | NetworkError => EError LCallback2Error
  | Responded r =>
      if ok r then ELog LCallback2Success
      else EError (LCallback2Failed r.(statusCode))
  end.

(** Line 135 *)
Definition accessTokenOf (env : Env) : string :=
  envOr env.(CHATGPT_BUILDER_TOKEN) env.(fallbackToken).

(** Callback 1 (lines 148-168): the first image goes to a custom field of
    the contact. *)
Definition callback1Request (env : Env) (job : Job) (imageUrl : value) : Request :=
  CustomFieldReq job.(contactId)
                 (envOr env.(CHATGPT_BUILDER_CUSTOM_FIELD_ID) "871218")
                 (accessTokenOf env) imageUrl.

(** Callback 2 (lines 192-208): the flow of the contact is triggered. *)
Definition callback2Request (env : Env) (job : Job) : Request :=
  TriggerFlowReq job.(contactId)
                 (envOr env.(CHATGPT_BUILDER_FLOW_ID) "1760629479392")
                 (accessTokenOf env).

Definition sendCallback (env : Env) (k : Prog) : Prog :=
  ReadJob (fun job =>
  Emit (EEnterSendCallback job.(requestId))
  match job.(images) with
  | [] =>
      (* lines 130-133 *)
      Emit (EError (LNoImages job.(requestId))) k
  | imageUrl :: _ =>
      (* lines 138-141 *)
      Emit (ELog (LStartingCallbacks job.(requestId)))
      (* lines 142 and 150, outside any [try]: the template literal and
         [encodeURIComponent] throw for a value that cannot be encoded *)
      (if negb (encodable imageUrl) then Throw else
      (* callback 1, lines 159-182 *)
      (AwaitFetch (callback1Request env job imageUrl) (fun res1 =>
       Emit (logCallback1 res1)
      (* lines 188-190 *)
      (Emit (ELog LWaitingBeforeCallback2)
      (AwaitSleep CALLBACK_2_DELAY_MS
      (* callback 2, lines 192-222 *)
      (ReadJob (fun job' =>
       AwaitFetch (callback2Request env job') (fun res2 =>
       Emit (logCallback2 res2)
      (Emit (ELog (LCallbacksCompleted job'.(requestId))) k)))))))))
  end).

(** ** [checkJobStatus] (lines 55-124) *)

(** The [catch] block, lines 120-123. *)
Definition catchBlock (rid : string) : Prog :=
  Emit (EError (LErrorChecking rid)) (UpdateJob incPollCount Done).

(** Lines 108-119: the "still processing" branch. *)
Definition stillProcessing : Prog :=
  UpdateJob incPollCount
  (ReadJob (fun job =>
   if (MAX_POLL_ATTEMPTS <=? job.(pollCount))%nat then
     UpdateJob (markFailed (JStr TIMEOUT_MESSAGE))
     (ReadClock (fun now =>
      UpdateJob (setCompletedAt now)
      (Emit (EError (LJobTimedOut job.(requestId) job.(pollCount))) Done)))
   else Done)).

(** Lines 63-119 of the [try] block, from the point where the response has
    arrived.  The image list is read first (lines 77-90), then line 92
    prints the status in a template literal; either can throw. *)
Definition onStatusResponse (env : Env) (rid : string) (r : Response) : Prog :=
  let payload := payloadOf r in
  if negb (ok r) then
    (* lines 65-69 *)
    Emit (ELog (LStatusCheckFailed rid)) (UpdateJob incPollCount Done)
  else
    let st := statusOf payload in
    match extractImages payload with
    | None => Throw
    | Some imgs =>
        if negb (stringifies_js st) then Throw else
        ReadJob (fun job =>
        Emit (ELog (LJobStatus rid st (job.(pollCount) + 1)%nat (length imgs)))
        (if isSuccessStatus st then
           (* lines 95-102 *)
           UpdateJob (markSucceeded imgs)
           (ReadClock (fun now =>
            UpdateJob (setCompletedAt now)
            (Emit (ELog (LJobCompleted rid (length imgs)))
            (sendCallback env Done))))
         else if isFailureStatus st then
           (* lines 103-107 *)
           UpdateJob (markFailed (failureReasonOf payload st))
           (ReadClock (fun now =>
            UpdateJob (setCompletedAt now)
            (Emit (EError (LJobFailed rid (failureReasonOf payload st))) Done)))
         else stillProcessing))
    end.

(** The [try] block, lines 57-119: a rejected [fetch] throws. *)
Definition tryBlock (env : Env) (job : Job) : Prog :=
  AwaitFetch (StatusReq (buildAuthHeaders env) job.(requestId))
    (fun res =>
     match res with
     | NetworkError => Throw
     | Responded r => onStatusResponse env job.(requestId) r
     end).

Definition checkJobStatus (env : Env) : Prog :=
  ReadJob (fun job => catching (catchBlock job.(requestId)) (tryBlock env job)).

Local Open Scope list_scope.

(** ** Running one call to completion

    The world answers every request and says how long the answer takes.
    The clock advances over a fetch and over a sleep; synchronous code takes
    no time. *)
Record World : Type := mkWorld {
  respond : Request -> FetchResult;
  latency : Request -> Z
}.

Record Machine : Type := mkMachine {
  clock : Z;
  theJob : Job;
  trace : Trace
}.

Fixpoint run (w : World) (p : Prog) (m : Machine) : Machine :=
  match p with
  | Done => m
  | Throw => m
  | AwaitFetch r k =>
      run w (k (w.(respond) r))
          (mkMachine (m.(clock) + w.(latency) r) m.(theJob) (m.(trace) ++ [EFetch r]))
  | AwaitSleep ms k =>
      run w k (mkMachine (m.(clock) + ms) m.(theJob) (m.(trace) ++ [ESleep ms]))
  | ReadClock k => run w (k m.(clock)) m
  | ReadJob k => run w (k m.(theJob)) m
  | UpdateJob f k => run w k (mkMachine m.(clock) (f m.(theJob)) m.(trace))
  | Emit e k => run w k (mkMachine m.(clock) m.(theJob) (m.(trace) ++ [e]))
  end.

(** One probe of a job, as both entry points make it: the tick (line 233)
    and the first check (line 289) call [checkJobStatus] only on a job whose
    status is [polling]. *)
Definition probe (env : Env) (w : World) (now : Z) (j : Job) : Machine :=
  if isPolling j then run w (checkJobStatus env) (mkMachine now j [])
  else mkMachine now j [].

(** A job driven by a sequence of probes, each finished before the next
    starts.  [ws] gives the world and the starting time of each probe. *)
Fixpoint probes (env : Env) (ws : list (World * Z)) (j : Job) (t : Trace)
  : Job * Trace :=
  match ws with
  | [] => (j, t)
  | (w, now) :: rest =>
      let m := probe env w now j in
      probes env rest m.(theJob) (t ++ m.(trace))
  end.

(** A fresh job, as [addJob] builds it (lines 270-278). *)
Definition newJob (rid cid uid : string) (now : Z) : Job :=
  mkJob rid cid uid polling 0 [] now None None.

(** Jobs that registration followed by any number of completed probes can
    produce. *)
Inductive reachable (env : Env) : Job -> Prop :=
| reach_new (rid cid uid : string) (now : Z) :
    reachable env (newJob rid cid uid now)
| reach_probe (j : Job) (w : World) (now : Z) :
    reachable env j -> reachable env (theJob (probe env w now j)).

(** ** The event loop: calls suspended at the same time

    A call of [checkJobStatus] gives up control at each [await]; timers that
    fire meanwhile start further calls on the same job object.  A suspended
    call is the [await] it waits at, with its continuation. *)
Inductive Task : Type :=
| TFetch (r : Request) (k : FetchResult -> Prog)
| TSleep (ms : Z) (k : Prog).

(** Runs the synchronous part of [p], up to its next [await]. *)
Fixpoint advance (now : Z) (p : Prog) (j : Job) (t : Trace)
  : option Task * Job * Trace :=
  match p with
  | Done => (None, j, t)
  | Throw => (None, j, t)
  | AwaitFetch r k => (Some (TFetch r k), j, t ++ [EFetch r])
  | AwaitSleep ms k => (Some (TSleep ms k), j, t ++ [ESleep ms])
  | ReadClock k => advance now (k now) j t
  | ReadJob k => advance now (k j) j t
  | UpdateJob f k => advance now k (f j) t
  | Emit e k => advance now k j (t ++ [e])
  end.

Record Loop : Type := mkLoop {
  shared : Job;              (* the job object *)
  suspended : list Task;     (* calls waiting at an [await] *)
  seen : Trace
}.

Inductive Action : Type :=
| StartProbe (now : Z)                                (* a timer fires *)
| FetchSettles (i : nat) (now : Z) (res : FetchResult)
| SleepEnds (i : nat) (now : Z).

Fixpoint removeNth {A : Type} (i : nat) (l : list A) : list A :=
  match l, i with
  | [], _ => []
  | _ :: rest, O => rest
  | x :: rest, S i' => x :: removeNth i' rest
  end.

Definition resume (now : Z) (i : nat) (p : Prog) (l : Loop) : Loop :=
  match advance now p l.(shared) l.(seen) with
  | (Some t, j, tr) => mkLoop j (removeNth i l.(suspended) ++ [t]) tr
  | (None, j, tr) => mkLoop j (removeNth i l.(suspended)) tr
  end.

(** [None]: the action is not enabled.  [StartProbe] is what lines 233 and
    289 do: the status is tested when the call starts, and nowhere after. *)
Definition async_step (env : Env) (a : Action) (l : Loop) : option Loop :=
  match a with
  | StartProbe now =>
      if isPolling l.(shared) then
        match advance now (checkJobStatus env) l.(shared) l.(seen) with
        | (Some t, j, tr) => Some (mkLoop j (l.(suspended) ++ [t]) tr)
        | (None, j, tr) => Some (mkLoop j l.(suspended) tr)
        end
      else Some l
  | FetchSettles i now res =>
      match nth_error l.(suspended) i with
      | Some (TFetch _ k) => Some (resume now i (k res) l)
      | _ => None
      end
  | SleepEnds i now =>
      match nth_error l.(suspended) i with
      | Some (TSleep _ k) => Some (resume now i k l)
      | _ => None
      end
  end.

Fixpoint async_run (env : Env) (acts : list Action) (l : Loop) : option Loop :=
  match acts with
  | [] => Some l
  | a :: rest =>
      match async_step env a l with
      | Some l' => async_run env rest l'
      | None => None
      end
  end.

(** ** The job store (line 25) and its readers (lines 300-309)

    A [Map] keeps its entries in insertion order with distinct keys. *)
Definition Store : Type := list (string * Job).

Definition storeOk (jobs : Store) : Prop := NoDup (map fst jobs).

(** [jobs.get(requestId)] *)
Fixpoint getJob (rid : string) (jobs : Store) : option Job :=
  match jobs with
  | [] => None
  | (k, j) :: rest => if k =? rid then Some j else getJob rid rest
  end.

(** [Array.from(jobs.values())] *)
Definition getAllJobs (jobs : Store) : list Job := map snd jobs.

(** [jobs.set(requestId, job)]: an existing key keeps its place. *)
Fixpoint setJob (rid : string) (job : Job) (jobs : Store) : Store :=
  match jobs with
  | [] => [(rid, job)]
  | (k, j) :: rest =>
      if k =? rid then (k, job) :: rest else (k, j) :: setJob rid job rest
  end.

(** [jobs.delete(requestId)] *)
Definition deleteJob (rid : string) (jobs : Store) : Store :=
  filter (fun e => negb (fst e =? rid)) jobs.

(** Line 247: [job.completedAt && job.completedAt < oneHourAgo], with
    [oneHourAgo = Date.now() - 60 * 60 * 1000]. *)
Definition expired (now : Z) (j : Job) : bool :=
  match j.(completedAt) with
  | Some t => (t <? now - RETENTION_MS)%Z
  | None => false
  end.

(** Lines 245-251: every entry is visited once and deleted by key. *)
Definition cleanUp (now : Z) (jobs : Store) : Store :=
  fold_left
    (fun acc e => if expired now (snd e) then deleteJob (fst e) acc else acc)
    jobs jobs.

(** ** The tick (lines 232-252)

    The pending jobs are probed concurrently, each on its own job object;
    the clean-up runs when all of them are done and reads the clock then.  A
    tick that finds no pending job returns before the clean-up. *)
Definition pollAllJobs (env : Env) (w : World) (now : Z) (jobs : Store)
  : Store * Trace :=
  match filter isPolling (getAllJobs jobs) with
  | [] => (jobs, [])
  | pendingJobs =>
      let polled := map (fun e => (fst e, probe env w now (snd e))) jobs in
      let finished := fold_right Z.max now (map (fun e => clock (snd e)) polled) in
      let jobs' := map (fun e => (fst e, theJob (snd e))) polled in
      (cleanUp finished jobs',
       ELog (LPolling (length pendingJobs))
         :: concat (map (fun e => trace (snd e)) polled)
         ++ map (fun e => ELog (LCleanedUp (fst e)))
                (filter (fun e => expired finished (snd e)) jobs'))
  end.

(** ** Registration (lines 257-295) *)
Record Tracker : Type := mkTracker {
  jobs : Store;
  pollInterval : bool;                 (* the recurring timer is set *)
  firstChecks : list (Z * string)      (* one-shot timers: due time, job id *)
}.

Definition emptyTracker : Tracker := mkTracker [] false [].

Definition startPolling (t : Tracker) : Tracker :=
  if t.(pollInterval) then t else mkTracker t.(jobs) true t.(firstChecks).

Definition addJob (rid cid uid : string) (now : Z) (t : Tracker)
  : Tracker * Job :=
  let job := newJob rid cid uid now in
  let t1 := mkTracker (setJob rid job t.(jobs)) t.(pollInterval) t.(firstChecks) in
  let t2 := startPolling t1 in
  (mkTracker t2.(jobs) t2.(pollInterval)
             (t2.(firstChecks) ++ [((now + FIRST_CHECK_DELAY_MS)%Z, rid)]),
   job).

(** The one-shot timer of lines 287-292, with its probe run to completion. *)
Definition firstCheck (env : Env) (w : World) (now : Z) (rid : string)
  (t : Tracker) : Tracker :=
  match getJob rid t.(jobs) with
  | Some j =>
      mkTracker (setJob rid (theJob (probe env w now j)) t.(jobs))
                t.(pollInterval) t.(firstChecks)
  | None => t
  end.

(** ** The extraction rule as the specification words it

    "The first shape that is present and non-empty wins; if none match, the
    list is empty": shape (a) is [images], a list of objects with a [url];
    (b), (c), (d) are the lists under [image_urls], [outputs], [result]. *)
Definition shapeA (payload : value) : list value :=
  match mapImageUrls (arrayOrEmpty (prop payload "images")) with
  | Some urls => filter truthy urls
  | None => []
  end.

Definition firstNonEmpty (shapes : list (list value)) : list value :=
  match filter (fun l => negb (length l =? 0)%nat) shapes with
  | l :: _ => l
  | [] => []
  end.

Definition spec_extractArtifacts (payload : value) : list value :=
  firstNonEmpty
    [shapeA payload;
     arrayOrEmpty (prop payload "image_urls");
     arrayOrEmpty (prop payload "outputs");
     arrayOrEmpty (prop payload "result")].

(** A transient probe failure, as the specification groups them: network
    error, non-2xx response, malformed body. *)
Definition transientFailure (res : FetchResult) : Prop :=
  match res with
  | NetworkError => True
  | Responded r => ok r = false \/ r.(json) = None
  end.

(** The failure reason names a timeout. *)
Fixpoint containsString (needle hay : string) : bool :=
  match hay with
  | EmptyString => String.prefix needle hay
  | String _ rest => String.prefix needle hay || containsString needle rest
  end.

Definition mentionsTimeout (e : option value) : bool :=
  match e with
  | Some (JStr s) => containsString "timeout" s
  | _ => false
  end.

(** ** Summary of one status check

    What a call of [checkJobStatus] that has run to completion leaves in the
    job record, by the provider's answer; [settledAt] is the clock when the
    answer arrives.  [probe_theJob] proves that [run] computes it. *)
Definition jobAfter (settledAt : Z) (res : FetchResult) (j : Job) : Job :=
  match res with
  | NetworkError => incPollCount j
  | Responded r =>
      if ok r then
        match extractImages (payloadOf r) with
        | None => incPollCount j
        | Some imgs =>
            let st := statusOf (payloadOf r) in
            if negb (stringifies_js st) then incPollCount j
            else if isSuccessStatus st then
              let settled := setCompletedAt settledAt (markSucceeded imgs j) in
              match imgs with
              | [] => settled
              | img :: _ => if encodable img then settled else incPollCount settled
              end
            else if isFailureStatus st then
              setCompletedAt settledAt
                (markFailed (failureReasonOf (payloadOf r) st) j)
            else if (MAX_POLL_ATTEMPTS <=? S j.(pollCount))%nat then
              setCompletedAt settledAt
                (markFailed (JStr TIMEOUT_MESSAGE) (incPollCount j))
            else incPollCount j
        end
      else incPollCount j
  end.

(** Whether the answer makes [checkJobStatus] reach line 102. *)
Definition dispatches (res : FetchResult) : bool :=
  match res with
  | NetworkError => false
  | Responded r =>
      ok r &&
      match extractImages (payloadOf r) with
      | None => false
      | Some _ => isSuccessStatus (statusOf (payloadOf r))
      end
  end.

(** The request a probe of [j] sends. *)
Definition statusRequest (env : Env) (j : Job) : Request :=
  StatusReq (buildAuthHeaders env) j.(requestId).

(** A world in which the provider never answers a status request with a 2xx
    response. *)
Definition providerDown (env : Env) (j : Job) (w : World) : Prop :=
  match w.(respond) (statusRequest env j) with
  | NetworkError => True
  | Responded r => ok r = false
  end.

(** A world in which the provider answers 2xx with a document that lines
    77-92 can read (the image list has no [null] element and the status can
    be printed) and whose status is neither a success nor a failure
    spelling. *)
Definition providerBusy (env : Env) (j : Job) (w : World) : Prop :=
  match w.(respond) (statusRequest env j) with
  | NetworkError => False
  | Responded r =>
      ok r = true /\
      extractImages (payloadOf r) <> None /\
      stringifies_js (statusOf (payloadOf r)) = true /\
      isSuccessStatus (statusOf (payloadOf r)) = false /\
      isFailureStatus (statusOf (payloadOf r)) = false
  end.

(** A world in which the provider answers 2xx with a status that line 92
    cannot print: an object with a [toString] entry, or a list that holds
    one. *)
Definition statusUnprintable (env : Env) (j : Job) (w : World) : Prop :=
  match w.(respond) (statusRequest env j) with
  | NetworkError => False
  | Responded r =>
      ok r = true /\ stringifies_js (statusOf (payloadOf r)) = false
  end.

(** Worlds that answer every request the same way, at once. *)
Definition always (res : FetchResult) : World :=
  mkWorld (fun _ => res) (fun _ => 0%Z).

(** An environment with nothing configured. *)
Definition noEnv : Env := mkEnv None None None None None None None "".

(** A call that failed: network error or non-2xx response. *)
Definition failedCall (res : FetchResult) : bool :=
  match res with
  | NetworkError => true
  | Responded r => negb (ok r)
  end.

(** [j'] is [j] with [pollCount] one higher and every other field as it
    was. *)
Definition onlyPollCountIncremented (j j' : Job) : Prop :=
  pollCount j' = S (pollCount j) /\
  status j' = status j /\
  images j' = images j /\
  error j' = error j /\
  createdAt j' = createdAt j /\
  completedAt j' = completedAt j /\
  requestId j' = requestId j /\
  contactId j' = contactId j /\
  userId j' = userId j.

(** ** Operations on the tracker as a whole

    What can happen to the module state: a registration, a tick of the
    recurring timer, the first check of a job. *)
Definition tick (env : Env) (w : World) (now : Z) (t : Tracker) : Tracker :=
  mkTracker (fst (pollAllJobs env w now t.(jobs))) t.(pollInterval) t.(firstChecks).

Inductive TrackerOp : Type :=
| OpAddJob (rid cid uid : string) (now : Z)
| OpTick (w : World) (now : Z)
| OpFirstCheck (w : World) (now : Z) (rid : string).

Definition applyOp (env : Env) (t : Tracker) (op : TrackerOp) : Tracker :=
  match op with
  | OpAddJob rid cid uid now => fst (addJob rid cid uid now t)
  | OpTick w now => tick env w now t
  | OpFirstCheck w now rid => firstCheck env w now rid t
  end.

Definition applyOps (env : Env) (ops : list TrackerOp) (t : Tracker) : Tracker :=
  fold_left (applyOp env) ops t.

(** Every record is filed under its own id and is a job that registration
    and probes can produce. *)
Definition recordsOk (env : Env) (l : Store) : Prop :=
  Forall (fun e => requestId (snd e) = fst e /\ reachable env (snd e)) l.

(** ** The jobs endpoint (the handler that calls [getJob] and [getAllJobs])

    [GET /api/jobs?requestId=xxx] answers with one job, [GET /api/jobs] with
    a summary of all of them.  The reply carries the job record itself where
    the source copies all nine fields, and a [JobSummary] where it copies
    seven and replaces [images] by their number. *)
Record JobSummary : Type := mkSummary {
  sRequestId : string;
  sContactId : string;
  sStatus : JobStatus;
  sPollCount : nat;
  sImages : nat;
  sCreatedAt : Z;
  sCompletedAt : option Z
}.

Definition summaryOf (job : Job) : JobSummary :=
  mkSummary job.(requestId) job.(contactId) job.(status) job.(pollCount)
            (length job.(images)) job.(createdAt) job.(completedAt).

Inductive JobsReply : Type :=
| MethodNotAllowed                                 (* 405 *)
| JobNotFound (requestId : string)                 (* 404 *)
| JobDetail (job : Job)                            (* 200 *)
| JobList (total nPolling nSucceeded nFailed : nat)
          (summaries : list JobSummary).           (* 200 *)

(** [jobs.filter((j) => j.status === s).length] *)
Definition countStatus (s : JobStatus) (l : list Job) : nat :=
  length (filter (fun j => JobStatus_eqb j.(status) s) l).

(** [requestId] is [req.query.requestId]: [None] when the query has none.
    An empty string is falsy and lists all jobs. *)
Definition jobsHandler (method : string) (requestId : option string) (l : Store)
  : JobsReply :=
  if negb (method =? "GET") then MethodNotAllowed
  else
    match requestId with
    | Some rid =>
        if rid =? "" then
          JobList (length (getAllJobs l))
                  (countStatus polling (getAllJobs l))
                  (countStatus succeeded (getAllJobs l))
                  (countStatus failed (getAllJobs l))
                  (map summaryOf (getAllJobs l))
        else
          match getJob rid l with
          | None => JobNotFound rid
          | Some job => JobDetail job
          end
    | None =>
        JobList (length (getAllJobs l))
                (countStatus polling (getAllJobs l))
                (countStatus succeeded (getAllJobs l))
                (countStatus failed (getAllJobs l))
                (map summaryOf (getAllJobs l))
    end.

(** ** The middleware ([src/lib/middleware.ts])

    A request as the middleware reads it, and the configuration it takes
    from the environment.  [allowedOrigins] is [ALLOWED_ORIGINS] split at
    the commas with each part trimmed, [None] when the variable is unset. *)
Record ApiRequest : Type := mkApiRequest {
  method : string;
  xApiKey : option string;            (* [req.headers["x-api-key"]] *)
  origin : option string              (* [req.headers.origin] *)
}.

Record MiddlewareEnv : Type := mkMiddlewareEnv {
  API_KEY : option string;
  allowedOrigins : option (list string)
}.

(** Lines 11-22 *)
Definition validateApiKey (menv : MiddlewareEnv) (req : ApiRequest) : bool :=
  if isSet menv.(API_KEY) then
    match req.(xApiKey), menv.(API_KEY) with
    | Some provided, Some key => provided =? key
    | _, _ => false
    end
  else true.

Definition includes (s : string) (l : list string) : bool :=
  existsb (fun x => x =? s) l.

(** Lines 27-49: the headers set on the response, in the order of the
    [setHeader] calls, and whether the request was a preflight that has
    been answered. *)
Definition setCorsHeaders (menv : MiddlewareEnv) (req : ApiRequest)
  : list (string * string) * bool :=
  let allowed :=
    match menv.(allowedOrigins) with
    | Some l => l
    | None => ["*"]
    end in
  let org := envOr req.(origin) "" in
  let isAllowed := includes "*" allowed || includes org allowed in
  ((if isAllowed then
      [("Access-Control-Allow-Origin", if includes "*" allowed then "*" else org)]
    else [])
   ++ [("Access-Control-Allow-Methods", "GET, POST, OPTIONS");
       ("Access-Control-Allow-Headers", "Content-Type, X-API-Key, Authorization");
       ("Access-Control-Max-Age", "86400")],
   req.(method) =? "OPTIONS").

(** How a wrapped handler is reached, or not. *)
Inductive Gate : Type :=
| Preflight (headers : list (string * string))       (* 200, empty body *)
| Unauthorized (headers : list (string * string))    (* 401, code UNAUTHORIZED *)
| CallHandler (headers : list (string * string)).    (* [handler(req, res)] *)

(** Lines 54-71 *)
Definition withMiddleware (menv : MiddlewareEnv) (req : ApiRequest) : Gate :=
  let (headers, handled) := setCorsHeaders menv req in
  if handled then Preflight headers
  else if negb (validateApiKey menv req) then Unauthorized headers
  else CallHandler headers.

(** Lines 76-82 *)
Definition withCors (menv : MiddlewareEnv) (req : ApiRequest) : Gate :=
  let (headers, handled) := setCorsHeaders menv req in
  if handled then Preflight headers else CallHandler headers.

(** Reading a header back from the list of [setHeader] calls. *)
Fixpoint lookupHeader (name : string) (hs : list (string * string)) : option string :=
  match hs with
  | [] => None
  | (k, v) :: rest => if k =? name then Some v else lookupHeader name rest
  end.

Definition gateHeaders (g : Gate) : list (string * string) :=
  match g with
  | Preflight hs | Unauthorized hs | CallHandler hs => hs
  end.

(** The clock when the last probe of a tick is done (line 245 reads it). *)
Definition tickEnd (env : Env) (w : World) (now : Z) (l : Store) : Z :=
  fold_right Z.max now (map (fun e => clock (probe env w now (snd e))) l).

Definition isRegistration (op : TrackerOp) : bool :=
  match op with
  | OpAddJob _ _ _ _ => true
  | _ => false
  end.

Definition registrations (ops : list TrackerOp) : nat :=
  length (filter isRegistration ops).

(** ** What no interleaving can undo

    [progress a b]: [b] is the job [a] with the same identity, at least as
    many attempts counted, and settled if [a] was. *)
Definition progress (a b : Job) : Prop :=
  requestId b = requestId a /\
  contactId b = contactId a /\
  userId b = userId a /\
  createdAt b = createdAt a /\
  (pollCount a <= pollCount b)%nat /\
  (status a <> polling -> status b <> polling).

(** A program all of whose assignments to the job make progress, on every
    path. *)
Inductive progressing : Prog -> Prop :=
| progressing_done : progressing Done
| progressing_throw : progressing Throw
| progressing_fetch (r : Request) (k : FetchResult -> Prog) :
    (forall res, progressing (k res)) -> progressing (AwaitFetch r k)
| progressing_sleep (ms : Z) (k : Prog) :
    progressing k -> progressing (AwaitSleep ms k)
| progressing_clock (k : Z -> Prog) :
    (forall now, progressing (k now)) -> progressing (ReadClock k)
| progressing_read (k : Job -> Prog) :
    (forall j, progressing (k j)) -> progressing (ReadJob k)
| progressing_update (f : Job -> Job) (k : Prog) :
    (forall j, progress j (f j)) -> progressing k -> progressing (UpdateJob f k)
| progressing_emit (e : Event) (k : Prog) :
    progressing k -> progressing (Emit e k).

Definition taskProgressing (t : Task) : Prop :=
  match t with
  | TFetch _ k => forall res, progressing (k res)
  | TSleep _ k => progressing k
  end.

(** ** The jobs endpoint as exported: [withMiddleware(handler)]

    The reply of the middleware when it answers itself, and the reply of
    the handler, with the CORS headers set before, when it is called. *)
Inductive EndpointReply : Type :=
| PreflightReply (headers : list (string * string))          (* 200, no body *)
| UnauthorizedReply (headers : list (string * string))       (* 401 *)
| HandlerReply (headers : list (string * string)) (reply : JobsReply).

Definition jobsEndpoint (menv : MiddlewareEnv) (req : ApiRequest)
  (requestId : option string) (l : Store) : EndpointReply :=
  match withMiddleware menv req with
  | Preflight hs => PreflightReply hs
  | Unauthorized hs => UnauthorizedReply hs
  | CallHandler hs => HandlerReply hs (jobsHandler req.(method) requestId l)
  end.

(** Whether a run of [p] ends with an exception. *)
Fixpoint throws (w : World) (p : Prog) (m : Machine) : bool :=
  match p with
  | Done => false
  | Throw => true
  | AwaitFetch r k =>
      throws w (k (w.(respond) r))
             (mkMachine (m.(clock) + w.(latency) r) m.(theJob) (m.(trace) ++ [EFetch r]))
  | AwaitSleep ms k =>
      throws w k (mkMachine (m.(clock) + ms) m.(theJob) (m.(trace) ++ [ESleep ms]))
  | ReadClock k => throws w (k m.(clock)) m
  | ReadJob k => throws w (k m.(theJob)) m
  | UpdateJob f k => throws w k (mkMachine m.(clock) (f m.(theJob)) m.(trace))
  | Emit e k => throws w k (mkMachine m.(clock) m.(theJob) (m.(trace) ++ [e]))
  end.

(** * Properties *)

(** ** Running the two programs *)

Ltac step_run := cbn [run catching theJob clock trace negb].

Lemma run_sendCallback_job (env : Env) (w : World) (m : Machine) :
  theJob (run w (sendCallback env Done) m) = theJob m.
Proof.
  unfold sendCallback. step_run.
  destruct (images (theJob m)) as [|img rest]; [|destruct (encodable img)];
    step_run; reflexivity.
Qed.

Lemma run_sendCallback_empty (env : Env) (w : World) (m : Machine) :
  images (theJob m) = [] ->
  run w (sendCallback env Done) m
  = mkMachine (clock m) (theJob m)
      (trace m ++ [EEnterSendCallback (requestId (theJob m));
                   EError (LNoImages (requestId (theJob m)))]).
Proof.
  intros Himg. unfold sendCallback. step_run. rewrite Himg. step_run.
  rewrite <- app_assoc. reflexivity.
Qed.

Lemma run_sendCallback_nonempty (env : Env) (w : World) (m : Machine)
  (img : value) (rest : list value) :
  images (theJob m) = img :: rest ->
  encodable img = true ->
  let c1 := callback1Request env (theJob m) img in
  let c2 := callback2Request env (theJob m) in
  run w (sendCallback env Done) m
  = mkMachine
      (clock m + latency w c1 + CALLBACK_2_DELAY_MS + latency w c2)
      (theJob m)
      (trace m ++
       [EEnterSendCallback (requestId (theJob m));
        ELog (LStartingCallbacks (requestId (theJob m)));
        EFetch c1;
        logCallback1 (respond w c1);
        ELog LWaitingBeforeCallback2;
        ESleep CALLBACK_2_DELAY_MS;
        EFetch c2;
        logCallback2 (respond w c2);
        ELog (LCallbacksCompleted (requestId (theJob m)))]).
Proof.
  intros Himg Henc c1 c2. unfold sendCallback. step_run. rewrite Himg, Henc.
  step_run. repeat rewrite <- app_assoc. reflexivity.
Qed.

(** A first result that cannot be encoded: the call throws after its first
    log lines, before any request. *)
Lemma run_sendCallback_throws (env : Env) (w : World) (m : Machine)
  (img : value) (rest : list value) :
  images (theJob m) = img :: rest ->
  encodable img = false ->
  run w (sendCallback env Done) m
  = mkMachine (clock m) (theJob m)
      (trace m ++ [EEnterSendCallback (requestId (theJob m));
                   ELog (LStartingCallbacks (requestId (theJob m)))]) /\
  throws w (sendCallback env Done) m = true.
Proof.
  intros Himg Henc. unfold sendCallback. cbn [run throws theJob clock trace].
  rewrite Himg, Henc. cbn [run throws negb theJob clock trace].
  rewrite <- app_assoc. split; reflexivity.
Qed.


Lemma run_stillProcessing (w : World) (m : Machine) :
  run w stillProcessing m
  = if (MAX_POLL_ATTEMPTS <=? S (pollCount (theJob m)))%nat then
      mkMachine (clock m)
        (setCompletedAt (clock m)
           (markFailed (JStr TIMEOUT_MESSAGE) (incPollCount (theJob m))))
        (trace m ++ [EError (LJobTimedOut (requestId (theJob m))
                                          (S (pollCount (theJob m))))])
    else mkMachine (clock m) (incPollCount (theJob m)) (trace m).
Proof.
  unfold stillProcessing. step_run.
  change (pollCount (incPollCount (theJob m))) with (S (pollCount (theJob m))).
  destruct (MAX_POLL_ATTEMPTS <=? S (pollCount (theJob m)))%nat; reflexivity.
Qed.

(** ** One probe *)

Lemma isPolling_true (j : Job) : isPolling j = true <-> status j = polling.
Proof. unfold isPolling. destruct (status j); simpl; split; congruence. Qed.

Lemma probe_not_polling (env : Env) (w : World) (now : Z) (j : Job) :
  isPolling j = false -> probe env w now j = mkMachine now j [].
Proof. intros H. unfold probe. rewrite H. reflexivity. Qed.

Lemma invocations_app (t u : Trace) :
  invocations (t ++ u) = (invocations t + invocations u)%nat.
Proof. unfold invocations. rewrite filter_app, length_app. reflexivity. Qed.

Lemma messagingCalls_app (t u : Trace) :
  messagingCalls (t ++ u) = messagingCalls t ++ messagingCalls u.
Proof. apply filter_app. Qed.

Lemma invocations_logCallback1 (res : FetchResult) :
  isSendCallback (logCallback1 res) = false.
Proof. destruct res as [|r]; simpl; [|destruct (ok r)]; reflexivity. Qed.

Lemma invocations_logCallback2 (res : FetchResult) :
  isSendCallback (logCallback2 res) = false.
Proof. destruct res as [|r]; simpl; [|destruct (ok r)]; reflexivity. Qed.

Lemma messaging_logCallback1 (res : FetchResult) :
  isOutboundMessaging (logCallback1 res) = false.
Proof. destruct res as [|r]; simpl; [|destruct (ok r)]; reflexivity. Qed.

Lemma messaging_logCallback2 (res : FetchResult) :
  isOutboundMessaging (logCallback2 res) = false.
Proof. destruct res as [|r]; simpl; [|destruct (ok r)]; reflexivity. Qed.

(** [sendCallback] inside the [try] of [checkJobStatus]: a throw ends in the
    [catch] block, which counts an attempt. *)
Lemma run_caught_sendCallback (env : Env) (w : World) (rid : string) (m : Machine) :
  let m' := run w (catching (catchBlock rid) (sendCallback env Done)) m in
  theJob m'
  = match images (theJob m) with
    | [] => theJob m
    | img :: _ => if encodable img then theJob m else incPollCount (theJob m)
    end /\
  invocations (trace m') = S (invocations (trace m)) /\
  messagingCalls (trace m')
  = messagingCalls (trace m) ++
    match images (theJob m) with
    | [] => []
    | img :: _ =>
        if encodable img then
          [EFetch (callback1Request env (theJob m) img);
           EFetch (callback2Request env (theJob m))]
        else []
    end.
Proof.
  cbn zeta. unfold sendCallback, catchBlock. step_run.
  destruct (images (theJob m)) as [|img rest]; [|destruct (encodable img)];
    step_run; rewrite <- ?app_assoc; cbn [app];
    rewrite invocations_app, messagingCalls_app;
    unfold invocations, messagingCalls;
    cbn [filter isSendCallback isOutboundMessaging isMessagingCall
         callback1Request callback2Request];
    rewrite ?invocations_logCallback1, ?invocations_logCallback2,
            ?messaging_logCallback1, ?messaging_logCallback2;
    cbn [length app]; (split; [reflexivity|]); (split; [lia | reflexivity]).
Qed.

Lemma run_caught_stillProcessing (w : World) (rid : string) (m : Machine) :
  run w (catching (catchBlock rid) stillProcessing) m = run w stillProcessing m.
Proof.
  unfold stillProcessing. step_run.
  destruct (MAX_POLL_ATTEMPTS <=? pollCount (incPollCount (theJob m)))%nat;
    reflexivity.
Qed.

Lemma success_stringifies (st : js) :
  isSuccessStatus st = true -> stringifies_js st = true.
Proof.
  unfold isSuccessStatus, is_str. destruct st as [[| | |s| |]|]; try discriminate.
  reflexivity.
Qed.

Lemma failure_stringifies (st : js) :
  isFailureStatus st = true -> stringifies_js st = true.
Proof.
  unfold isFailureStatus, is_str. destruct st as [[| | |s| |]|]; try discriminate.
  reflexivity.
Qed.

(** [run] computes [jobAfter]. *)
Lemma probe_theJob (env : Env) (w : World) (now : Z) (j : Job) :
  isPolling j = true ->
  theJob (probe env w now j)
  = jobAfter (now + latency w (statusRequest env j))
             (respond w (statusRequest env j)) j.
Proof.
  intros Hp. unfold probe. rewrite Hp. unfold checkJobStatus, tryBlock. step_run.
  fold (statusRequest env j).
  destruct (respond w (statusRequest env j)) as [|r]; [reflexivity|].
  unfold onStatusResponse, jobAfter.
  destruct (ok r); [|reflexivity]. cbn [negb].
  destruct (extractImages (payloadOf r)) as [imgs|]; [|reflexivity].
  cbn zeta.
  destruct (stringifies_js (statusOf (payloadOf r))); cbn [negb]; [|reflexivity].
  step_run.
  destruct (isSuccessStatus (statusOf (payloadOf r))).
  - step_run. rewrite (proj1 (run_caught_sendCallback env w (requestId j) _)).
    reflexivity.
  - destruct (isFailureStatus (statusOf (payloadOf r))).
    + reflexivity.
    + rewrite run_caught_stillProcessing, run_stillProcessing. step_run.
      destruct (MAX_POLL_ATTEMPTS <=? S (pollCount j))%nat; reflexivity.
Qed.

(** A call of [sendCallback] counts once, whatever it then does. *)
Lemma run_sendCallback_invocations (env : Env) (w : World) (m : Machine) :
  invocations (trace (run w (sendCallback env Done) m))
  = S (invocations (trace m)).
Proof.
  destruct (images (theJob m)) as [|img rest] eqn:Himg.
  - rewrite (run_sendCallback_empty env w m Himg). step_run.
    rewrite invocations_app. unfold invocations at 2. cbn [filter isSendCallback length]. lia.
  - destruct (encodable img) eqn:Henc.
    + rewrite (run_sendCallback_nonempty env w m img rest Himg Henc). step_run.
      rewrite invocations_app. unfold invocations at 2. cbn [filter isSendCallback].
      rewrite invocations_logCallback1, invocations_logCallback2. cbn [length]. lia.
    + rewrite (proj1 (run_sendCallback_throws env w m img rest Himg Henc)). step_run.
      rewrite invocations_app. unfold invocations at 2.
      cbn [filter isSendCallback length]. lia.
Qed.

(** [sendCallback] is invoked by a probe exactly when the answer is a
    readable 2xx response with a success status. *)
Lemma probe_invocations (env : Env) (w : World) (now : Z) (j : Job) :
  isPolling j = true ->
  invocations (trace (probe env w now j))
  = if dispatches (respond w (statusRequest env j)) then 1%nat else 0%nat.
Proof.
  intros Hp. unfold probe. rewrite Hp. unfold checkJobStatus, tryBlock. step_run.
  fold (statusRequest env j).
  destruct (respond w (statusRequest env j)) as [|r]; [reflexivity|].
  unfold onStatusResponse, dispatches.
  destruct (ok r); [|reflexivity]. cbn [negb andb].
  destruct (extractImages (payloadOf r)) as [imgs|]; [|reflexivity].
  cbn zeta.
  destruct (isSuccessStatus (statusOf (payloadOf r))) eqn:Hst.
  - rewrite (success_stringifies _ Hst). cbn [negb]. step_run.
    rewrite (proj1 (proj2 (run_caught_sendCallback env w (requestId j) _))).
    reflexivity.
  - destruct (stringifies_js (statusOf (payloadOf r))); cbn [negb]; [|reflexivity].
    step_run.
    destruct (isFailureStatus (statusOf (payloadOf r))).
    + reflexivity.
    + rewrite run_caught_stillProcessing, run_stillProcessing. step_run.
      destruct (MAX_POLL_ATTEMPTS <=? S (pollCount j))%nat; reflexivity.
Qed.

(** ** Sequences of probes *)

Lemma probes_settled (env : Env) (ws : list (World * Z)) (j : Job) (t : Trace) :
  isPolling j = false -> probes env ws j t = (j, t).
Proof.
  intros Hs. revert t. induction ws as [|[w now] rest IH]; intros t.
  - reflexivity.
  - cbn [probes]. rewrite (probe_not_polling env w now j Hs). cbn [theJob trace].
    rewrite app_nil_r. apply IH.
Qed.

Lemma jobAfter_polling_no_dispatch (at_ : Z) (res : FetchResult) (j : Job) :
  isPolling j = true ->
  isPolling (jobAfter at_ res j) = true -> dispatches res = false.
Proof.
  intros Hp. unfold jobAfter, dispatches.
  destruct res as [|r]; [reflexivity|].
  destruct (ok r); [|reflexivity]. cbn [andb].
  destruct (extractImages (payloadOf r)) as [imgs|]; [|reflexivity].
  cbn zeta.
  destruct (isSuccessStatus (statusOf (payloadOf r))) eqn:Hst; [|reflexivity].
  rewrite (success_stringifies _ Hst). cbn [negb].
  destruct imgs as [|img rest]; [|destruct (encodable img)]; cbn; discriminate.
Qed.

(** A probe dispatches exactly when it moves the job into [succeeded]. *)
Lemma dispatches_iff_succeeded (at_ : Z) (res : FetchResult) (j : Job) :
  isPolling j = true ->
  dispatches res = true <-> status (jobAfter at_ res j) = succeeded.
Proof.
  intros Hp. apply isPolling_true in Hp. unfold jobAfter, dispatches.
  destruct res as [|r]; cbn [status incPollCount].
  - rewrite Hp. split; discriminate.
  - destruct (ok r); cbn [andb status incPollCount];
      [|rewrite Hp; split; discriminate].
    destruct (extractImages (payloadOf r)) as [imgs|]; cbn [status incPollCount];
      [|rewrite Hp; split; discriminate].
    cbn zeta.
    destruct (isSuccessStatus (statusOf (payloadOf r))) eqn:Hst.
    + rewrite (success_stringifies _ Hst). cbn [negb].
      destruct imgs as [|img rest]; [|destruct (encodable img)]; cbn; tauto.
    + destruct (stringifies_js (statusOf (payloadOf r))); cbn [negb status incPollCount];
        [|rewrite Hp; split; discriminate].
      destruct (isFailureStatus (statusOf (payloadOf r))); [cbn; split; discriminate|].
      destruct (MAX_POLL_ATTEMPTS <=? S (pollCount j))%nat;
        cbn [status setCompletedAt markFailed incPollCount];
        [|rewrite Hp]; split; discriminate.
Qed.

(** With one probe at a time, [sendCallback] is invoked at most once in the
    life of a job. *)
Lemma sequential_probes_dispatch_at_most_once
  (env : Env) (ws : list (World * Z)) (j : Job) (t : Trace) :
  (isPolling j = true /\ invocations t = 0%nat) \/
  (isPolling j = false /\ (invocations t <= 1)%nat) ->
  (invocations (snd (probes env ws j t)) <= 1)%nat.
Proof.
  revert j t. induction ws as [|[w now] rest IH]; intros j t Hinv.
  - cbn [probes snd]. destruct Hinv as [[_ H]|[_ H]]; lia.
  - destruct Hinv as [[Hp Ht]|[Hs Ht]].
    + cbn [probes]. apply IH.
      destruct (isPolling (theJob (probe env w now j))) eqn:Hp'.
      * left. split; [reflexivity|].
        rewrite invocations_app, (probe_invocations env w now j Hp), Ht.
        rewrite (probe_theJob env w now j Hp) in Hp'.
        rewrite (jobAfter_polling_no_dispatch _ _ j Hp Hp'). reflexivity.
      * right. split; [reflexivity|].
        rewrite invocations_app, (probe_invocations env w now j Hp), Ht.
        destruct (dispatches _); lia.
    + rewrite (probes_settled env _ j t Hs). cbn. exact Ht.
Qed.

(** ** C1 *)

Lemma providerDown_jobAfter (env : Env) (w : World) (at_ : Z) (j : Job) :
  providerDown env j w ->
  jobAfter at_ (respond w (statusRequest env j)) j = incPollCount j.
Proof.
  unfold providerDown, jobAfter.
  destruct (respond w (statusRequest env j)) as [|r]; [reflexivity|].
  intros ->. reflexivity.
Qed.

(** C1, on the code: the attempt ceiling is only tested on the "still
    processing" branch.  A job whose probes all meet a network error or a
    non-2xx response keeps counting and stays in [polling], however many
    probes it gets: after [MAX_POLL_ATTEMPTS] of them, and after any number
    more, it is neither failed nor timed out. *)
Theorem transient_failures_never_time_out
  (env : Env) (ws : list (World * Z)) (j : Job) :
  isPolling j = true ->
  Forall (fun wn => providerDown env j (fst wn)) ws ->
  let j' := fst (probes env ws j []) in
  status j' = polling /\
  pollCount j' = (pollCount j + length ws)%nat /\
  error j' = error j /\
  completedAt j' = completedAt j.
Proof.
  intros Hp Hall. cbn zeta. generalize (@nil Event) as t.
  revert j Hp Hall. induction ws as [|[w now] rest IH]; intros j Hp Hall t.
  - cbn. apply isPolling_true in Hp. repeat split; [exact Hp | lia].
  - inversion Hall as [|x l Hw Hrest]; subst. cbn [fst] in Hw.
    cbn [probes]. rewrite (probe_theJob env w now j Hp).
    rewrite (providerDown_jobAfter env w _ j Hw).
    destruct (IH (incPollCount j)) with (t := t ++ trace (probe env w now j))
      as (H1 & H2 & H3 & H4); [exact Hp | exact Hrest |].
    repeat split; [exact H1 | | exact H3 | exact H4].
    rewrite H2. cbn [pollCount incPollCount length]. lia.
Qed.

Lemma transient_failures_never_time_out_witness :
  let down := always (Responded (mkResponse 503 None)) in
  let j' := fst (probes noEnv (repeat (down, 0%Z) MAX_POLL_ATTEMPTS)
                        (newJob "job-1" "c-1" "u-1" 0) []) in
  status j' = polling /\ pollCount j' = MAX_POLL_ATTEMPTS /\
  error j' = None /\ completedAt j' = None.
Proof.
  apply (transient_failures_never_time_out noEnv
           (repeat (always (Responded (mkResponse 503 None)), 0%Z) MAX_POLL_ATTEMPTS)
           (newJob "job-1" "c-1" "u-1" 0)).
  - reflexivity.
  - apply Forall_forall. intros x Hx. apply repeat_spec in Hx. subst x.
    reflexivity.
Defined.

Lemma providerBusy_jobAfter (env : Env) (w : World) (at_ : Z) (j : Job) :
  providerBusy env j w ->
  jobAfter at_ (respond w (statusRequest env j)) j
  = if (MAX_POLL_ATTEMPTS <=? S (pollCount j))%nat then
      setCompletedAt at_ (markFailed (JStr TIMEOUT_MESSAGE) (incPollCount j))
    else incPollCount j.
Proof.
  unfold providerBusy, jobAfter.
  destruct (respond w (statusRequest env j)) as [|r]; [tauto|].
  intros (-> & Hex & Hs & Hnot & Hnf).
  destruct (extractImages (payloadOf r)); [|congruence].
  cbn zeta. rewrite Hs, Hnot, Hnf. reflexivity.
Qed.

(** The sibling path: when the provider keeps answering 2xx with a
    non-terminal status, the probe that takes the count to
    [MAX_POLL_ATTEMPTS] fails the job with the timeout message. *)
Lemma busy_provider_times_out (env : Env) (ws : list (World * Z)) (j : Job) :
  isPolling j = true ->
  Forall (fun wn => providerBusy env j (fst wn)) ws ->
  ws <> [] ->
  (MAX_POLL_ATTEMPTS <= pollCount j + length ws)%nat ->
  let j' := fst (probes env ws j []) in
  status j' = failed /\
  error j' = Some (JStr TIMEOUT_MESSAGE) /\
  mentionsTimeout (error j') = true /\
  completedAt j' <> None.
Proof.
  intros Hp Hall Hne Hlen. cbn zeta. generalize (@nil Event) as t.
  revert j Hp Hall Hne Hlen.
  induction ws as [|[w now] rest IH]; intros j Hp Hall Hne Hlen t;
    [congruence|].
  inversion Hall as [|x l Hw Hrest]; subst. cbn [fst] in Hw.
  cbn [probes]. rewrite (probe_theJob env w now j Hp).
  rewrite (providerBusy_jobAfter env w _ j Hw).
  destruct (MAX_POLL_ATTEMPTS <=? S (pollCount j))%nat eqn:Hmax.
  - rewrite probes_settled by reflexivity. cbn.
    repeat split; congruence.
  - apply Nat.leb_gt in Hmax. cbn [length] in Hlen.
    apply (IH (incPollCount j)); [exact Hp | exact Hrest | |].
    + destruct rest; [cbn in Hlen; lia | congruence].
    + cbn [pollCount incPollCount]. lia.
Qed.

(** ** C2 *)

Lemma reachable_results (env : Env) (j : Job) :
  reachable env j -> status j = succeeded \/ images j = [].
Proof.
  induction 1 as [rid cid uid now | j w now Hr IH].
  - right. reflexivity.
  - destruct (isPolling j) eqn:Hp.
    + rewrite (probe_theJob env w now j Hp).
      assert (Himg : images j = []).
      { apply isPolling_true in Hp. destruct IH as [Hs|Hi]; [congruence|exact Hi]. }
      unfold jobAfter.
      destruct (respond w (statusRequest env j)) as [|r]; [right; exact Himg|].
      destruct (ok r); [|right; exact Himg].
      destruct (extractImages (payloadOf r)) as [imgs|]; [|right; exact Himg].
      cbn zeta.
      destruct (stringifies_js (statusOf (payloadOf r))); cbn [negb];
        [|right; exact Himg].
      destruct (isSuccessStatus (statusOf (payloadOf r))).
      { left. destruct imgs as [|img rest]; [|destruct (encodable img)]; reflexivity. }
      destruct (isFailureStatus (statusOf (payloadOf r))); [right; exact Himg|].
      destruct (MAX_POLL_ATTEMPTS <=? S (pollCount j))%nat; right; exact Himg.
    + rewrite (probe_not_polling env w now j Hp). exact IH.
Qed.

(** C2, as stated, fails: a success answer that carries no image leaves the
    job [succeeded] with an empty result list. *)
Lemma succeeded_with_empty_results :
  ~ (forall (env : Env) (j : Job),
       reachable env j -> (images j <> [] <-> status j = succeeded)).
Proof.
  intros H.
  pose (w := always (Responded (mkResponse 200
                       (Some (JObj [("status", JStr "completed")]))))).
  pose (j := theJob (probe noEnv w 0 (newJob "job-1" "c-1" "u-1" 0))).
  assert (Hr : reachable noEnv j).
  { exact (reach_probe noEnv _ w 0 (reach_new noEnv "job-1" "c-1" "u-1" 0)). }
  destruct (H noEnv j Hr) as [_ Hback].
  assert (Hs : status j = succeeded) by (vm_compute; reflexivity).
  assert (Hi : images j = []) by (vm_compute; reflexivity).
  exact (Hback Hs Hi).
Qed.

(** C2, amended: for every job reachable from registration through any
    sequence of probes, each applied before the next one starts, a non-empty
    result list implies that the job is succeeded; the results are written
    only by the transition into [succeeded], with whatever list the answer
    carried. *)
Theorem results_nonempty_only_if_succeeded (env : Env) (j : Job) :
  reachable env j -> images j <> [] -> status j = succeeded.
Proof.
  intros Hr Hne. destruct (reachable_results env j Hr) as [Hs|Hi];
    [exact Hs | contradiction].
Qed.

Lemma results_nonempty_only_if_succeeded_witness :
  let w := always (Responded (mkResponse 200
             (Some (JObj [("status", JStr "completed");
                          ("images", JArr [JObj [("url", JStr "https://x/out.png")]])])))) in
  let j := theJob (probe noEnv w 0 (newJob "job-1" "c-1" "u-1" 0)) in
  images j = [JStr "https://x/out.png"] /\ status j = succeeded.
Proof.
  cbn zeta. split; [vm_compute; reflexivity|].
  apply (results_nonempty_only_if_succeeded noEnv).
  - exact (reach_probe noEnv _ _ 0 (reach_new noEnv "job-1" "c-1" "u-1" 0)).
  - vm_compute. discriminate.
Defined.


(** ** C3 *)

(** C3, on the code: the status is tested when a probe starts and not when
    its answer is applied.  When the first check of a job and a tick are in
    flight together and both are answered with a success, [sendCallback]
    runs twice, the second time on a job that is already [succeeded], and
    four calls reach the messaging platform. *)
Theorem overlapping_probes_dispatch_twice (env : Env) :
  let done := Responded (mkResponse 200
                (Some (JObj [("status", JStr "completed");
                             ("images", JArr [JObj [("url", JStr "https://x/out.png")]])]))) in
  let accepted := Responded (mkResponse 200 None) in
  let start := mkLoop (newJob "job-1" "c-1" "u-1" 0) [] [] in
  let first := [StartProbe 5000; StartProbe 5010; FetchSettles 0 5200 done] in
  let others := [FetchSettles 0 5210 done;
                 FetchSettles 0 5400 accepted; FetchSettles 0 5410 accepted;
                 SleepEnds 0 20400; SleepEnds 0 20410;
                 FetchSettles 0 20600 accepted; FetchSettles 0 20610 accepted] in
  match async_run env first start, async_run env (first ++ others) start with
  | Some mid, Some l =>
      status (shared mid) = succeeded /\
      invocations (seen mid) = 1%nat /\
      length (suspended mid) = 2%nat /\
      status (shared l) = succeeded /\
      suspended l = [] /\
      invocations (seen l) = 2%nat /\
      length (messagingCalls (seen l)) = 4%nat
  | _, _ => False
  end.
Proof. vm_compute. repeat split. Qed.

(** The same overlap lets a later answer overwrite the state of a job that
    has already succeeded: here the second answer reports a failure, and the
    job ends [failed] while it holds the results of the first. *)
Remark overlapping_probes_fail_succeeded_job (env : Env) :
  let done := Responded (mkResponse 200
                (Some (JObj [("status", JStr "completed");
                             ("images", JArr [JObj [("url", JStr "https://x/out.png")]])]))) in
  let broken := Responded (mkResponse 200
                  (Some (JObj [("status", JStr "failed")]))) in
  let start := mkLoop (newJob "job-1" "c-1" "u-1" 0) [] [] in
  match async_run env [StartProbe 5000; StartProbe 5010;
                       FetchSettles 0 5200 done; FetchSettles 0 5210 broken]
                  start with
  | Some l =>
      status (shared l) = failed /\
      images (shared l) = [JStr "https://x/out.png"] /\
      invocations (seen l) = 1%nat
  | None => False
  end.
Proof. vm_compute. repeat split. Qed.

(** ** C4 *)

(** C4, as stated, fails: an [images] field that is present but empty wins
    over a non-empty [image_urls]. *)
Lemma empty_images_field_wins :
  ~ (forall payload : value,
       extractImages payload = Some (spec_extractArtifacts payload)).
Proof.
  intros H.
  specialize (H (JObj [("images", JArr []);
                       ("image_urls", JArr [JStr "https://x/out.png"])])).
  vm_compute in H. discriminate H.
Qed.

Lemma truthy_js_array (x : js) : isArray x = true -> truthy_js x = true.
Proof. destruct x as [[]|]; simpl; congruence. Qed.

Lemma not_truthy_arrayOrEmpty (x : js) : truthy_js x = false -> arrayOrEmpty x = [].
Proof. destruct x as [[]|]; simpl; congruence. Qed.

(** The image list of shape (a) can be read when it has no [null]
    element. *)
Lemma mapImageUrls_total (items : list value) :
  Forall (fun img => img <> JNull) items -> mapImageUrls items <> None.
Proof.
  induction 1 as [|img items Himg _ IH]; cbn [mapImageUrls]; [discriminate|].
  destruct img; try congruence; cbn [imageUrlOf];
    destruct (mapImageUrls items); congruence.
Qed.

(** C4, amended: the four shapes are tried in the order [images],
    [image_urls], [outputs], [result], and the first one that is present
    wins, whether the list it yields is empty or not: [images] is present
    when it is an array (it yields the truthy [url]s and strings of its
    elements), the other three when they are truthy, and a present field
    that is not an array yields the empty list.  With no shape present the
    list is empty. *)
Theorem extractImages_first_present_shape (payload : value) :
  (forall items urls,
     prop payload "images" = Some (JArr items) ->
     mapImageUrls items = Some urls ->
     extractImages payload = Some (filter truthy urls)) /\
  (isArray (prop payload "images") = false ->
   truthy_js (prop payload "image_urls") = true ->
     extractImages payload = Some (arrayOrEmpty (prop payload "image_urls"))) /\
  (isArray (prop payload "images") = false ->
   truthy_js (prop payload "image_urls") = false ->
   truthy_js (prop payload "outputs") = true ->
     extractImages payload = Some (arrayOrEmpty (prop payload "outputs"))) /\
  (isArray (prop payload "images") = false ->
   truthy_js (prop payload "image_urls") = false ->
   truthy_js (prop payload "outputs") = false ->
   truthy_js (prop payload "result") = true ->
     extractImages payload = Some (arrayOrEmpty (prop payload "result"))) /\
  (isArray (prop payload "images") = false ->
   truthy_js (prop payload "image_urls") = false ->
   truthy_js (prop payload "outputs") = false ->
   truthy_js (prop payload "result") = false ->
     extractImages payload = Some []).
Proof.
  unfold extractImages. repeat split.
  - intros items urls -> Hurls. cbn [truthy_js truthy isArray andb arrayOrEmpty].
    rewrite Hurls. reflexivity.
  - intros -> ->. rewrite andb_false_r. reflexivity.
  - intros -> -> ->. rewrite andb_false_r. reflexivity.
  - intros -> -> -> ->. rewrite andb_false_r. reflexivity.
  - intros -> -> -> ->. rewrite andb_false_r. reflexivity.
Qed.

Lemma extractImages_first_present_shape_witness :
  extractImages (JObj [("images", JArr []);
                       ("image_urls", JArr [JStr "https://x/out.png"])])
    = Some [] /\
  extractImages (JObj [("images", JStr "none");
                       ("image_urls", JArr [JStr "https://x/out.png"])])
    = Some [JStr "https://x/out.png"] /\
  extractImages (JObj [("outputs", JStr "pending");
                       ("result", JArr [JStr "https://x/out.png"])])
    = Some [] /\
  extractImages (JObj [("result", JArr [JStr "https://x/out.png"])])
    = Some [JStr "https://x/out.png"] /\
  extractImages (JObj [("status", JStr "completed")]) = Some [].
Proof.
  split; [|split; [|split; [|split]]].
  - exact (proj1 (extractImages_first_present_shape
                    (JObj [("images", JArr []);
                           ("image_urls", JArr [JStr "https://x/out.png"])]))
                 [] [] eq_refl eq_refl).
  - exact (proj1 (proj2 (extractImages_first_present_shape
                    (JObj [("images", JStr "none");
                           ("image_urls", JArr [JStr "https://x/out.png"])])))
                 eq_refl eq_refl).
  - exact (proj1 (proj2 (proj2 (extractImages_first_present_shape
                    (JObj [("outputs", JStr "pending");
                           ("result", JArr [JStr "https://x/out.png"])]))))
                 eq_refl eq_refl eq_refl).
  - exact (proj1 (proj2 (proj2 (proj2 (extractImages_first_present_shape
                    (JObj [("result", JArr [JStr "https://x/out.png"])])))))
                 eq_refl eq_refl eq_refl eq_refl).
  - exact (proj2 (proj2 (proj2 (proj2 (extractImages_first_present_shape
                    (JObj [("status", JStr "completed")])))))
                 eq_refl eq_refl eq_refl eq_refl).
Defined.

Lemma firstNonEmpty_head (l : list value) (ls : list (list value)) :
  l <> [] -> firstNonEmpty (l :: ls) = l.
Proof. intros H. destruct l; [congruence|reflexivity]. Qed.

Lemma firstNonEmpty_skip (ls : list (list value)) :
  firstNonEmpty ([] :: ls) = firstNonEmpty ls.
Proof. reflexivity. Qed.

(** Where the code extracts a non-empty list, it is the list the rule of
    the specification gives. *)
Lemma extractImages_nonempty_agrees (payload : value) (l : list value) :
  extractImages payload = Some l -> l <> [] -> spec_extractArtifacts payload = l.
Proof.
  unfold extractImages, spec_extractArtifacts, shapeA.
  destruct (isArray (prop payload "images")) eqn:Harr.
  - rewrite (truthy_js_array _ Harr). cbn [andb].
    destruct (mapImageUrls (arrayOrEmpty (prop payload "images")));
      [|discriminate].
    intros [= <-] Hne. apply firstNonEmpty_head. exact Hne.
  - rewrite andb_false_r.
    assert (Ha : arrayOrEmpty (prop payload "images") = []).
    { destruct (prop payload "images") as [[]|]; simpl in *; congruence. }
    rewrite Ha. cbn [mapImageUrls filter]. rewrite firstNonEmpty_skip.
    destruct (truthy_js (prop payload "image_urls")) eqn:Hb.
    { intros [= <-] Hne. apply firstNonEmpty_head. exact Hne. }
    rewrite (not_truthy_arrayOrEmpty _ Hb), firstNonEmpty_skip.
    destruct (truthy_js (prop payload "outputs")) eqn:Hc.
    { intros [= <-] Hne. apply firstNonEmpty_head. exact Hne. }
    rewrite (not_truthy_arrayOrEmpty _ Hc), firstNonEmpty_skip.
    destruct (truthy_js (prop payload "result")) eqn:Hd.
    { intros [= <-] Hne. apply firstNonEmpty_head. exact Hne. }
    intros [= <-] Hne. congruence.
Qed.

(** ** C8 *)

Lemma isSuccessStatus_spec (st : js) :
  isSuccessStatus st = true
  <-> st = Some (JStr "completed") \/ st = Some (JStr "succeeded").
Proof.
  unfold isSuccessStatus, is_str. split.
  - destruct st as [[]|]; try discriminate.
    intros H. apply orb_true_iff in H.
    destruct H as [H|H]; apply String.eqb_eq in H; subst; auto.
  - intros [->| ->]; reflexivity.
Qed.

(** When the image list can be read, a 2xx answer settles the job as
    succeeded exactly when its status is one of the two success
    spellings. *)
Lemma success_iff_status (env : Env) (w : World) (now : Z) (j : Job) (r : Response) :
  isPolling j = true ->
  respond w (statusRequest env j) = Responded r ->
  ok r = true ->
  extractImages (payloadOf r) <> None ->
  status (theJob (probe env w now j)) = succeeded
  <-> statusOf (payloadOf r) = Some (JStr "completed")
      \/ statusOf (payloadOf r) = Some (JStr "succeeded").
Proof.
  intros Hp Hres Hok Hex.
  rewrite (probe_theJob env w now j Hp), <- isSuccessStatus_spec.
  rewrite <- (dispatches_iff_succeeded _ _ j Hp), Hres.
  unfold dispatches. rewrite Hok. cbn [andb].
  destruct (extractImages (payloadOf r)); [tauto|congruence].
Qed.

(** C8, on the code: the image list is read before the status is compared,
    and reading [images: [null]] throws.  A 2xx answer with status
    ["completed"] and such a list is not classed as a success: the probe
    ends in the [catch] block, the job stays [polling] with one more
    attempt counted and [sendCallback] is not invoked. *)
Theorem completed_with_null_image_stays_polling
  (env : Env) (rid cid uid : string) (t0 now : Z) :
  let payload := JObj [("status", JStr "completed"); ("images", JArr [JNull])] in
  let w := always (Responded (mkResponse 200 (Some payload))) in
  let j := newJob rid cid uid t0 in
  statusOf payload = Some (JStr "completed") /\
  extractImages payload = None /\
  theJob (probe env w now j) = incPollCount j /\
  status (theJob (probe env w now j)) = polling /\
  invocations (trace (probe env w now j)) = 0%nat.
Proof.
  cbn zeta. repeat split.
Qed.

(** ** C5 *)

Lemma probe_messagingCalls (env : Env) (w : World) (now : Z) (j : Job) :
  isPolling j = true ->
  messagingCalls (trace (probe env w now j))
  = if dispatches (respond w (statusRequest env j)) then
      match images (theJob (probe env w now j)) with
      | [] => []
      | img :: _ =>
          if encodable img then
            [EFetch (callback1Request env j img); EFetch (callback2Request env j)]
          else []
      end
    else [].
Proof.
  intros Hp. unfold probe. rewrite Hp. unfold checkJobStatus, tryBlock. step_run.
  fold (statusRequest env j).
  destruct (respond w (statusRequest env j)) as [|r]; [reflexivity|].
  unfold onStatusResponse, dispatches.
  destruct (ok r); [|reflexivity]. cbn [negb andb].
  destruct (extractImages (payloadOf r)) as [imgs|]; [|reflexivity].
  cbn zeta.
  destruct (isSuccessStatus (statusOf (payloadOf r))) eqn:Hst.
  - rewrite (success_stringifies _ Hst). step_run.
    match goal with
    | |- context [run w (catching _ (sendCallback env Done)) ?M] =>
        destruct (run_caught_sendCallback env w (requestId j) M)
          as (Hjob & _ & Hcalls)
    end.
    cbn zeta in Hjob, Hcalls.
    cbn [theJob trace images setCompletedAt markSucceeded] in Hjob, Hcalls.
    rewrite Hcalls, Hjob.
    destruct imgs as [|img rest]; [reflexivity|].
    destruct (encodable img) eqn:Henc;
      cbn [images setCompletedAt markSucceeded incPollCount];
      rewrite Henc; reflexivity.
  - destruct (stringifies_js (statusOf (payloadOf r))); step_run; [|reflexivity].
    destruct (isFailureStatus (statusOf (payloadOf r))); [reflexivity|].
    rewrite run_caught_stillProcessing, run_stillProcessing. step_run.
    destruct (MAX_POLL_ATTEMPTS <=? S (pollCount j))%nat; reflexivity.
Qed.

Lemma probe_no_results_no_call (env : Env) (w : World) (now : Z) (j : Job) :
  images (theJob (probe env w now j)) = [] ->
  messagingCalls (trace (probe env w now j)) = [].
Proof.
  destruct (isPolling j) eqn:Hp.
  - rewrite (probe_messagingCalls env w now j Hp). intros ->.
    destruct (dispatches _); reflexivity.
  - rewrite (probe_not_polling env w now j Hp). reflexivity.
Qed.

(** C5: the dispatcher calls the messaging platform only for a job that has
    results.  Invoked on a job with no result it returns without an
    outbound call; a probe answered with a success that carries no image
    leaves the job [succeeded] with empty results and calls neither
    endpoint. *)
Theorem no_results_no_outbound_call (env : Env) (w : World) :
  (forall m : Machine,
     images (theJob m) = [] ->
     messagingCalls (trace (run w (sendCallback env Done) m))
     = messagingCalls (trace m)) /\
  (forall (now : Z) (j : Job),
     messagingCalls (trace (probe env w now j)) <> [] ->
     images (theJob (probe env w now j)) <> []) /\
  (forall (now : Z) (j : Job) (r : Response),
     isPolling j = true ->
     respond w (statusRequest env j) = Responded r ->
     ok r = true ->
     isSuccessStatus (statusOf (payloadOf r)) = true ->
     extractImages (payloadOf r) = Some [] ->
     status (theJob (probe env w now j)) = succeeded /\
     images (theJob (probe env w now j)) = [] /\
     messagingCalls (trace (probe env w now j)) = []).
Proof.
  split; [|split].
  - intros m Himg. rewrite (run_sendCallback_empty env w m Himg). step_run.
    rewrite messagingCalls_app. cbn. apply app_nil_r.
  - intros now j Hcalls Himg. apply Hcalls.
    apply probe_no_results_no_call. exact Himg.
  - intros now j r Hp Hres Hok Hst Hex.
    assert (Hj : theJob (probe env w now j)
                 = setCompletedAt (now + latency w (statusRequest env j))
                     (markSucceeded [] j)).
    { rewrite (probe_theJob env w now j Hp), Hres. unfold jobAfter.
      rewrite Hok, Hex. cbn zeta. rewrite (success_stringifies _ Hst), Hst.
      reflexivity. }
    split; [rewrite Hj; reflexivity|].
    split; [rewrite Hj; reflexivity|].
    apply probe_no_results_no_call. rewrite Hj. reflexivity.
Qed.

Lemma no_results_no_outbound_call_witness :
  let empty := always (Responded (mkResponse 200
                 (Some (JObj [("status", JStr "succeeded"); ("images", JArr [])])))) in
  let full := always (Responded (mkResponse 200
                (Some (JObj [("status", JStr "succeeded");
                             ("images", JArr [JStr "https://x/out.png"])])))) in
  let job := newJob "job-1" "c-1" "u-1" 0 in
  messagingCalls (trace (run empty (sendCallback noEnv Done) (mkMachine 0 job [])))
  = [] /\
  images (theJob (probe noEnv full 5000 job)) <> [] /\
  (status (theJob (probe noEnv empty 5000 job)) = succeeded /\
   images (theJob (probe noEnv empty 5000 job)) = [] /\
   messagingCalls (trace (probe noEnv empty 5000 job)) = []).
Proof.
  cbn zeta. split; [|split].
  - exact (proj1 (no_results_no_outbound_call noEnv
             (always (Responded (mkResponse 200
                (Some (JObj [("status", JStr "succeeded"); ("images", JArr [])]))))))
             (mkMachine 0 (newJob "job-1" "c-1" "u-1" 0) []) eq_refl).
  - apply (proj1 (proj2 (no_results_no_outbound_call noEnv
             (always (Responded (mkResponse 200
                (Some (JObj [("status", JStr "succeeded");
                             ("images", JArr [JStr "https://x/out.png"])]))))))) 
             5000%Z (newJob "job-1" "c-1" "u-1" 0)).
    vm_compute. discriminate.
  - apply (proj2 (proj2 (no_results_no_outbound_call noEnv
             (always (Responded (mkResponse 200
                (Some (JObj [("status", JStr "succeeded"); ("images", JArr [])])))))))
           5000%Z (newJob "job-1" "c-1" "u-1" 0)
           (mkResponse 200
              (Some (JObj [("status", JStr "succeeded"); ("images", JArr [])]))));
      reflexivity.
Defined.

(** ** C6 *)

Lemma logCallback1_error (res : FetchResult) :
  isErrorLog (logCallback1 res) = failedCall res.
Proof. destruct res as [|r]; simpl; [|destruct (ok r)]; reflexivity. Qed.

Lemma logCallback2_error (res : FetchResult) :
  isErrorLog (logCallback2 res) = failedCall res.
Proof. destruct res as [|r]; simpl; [|destruct (ok r)]; reflexivity. Qed.

(** C6, as stated, fails: the first result is put into a template literal
    (line 142) and through [encodeURIComponent] (line 150) before the first
    [try]; for a result that cannot be converted the dispatch throws there
    and no call is made.  The job below is the one [checkJobStatus] hands
    over when the success answer carries the object [{toString: null}] as
    its first [image_urls] entry. *)
Lemma unencodable_result_makes_no_call :
  ~ (forall (env : Env) (w : World) (m : Machine) (img : value) (rest : list value),
       images (theJob m) = img :: rest ->
       messagingCalls (trace (run w (sendCallback env Done) m))
       = messagingCalls (trace m)
         ++ [EFetch (callback1Request env (theJob m) img);
             EFetch (callback2Request env (theJob m))]).
Proof.
  intros H.
  specialize (H noEnv (always NetworkError)
                (mkMachine 5200
                   (mkJob "job-1" "c-1" "u-1" succeeded 0
                          [JObj [("toString", JNull)]] 0 (Some 5200%Z) None) [])
                (JObj [("toString", JNull)]) [] eq_refl).
  vm_compute in H. discriminate H.
Qed.

(** C6, amended: a dispatch for a job whose first result can be converted
    to a string and URI-encoded (every well-formed URL string can) makes
    exactly two calls to the messaging platform, whatever their outcome:
    the custom-field call with the first result, then, after its answer
    and a sleep of [CALLBACK_2_DELAY_MS], the flow trigger.  Each answer
    produces one log line, an error line exactly when the call failed
    (network error or non-2xx); no call is repeated and the job record is
    not touched. *)
Theorem sendCallback_two_calls_in_order
  (env : Env) (w : World) (m : Machine) (img : value) (rest : list value) :
  images (theJob m) = img :: rest ->
  encodable img = true ->
  let c1 := callback1Request env (theJob m) img in
  let c2 := callback2Request env (theJob m) in
  let m' := run w (sendCallback env Done) m in
  (exists log1 log2,
     trace m' = trace m ++
       [EEnterSendCallback (requestId (theJob m));
        ELog (LStartingCallbacks (requestId (theJob m)));
        EFetch c1; log1;
        ELog LWaitingBeforeCallback2; ESleep CALLBACK_2_DELAY_MS;
        EFetch c2; log2;
        ELog (LCallbacksCompleted (requestId (theJob m)))] /\
     isOutboundMessaging log1 = false /\
     isOutboundMessaging log2 = false /\
     isErrorLog log1 = failedCall (respond w c1) /\
     isErrorLog log2 = failedCall (respond w c2)) /\
  messagingCalls (trace m') = messagingCalls (trace m) ++ [EFetch c1; EFetch c2] /\
  clock m' = (clock m + latency w c1 + CALLBACK_2_DELAY_MS + latency w c2)%Z /\
  theJob m' = theJob m /\
  throws w (sendCallback env Done) m = false.
Proof.
  intros Himg Henc c1 c2 m'. subst m'.
  rewrite (run_sendCallback_nonempty env w m img rest Himg Henc).
  fold c1 c2. step_run. split; [|split; [|split; [|split]]].
  - exists (logCallback1 (respond w c1)), (logCallback2 (respond w c2)).
    split; [reflexivity|].
    split; [apply messaging_logCallback1|].
    split; [apply messaging_logCallback2|].
    split; [apply logCallback1_error | apply logCallback2_error].
  - rewrite messagingCalls_app. f_equal.
    unfold messagingCalls. cbn [filter isOutboundMessaging].
    rewrite messaging_logCallback1, messaging_logCallback2. reflexivity.
  - reflexivity.
  - reflexivity.
  - unfold sendCallback. cbn [throws theJob clock trace]. rewrite Himg, Henc.
    reflexivity.
Qed.

Lemma sendCallback_two_calls_in_order_witness :
  let env := mkEnv None None None None (Some "token-1") None None "" in
  let w := mkWorld (fun r => match r with
                             | CustomFieldReq _ _ _ _ => NetworkError
                             | _ => Responded (mkResponse 500 None)
                             end)
                   (fun _ => 200%Z) in
  let job := mkJob "job-1" "c-1" "u-1" succeeded 1
                   [JStr "https://x/out.png"] 0 (Some 5200%Z) None in
  let m' := run w (sendCallback env Done) (mkMachine 5200 job []) in
  messagingCalls (trace m')
  = [EFetch (CustomFieldReq "c-1" "871218" "token-1" (JStr "https://x/out.png"));
     EFetch (TriggerFlowReq "c-1" "1760629479392" "token-1")] /\
  clock m' = 20600%Z /\
  theJob m' = job.
Proof.
  cbn zeta.
  destruct (sendCallback_two_calls_in_order
           (mkEnv None None None None (Some "token-1") None None "")
           (mkWorld (fun r => match r with
                              | CustomFieldReq _ _ _ _ => NetworkError
                              | _ => Responded (mkResponse 500 None)
                              end)
                    (fun _ => 200%Z))
           (mkMachine 5200
              (mkJob "job-1" "c-1" "u-1" succeeded 1
                     [JStr "https://x/out.png"] 0 (Some 5200%Z) None) [])
           (JStr "https://x/out.png") [] eq_refl eq_refl)
    as (_ & Hcalls & Hclock & Hjob & _).
  split; [exact Hcalls|]. split; [exact Hclock | exact Hjob].
Defined.

(** In the event loop, a dispatch gives up control three times: with only
    callback 1 issued, then asleep for [CALLBACK_2_DELAY_MS] once callback 1
    has been answered, then with callback 2 issued.  Callback 2 is therefore
    issued after the answer to callback 1 and after the delay, whatever that
    answer is. *)
Lemma sendCallback_awaits_between_calls
  (env : Env) (j : Job) (img : value) (rest : list value) (now : Z) (t : Trace) :
  images j = img :: rest ->
  encodable img = true ->
  exists k1,
    advance now (sendCallback env Done) j t
    = (Some (TFetch (callback1Request env j img) k1), j,
       t ++ [EEnterSendCallback (requestId j);
             ELog (LStartingCallbacks (requestId j));
             EFetch (callback1Request env j img)]) /\
    forall res1 now1 j1 t1, exists k2,
      advance now1 (k1 res1) j1 t1
      = (Some (TSleep CALLBACK_2_DELAY_MS k2), j1,
         t1 ++ [logCallback1 res1; ELog LWaitingBeforeCallback2;
                ESleep CALLBACK_2_DELAY_MS]) /\
      forall now2 j2 t2, exists k3,
        advance now2 k2 j2 t2
        = (Some (TFetch (callback2Request env j2) k3), j2,
           t2 ++ [EFetch (callback2Request env j2)]) /\
        forall res2 now3 j3 t3,
          advance now3 (k3 res2) j3 t3
          = (None, j3,
             t3 ++ [logCallback2 res2; ELog (LCallbacksCompleted (requestId j2))]).
Proof.
  intros Himg Henc. unfold sendCallback. cbn [advance]. rewrite Himg, Henc.
  cbn [advance negb].
  eexists. split; [repeat rewrite <- app_assoc; reflexivity|].
  intros res1 now1 j1 t1. cbn [advance].
  eexists. split; [repeat rewrite <- app_assoc; reflexivity|].
  intros now2 j2 t2. cbn [advance].
  eexists. split; [reflexivity|].
  intros res2 now3 j3 t3. cbn [advance].
  repeat rewrite <- app_assoc. reflexivity.
Qed.

(** ** The store *)

Lemma filter_filter {A : Type} (p q : A -> bool) (l : list A) :
  filter p (filter q l) = filter (fun x => q x && p x) l.
Proof.
  induction l as [|x l IH]; [reflexivity|]. cbn [filter].
  destruct (q x); cbn [filter andb]; [destruct (p x)|]; rewrite IH; reflexivity.
Qed.

Lemma filter_all {A : Type} (l : list A) : filter (fun _ => true) l = l.
Proof. induction l as [|x l IH]; [reflexivity|]. cbn. rewrite IH. reflexivity. Qed.

(** The loop of lines 246-251 deletes the keys of the expired entries. *)
Lemma cleanUp_loop (now : Z) (visited acc : Store) :
  fold_left
    (fun acc e => if expired now (snd e) then deleteJob (fst e) acc else acc)
    visited acc
  = filter (fun e => negb (existsb (fun e' => expired now (snd e')
                                              && (fst e =? fst e')) visited))
           acc.
Proof.
  revert acc. induction visited as [|x visited IH]; intros acc.
  - cbn. symmetry. apply filter_all.
  - cbn [fold_left]. rewrite IH. cbn [existsb].
    destruct (expired now (snd x)).
    + unfold deleteJob. rewrite filter_filter. apply filter_ext.
      intros e. cbn [andb]. rewrite negb_orb. reflexivity.
    + reflexivity.
Qed.

Lemma keys_determine_entries (l : Store) (e e' : string * Job) :
  storeOk l -> In e l -> In e' l -> fst e = fst e' -> e = e'.
Proof.
  unfold storeOk. induction l as [|x l IH]; [contradiction|].
  cbn [map]. intros Hnd He He' Hk. inversion Hnd as [|k ks Hnotin Hnd']; subst.
  destruct He as [->|He], He' as [->|He'].
  - reflexivity.
  - exfalso. apply Hnotin. rewrite Hk. apply in_map. exact He'.
  - exfalso. apply Hnotin. rewrite <- Hk. apply in_map. exact He.
  - apply IH; assumption.
Qed.

Lemma cleanUp_filter (now : Z) (l : Store) :
  storeOk l ->
  cleanUp now l = filter (fun e => negb (expired now (snd e))) l.
Proof.
  intros Hok. unfold cleanUp. rewrite cleanUp_loop.
  apply filter_ext_in. intros e He. f_equal.
  destruct (expired now (snd e)) eqn:Hexp.
  - apply existsb_exists. exists e. split; [exact He|].
    rewrite Hexp, String.eqb_refl. reflexivity.
  - destruct (existsb _ l) eqn:Hex; [|reflexivity].
    apply existsb_exists in Hex. destruct Hex as (e' & He' & Hb).
    apply andb_true_iff in Hb. destruct Hb as [Hexp' Hk].
    apply String.eqb_eq in Hk.
    rewrite (keys_determine_entries l e e' Hok He He' Hk) in Hexp. congruence.
Qed.

Lemma getJob_absent (rid : string) (l : Store) :
  ~ In rid (map fst l) -> getJob rid l = None.
Proof.
  induction l as [|[k j] l IH]; [reflexivity|]. cbn [map fst In getJob].
  intros Hnotin. destruct (k =? rid) eqn:Hk.
  - apply String.eqb_eq in Hk. tauto.
  - apply IH. tauto.
Qed.

Lemma getJob_filter_absent (rid : string) (p : string * Job -> bool) (l : Store) :
  getJob rid l = None -> getJob rid (filter p l) = None.
Proof.
  induction l as [|[k j] l IH]; [reflexivity|]. cbn [getJob filter].
  destruct (k =? rid) eqn:Hk; [discriminate|]. intros Hn.
  destruct (p (k, j)); [cbn [getJob]; rewrite Hk|]; apply IH; exact Hn.
Qed.

Lemma getJob_retained (now : Z) (rid : string) (l : Store) :
  storeOk l ->
  getJob rid (filter (fun e => negb (expired now (snd e))) l)
  = match getJob rid l with
    | Some j => if expired now j then None else Some j
    | None => None
    end.
Proof.
  unfold storeOk. induction l as [|[k j] l IH]; [reflexivity|].
  cbn [map fst]. intros Hnd. inversion Hnd as [|k' ks Hnotin Hnd']; subst.
  cbn [filter getJob snd]. destruct (k =? rid) eqn:Hk.
  - apply String.eqb_eq in Hk. subst k.
    destruct (expired now j); cbn [negb getJob].
    + apply getJob_filter_absent, getJob_absent. exact Hnotin.
    + rewrite String.eqb_refl. reflexivity.
  - destruct (expired now j); cbn [negb getJob]; [|rewrite Hk]; apply IH; exact Hnd'.
Qed.

Lemma getAllJobs_filter (p : Job -> bool) (l : Store) :
  getAllJobs (filter (fun e => p (snd e)) l) = filter p (getAllJobs l).
Proof.
  unfold getAllJobs. induction l as [|[k j] l IH]; [reflexivity|].
  cbn [filter map snd]. destruct (p j); cbn [map snd]; rewrite IH; reflexivity.
Qed.

(** ** C7 *)

(** C7: the clean-up of a tick removes exactly the jobs whose [completedAt]
    is set and lies more than the retention window before the time of the
    clean-up.  A job settled exactly one window ago stays, a job settled
    earlier than that is gone from [getJob] and [getAllJobs], and a job
    that has no [completedAt] is never removed. *)
Theorem cleanUp_removes_exactly_expired (now : Z) (l : Store) :
  storeOk l ->
  (forall rid,
     getJob rid (cleanUp now l)
     = match getJob rid l with
       | Some j => if expired now j then None else Some j
       | None => None
       end) /\
  getAllJobs (cleanUp now l)
  = filter (fun j => negb (expired now j)) (getAllJobs l) /\
  (forall j, expired now j = true
             <-> exists t, completedAt j = Some t /\ (now - t > RETENTION_MS)%Z) /\
  (forall j, completedAt j = Some (now - RETENTION_MS)%Z -> expired now j = false) /\
  (forall j, completedAt j = None -> expired now j = false).
Proof.
  intros Hok. rewrite (cleanUp_filter now l Hok).
  split; [|split; [|split; [|split]]].
  - intros rid. apply getJob_retained. exact Hok.
  - apply (getAllJobs_filter (fun j => negb (expired now j))).
  - intros j. unfold expired. destruct (completedAt j) as [t|].
    + rewrite Z.ltb_lt. split.
      * intros H. exists t. split; [reflexivity|lia].
      * intros (t' & [= <-] & H). lia.
    + split; [discriminate|]. intros (t & H & _). discriminate.
  - intros j Hc. unfold expired. rewrite Hc. apply Z.ltb_irrefl.
  - intros j Hc. unfold expired. rewrite Hc. reflexivity.
Qed.

Lemma cleanUp_removes_exactly_expired_witness :
  let now := 10000000%Z in
  let atBoundary := mkJob "a" "c-1" "u-1" succeeded 1 [JStr "https://x/a.png"]
                          0 (Some 6400000%Z) None in
  let pastBoundary := mkJob "b" "c-2" "u-2" failed 30 []
                            0 (Some 6399999%Z) (Some (JStr TIMEOUT_MESSAGE)) in
  let pending := newJob "c" "c-3" "u-3" 0 in
  let l := [("a", atBoundary); ("b", pastBoundary); ("c", pending)] in
  getJob "a" (cleanUp now l) = Some atBoundary /\
  getJob "b" (cleanUp now l) = None /\
  getJob "c" (cleanUp now l) = Some pending /\
  getAllJobs (cleanUp now l) = [atBoundary; pending].
Proof.
  cbn zeta.
  assert (Hok : storeOk [("a", mkJob "a" "c-1" "u-1" succeeded 1
                                  [JStr "https://x/a.png"] 0 (Some 6400000%Z) None);
                         ("b", mkJob "b" "c-2" "u-2" failed 30 []
                                  0 (Some 6399999%Z) (Some (JStr TIMEOUT_MESSAGE)));
                         ("c", newJob "c" "c-3" "u-3" 0)]).
  { unfold storeOk. cbn [map fst].
    apply NoDup_cons; [intros [H|[H|[]]]; discriminate|].
    apply NoDup_cons; [intros [H|[]]; discriminate|].
    apply NoDup_cons; [intros []|apply NoDup_nil]. }
  destruct (cleanUp_removes_exactly_expired 10000000 _ Hok) as (Hget & Hall & _).
  split; [exact (Hget "a")|]. split; [exact (Hget "b")|].
  split; [exact (Hget "c") | exact Hall].
Defined.

(** A tick that finds no pending job returns before the clean-up. *)
Remark tick_without_pending_job (env : Env) (w : World) (now : Z) (l : Store) :
  filter isPolling (getAllJobs l) = [] -> pollAllJobs env w now l = (l, []).
Proof. intros H. unfold pollAllJobs. rewrite H. reflexivity. Qed.

(** ** C9 *)

Lemma getJob_setJob_same (rid : string) (job : Job) (l : Store) :
  getJob rid (setJob rid job l) = Some job.
Proof.
  induction l as [|[k j] l IH]; cbn [setJob getJob].
  - rewrite String.eqb_refl. reflexivity.
  - destruct (k =? rid) eqn:Hk; cbn [getJob]; rewrite Hk; [reflexivity|exact IH].
Qed.

Lemma getJob_setJob_other (rid other : string) (job : Job) (l : Store) :
  other <> rid -> getJob other (setJob rid job l) = getJob other l.
Proof.
  intros Hne. induction l as [|[k j] l IH]; cbn [setJob getJob].
  - destruct (rid =? other) eqn:Hk; [|reflexivity].
    apply String.eqb_eq in Hk. congruence.
  - destruct (k =? rid) eqn:Hk; cbn [getJob].
    + apply String.eqb_eq in Hk. subst k.
      destruct (rid =? other) eqn:Hk; [|reflexivity].
      apply String.eqb_eq in Hk. congruence.
    + rewrite IH. reflexivity.
Qed.

Lemma setJob_present_length (rid : string) (job old : Job) (l : Store) :
  getJob rid l = Some old -> length (setJob rid job l) = length l.
Proof.
  induction l as [|[k j] l IH]; cbn [setJob getJob]; [discriminate|].
  destruct (k =? rid); [reflexivity|]. intros H. cbn [length]. rewrite IH; auto.
Qed.

Lemma setJob_keys (rid : string) (job old : Job) (l : Store) :
  getJob rid l = Some old -> map fst (setJob rid job l) = map fst l.
Proof.
  induction l as [|[k j] l IH]; cbn [setJob getJob]; [discriminate|].
  destruct (k =? rid); [reflexivity|]. intros H. cbn [map fst]. rewrite IH; auto.
Qed.

Lemma addJob_jobs (rid cid uid : string) (now : Z) (t : Tracker) :
  jobs (fst (addJob rid cid uid now t))
  = setJob rid (newJob rid cid uid now) (jobs t).
Proof.
  unfold addJob, startPolling. cbn [fst jobs pollInterval].
  destruct (pollInterval t); reflexivity.
Qed.

(** C9: registering an id that the store already holds replaces the record
    under that id by a fresh job ([polling], no attempt counted, no result,
    no [completedAt], no error), whatever state the previous record was in.
    The store keeps one entry per id, in the same place, and the other jobs
    are as they were; nothing is rejected. *)
Theorem addJob_overwrites
  (t : Tracker) (rid cid uid : string) (now : Z) (old : Job) :
  getJob rid (jobs t) = Some old ->
  let t' := fst (addJob rid cid uid now t) in
  let job := snd (addJob rid cid uid now t) in
  getJob rid (jobs t') = Some job /\
  (requestId job = rid /\ contactId job = cid /\ userId job = uid) /\
  status job = polling /\
  pollCount job = 0%nat /\
  images job = [] /\
  completedAt job = None /\
  error job = None /\
  createdAt job = now /\
  map fst (jobs t') = map fst (jobs t) /\
  (forall other, other <> rid -> getJob other (jobs t') = getJob other (jobs t)).
Proof.
  intros Hold t' job. subst t' job. rewrite addJob_jobs. cbn [snd addJob].
  split; [apply getJob_setJob_same|].
  split; [repeat split|].
  repeat (split; [reflexivity|]).
  split; [apply (setJob_keys rid _ old); exact Hold|].
  intros other Hne. apply getJob_setJob_other. exact Hne.
Qed.

Lemma addJob_overwrites_witness :
  let settled := mkJob "job-1" "c-1" "u-1" succeeded 3
                       [JStr "https://x/out.png"] 0 (Some 65000%Z) None in
  let t := mkTracker [("job-0", newJob "job-0" "c-0" "u-0" 0); ("job-1", settled)]
                     true [] in
  let t' := fst (addJob "job-1" "c-9" "u-9" 70000 t) in
  getJob "job-1" (jobs t') = Some (newJob "job-1" "c-9" "u-9" 70000) /\
  map fst (jobs t') = ["job-0"; "job-1"].
Proof.
  cbn zeta.
  destruct (addJob_overwrites
              (mkTracker [("job-0", newJob "job-0" "c-0" "u-0" 0);
                          ("job-1", mkJob "job-1" "c-1" "u-1" succeeded 3
                                          [JStr "https://x/out.png"] 0
                                          (Some 65000%Z) None)]
                         true [])
              "job-1" "c-9" "u-9" 70000
              (mkJob "job-1" "c-1" "u-1" succeeded 3
                     [JStr "https://x/out.png"] 0 (Some 65000%Z) None)
              eq_refl) as (Hget & _ & _ & _ & _ & _ & _ & _ & Hkeys & _).
  split; [exact Hget | exact Hkeys].
Defined.

(** ** C10 *)

Lemma incPollCount_frame (j : Job) : onlyPollCountIncremented j (incPollCount j).
Proof. unfold onlyPollCountIncremented. repeat split. Qed.

(** C10, as stated, fails for a malformed body: [response.json()] does not
    throw into the [catch] block, the payload reads as [null], and on a 2xx
    response the probe takes the "still processing" branch, which fails the
    job when the count reaches the ceiling. *)
Lemma malformed_2xx_body_at_ceiling_fails_job :
  ~ (forall (env : Env) (w : World) (now : Z) (j : Job),
       isPolling j = true ->
       transientFailure (respond w (statusRequest env j)) ->
       onlyPollCountIncremented j (theJob (probe env w now j))).
Proof.
  intros H.
  specialize (H noEnv (always (Responded (mkResponse 200 None))) 0%Z
                (mkJob "job-1" "c-1" "u-1" polling 29 [] 0 None None)
                eq_refl (or_intror eq_refl)).
  destruct H as (_ & Hstatus & _).
  vm_compute in Hstatus. discriminate Hstatus.
Qed.

(** C10, amended: on a thrown fetch error or a non-2xx response (whatever
    its body) the probe changes [pollCount] only, by one.  A malformed body
    on a 2xx response is read as a [null] payload and handled as "still
    processing": it changes [pollCount] only while the new count is below
    [MAX_POLL_ATTEMPTS], and fails the job with the timeout message when the
    count reaches it. *)
Theorem transient_failure_frame (env : Env) (w : World) (now : Z) (j : Job) :
  isPolling j = true ->
  let res := respond w (statusRequest env j) in
  let j' := theJob (probe env w now j) in
  (failedCall res = true -> onlyPollCountIncremented j j') /\
  (forall r, res = Responded r -> ok r = true -> json r = None ->
     ((S (pollCount j) < MAX_POLL_ATTEMPTS)%nat -> onlyPollCountIncremented j j') /\
     ((MAX_POLL_ATTEMPTS <= S (pollCount j))%nat ->
        status j' = failed /\
        error j' = Some (JStr TIMEOUT_MESSAGE) /\
        completedAt j' = Some (now + latency w (statusRequest env j))%Z /\
        pollCount j' = S (pollCount j))).
Proof.
  intros Hp res j'. subst res j'. rewrite (probe_theJob env w now j Hp).
  split.
  - unfold failedCall, jobAfter.
    destruct (respond w (statusRequest env j)) as [|r].
    + intros _. apply incPollCount_frame.
    + intros Hok. apply negb_true_iff in Hok. rewrite Hok.
      apply incPollCount_frame.
  - intros r -> Hok Hjson. unfold jobAfter, payloadOf. rewrite Hok, Hjson.
    cbn [extractImages prop truthy_js andb isArray statusOf or_else
         isSuccessStatus isFailureStatus is_str orb stringifies_js negb].
    split.
    + intros Hlt. apply Nat.leb_gt in Hlt. rewrite Hlt. apply incPollCount_frame.
    + intros Hge. apply Nat.leb_le in Hge. rewrite Hge. repeat split.
Qed.

Lemma transient_failure_frame_witness :
  let early := mkJob "job-1" "c-1" "u-1" polling 3 [] 0 None None in
  let late := mkJob "job-1" "c-1" "u-1" polling 29 [] 0 None None in
  onlyPollCountIncremented late
    (theJob (probe noEnv (always NetworkError) 5000 late)) /\
  onlyPollCountIncremented late
    (theJob (probe noEnv (always (Responded (mkResponse 502 None))) 5000 late)) /\
  onlyPollCountIncremented early
    (theJob (probe noEnv (always (Responded (mkResponse 200 None))) 5000 early)) /\
  status (theJob (probe noEnv (always (Responded (mkResponse 200 None))) 5000 late))
  = failed.
Proof.
  cbn zeta. split; [|split; [|split]].
  - exact (proj1 (transient_failure_frame noEnv (always NetworkError) 5000
                    (mkJob "job-1" "c-1" "u-1" polling 29 [] 0 None None)
                    eq_refl) eq_refl).
  - exact (proj1 (transient_failure_frame noEnv
                    (always (Responded (mkResponse 502 None))) 5000
                    (mkJob "job-1" "c-1" "u-1" polling 29 [] 0 None None)
                    eq_refl) eq_refl).
  - refine (proj1 (proj2 (transient_failure_frame noEnv
                    (always (Responded (mkResponse 200 None))) 5000
                    (mkJob "job-1" "c-1" "u-1" polling 3 [] 0 None None)
                    eq_refl) (mkResponse 200 None) eq_refl eq_refl eq_refl) _).
    unfold MAX_POLL_ATTEMPTS. cbn [pollCount]. lia.
  - refine (proj1 (proj2 (proj2 (transient_failure_frame noEnv
                    (always (Responded (mkResponse 200 None))) 5000
                    (mkJob "job-1" "c-1" "u-1" polling 29 [] 0 None None)
                    eq_refl) (mkResponse 200 None) eq_refl eq_refl eq_refl) _)).
    unfold MAX_POLL_ATTEMPTS. cbn [pollCount]. lia.
Defined.

(** ** The event loop agrees with [run] on a probe that is alone in flight *)

Lemma advance_caught_sendCallback (env : Env) (rid : string) (now : Z)
  (j : Job) (t : Trace) :
  snd (fst (advance now (catching (catchBlock rid) (sendCallback env Done)) j t))
  = match images j with
    | [] => j
    | img :: _ => if encodable img then j else incPollCount j
    end.
Proof.
  unfold sendCallback, catchBlock. cbn [advance catching].
  destruct (images j) as [|img rest]; [reflexivity|].
  destruct (encodable img); reflexivity.
Qed.

Lemma advance_onStatusResponse
  (env : Env) (rid : string) (r : Response) (now : Z) (j : Job) (t : Trace) :
  snd (fst (advance now (catching (catchBlock rid) (onStatusResponse env rid r)) j t))
  = jobAfter now (Responded r) j.
Proof.
  unfold onStatusResponse, jobAfter.
  destruct (ok r); [|reflexivity]. cbn [negb].
  destruct (extractImages (payloadOf r)) as [imgs|]; [|reflexivity].
  cbn zeta.
  destruct (stringifies_js (statusOf (payloadOf r))); cbn [negb]; [|reflexivity].
  cbn [advance catching].
  destruct (isSuccessStatus (statusOf (payloadOf r))).
  - cbn [advance catching]. rewrite advance_caught_sendCallback. reflexivity.
  - destruct (isFailureStatus (statusOf (payloadOf r))); [reflexivity|].
    unfold stillProcessing. cbn [advance catching].
    change (pollCount (incPollCount j)) with (S (pollCount j)).
    destruct (MAX_POLL_ATTEMPTS <=? S (pollCount j))%nat; reflexivity.
Qed.

Lemma async_single_probe
  (env : Env) (j : Job) (start settle : Z) (res : FetchResult) :
  isPolling j = true ->
  exists l,
    async_run env [StartProbe start; FetchSettles 0 settle res] (mkLoop j [] [])
    = Some l /\
    shared l = jobAfter settle res j.
Proof.
  intros Hp. cbn [async_run async_step shared suspended seen].
  rewrite Hp. unfold checkJobStatus, tryBlock. cbn [advance catching app nth_error].
  cbn [async_step shared suspended seen nth_error].
  eexists. split; [reflexivity|].
  unfold resume. cbn [shared suspended seen removeNth app].
  destruct res as [|r].
  - reflexivity.
  - pose proof (advance_onStatusResponse env (requestId j) r settle j
                  [EFetch (StatusReq (buildAuthHeaders env) (requestId j))]) as H.
    destruct (advance settle
                (catching (catchBlock (requestId j))
                   (onStatusResponse env (requestId j) r)) j _)
      as [[[task|] j'] tr]; cbn [fst snd] in H; cbn [shared]; exact H.
Qed.

(** ** The store keeps one entry per id *)

Lemma setJob_keys_in (rid k : string) (job : Job) (l : Store) :
  In k (map fst (setJob rid job l)) -> k = rid \/ In k (map fst l).
Proof.
  induction l as [|[k0 j0] l IH]; cbn [setJob map fst In].
  - intros [H|[]]. left. congruence.
  - destruct (k0 =? rid); cbn [map fst In]; [tauto|].
    intros [H|H]; [tauto|]. destruct (IH H); tauto.
Qed.

Lemma storeOk_setJob (rid : string) (job : Job) (l : Store) :
  storeOk l -> storeOk (setJob rid job l).
Proof.
  unfold storeOk. induction l as [|[k0 j0] l IH]; cbn [setJob map fst].
  - intros _. apply NoDup_cons; [intros []|apply NoDup_nil].
  - intros Hnd. inversion Hnd as [|k ks Hnotin Hnd']; subst.
    destruct (k0 =? rid) eqn:Hk; cbn [map fst]; [exact Hnd|].
    apply NoDup_cons; [|apply IH; exact Hnd'].
    intros Hin. apply setJob_keys_in in Hin. destruct Hin as [->|Hin].
    + rewrite String.eqb_refl in Hk. discriminate.
    + contradiction.
Qed.

Lemma storeOk_filter (p : string * Job -> bool) (l : Store) :
  storeOk l -> storeOk (filter p l).
Proof.
  unfold storeOk. induction l as [|e l IH]; cbn [filter map]; [auto|].
  intros Hnd. inversion Hnd as [|k ks Hnotin Hnd']; subst.
  destruct (p e); cbn [map]; [|apply IH; exact Hnd'].
  apply NoDup_cons; [|apply IH; exact Hnd'].
  intros Hin. apply Hnotin. apply in_map_iff in Hin.
  destruct Hin as (e' & Hk & He'). apply filter_In in He'.
  rewrite <- Hk. apply in_map. tauto.
Qed.

Lemma storeOk_cleanUp (now : Z) (l : Store) : storeOk l -> storeOk (cleanUp now l).
Proof.
  intros Hok. rewrite (cleanUp_filter now l Hok). apply storeOk_filter. exact Hok.
Qed.

Lemma storeOk_addJob (rid cid uid : string) (now : Z) (t : Tracker) :
  storeOk (jobs t) -> storeOk (jobs (fst (addJob rid cid uid now t))).
Proof. intros Hok. rewrite addJob_jobs. apply storeOk_setJob. exact Hok. Qed.

Lemma storeOk_pollAllJobs (env : Env) (w : World) (now : Z) (l : Store) :
  storeOk l -> storeOk (fst (pollAllJobs env w now l)).
Proof.
  intros Hok. unfold pollAllJobs.
  destruct (filter isPolling (getAllJobs l)); [exact Hok|].
  cbn [fst]. apply storeOk_cleanUp. unfold storeOk.
  rewrite !map_map. cbn [fst]. exact Hok.
Qed.

(** * Further properties of the code *)

(** ** The life of one job *)

Lemma jobAfter_cases (at_ : Z) (res : FetchResult) (j : Job) :
  jobAfter at_ res j = incPollCount j \/
  (exists imgs, jobAfter at_ res j = setCompletedAt at_ (markSucceeded imgs j)) \/
  (exists imgs,
     jobAfter at_ res j = incPollCount (setCompletedAt at_ (markSucceeded imgs j))) \/
  (exists e, jobAfter at_ res j = setCompletedAt at_ (markFailed e j)) \/
  jobAfter at_ res j
  = setCompletedAt at_ (markFailed (JStr TIMEOUT_MESSAGE) (incPollCount j)).
Proof.
  unfold jobAfter. destruct res as [|r]; [auto|].
  destruct (ok r); [|auto].
  destruct (extractImages (payloadOf r)) as [imgs|]; [|auto].
  cbn zeta.
  destruct (stringifies_js (statusOf (payloadOf r))); cbn [negb]; [|auto].
  destruct (isSuccessStatus (statusOf (payloadOf r))).
  { destruct imgs as [|img rest]; [|destruct (encodable img)]; eauto 6. }
  destruct (isFailureStatus (statusOf (payloadOf r))); [eauto 6|].
  destruct (MAX_POLL_ATTEMPTS <=? S (pollCount j))%nat; auto 6.
Qed.

(** The three shapes a job record can have. *)
Lemma reachable_shape (env : Env) (j : Job) :
  reachable env j ->
  (status j = polling /\ completedAt j = None /\ error j = None /\ images j = []) \/
  (status j = succeeded /\ completedAt j <> None /\ error j = None) \/
  (status j = failed /\ completedAt j <> None /\ error j <> None /\ images j = []).
Proof.
  induction 1 as [rid cid uid now | j w now Hr IH].
  - left. repeat split.
  - destruct (isPolling j) eqn:Hp.
    + rewrite (probe_theJob env w now j Hp).
      apply isPolling_true in Hp.
      destruct IH as [(_ & Hc & He & Hi) | [(Hs & _) | (Hs & _)]];
        [|congruence|congruence].
      destruct (jobAfter_cases (now + latency w (statusRequest env j))
                  (respond w (statusRequest env j)) j)
        as [E | [(imgs & E) | [(imgs & E) | [(e & E) | E]]]]; rewrite E.
      * left. cbn. auto.
      * right. left. cbn. repeat split; [discriminate | exact He].
      * right. left. cbn. repeat split; [discriminate | exact He].
      * right. right. cbn. repeat split; [discriminate | discriminate | exact Hi].
      * right. right. cbn. repeat split; [discriminate | discriminate | exact Hi].
    + rewrite (probe_not_polling env w now j Hp). exact IH.
Qed.

(** X1: [completedAt] is set exactly on the jobs that have left [polling]. *)
Theorem completedAt_iff_settled (env : Env) (j : Job) :
  reachable env j -> (completedAt j = None <-> status j = polling).
Proof.
  intros Hr.
  destruct (reachable_shape env j Hr)
    as [(Hs & Hc & _) | [(Hs & Hc & _) | (Hs & Hc & _)]];
    split; intros H; congruence.
Qed.

Lemma completedAt_iff_settled_witness :
  let w := always (Responded (mkResponse 200
             (Some (JObj [("status", JStr "failed")])))) in
  let j := theJob (probe noEnv w 5000 (newJob "job-1" "c-1" "u-1" 0)) in
  completedAt j = None <-> status j = polling.
Proof.
  cbn zeta. apply (completedAt_iff_settled noEnv).
  exact (reach_probe noEnv _ _ 5000 (reach_new noEnv "job-1" "c-1" "u-1" 0)).
Defined.

(** X2: a job carries an error exactly when it is failed. *)
Theorem error_iff_failed (env : Env) (j : Job) :
  reachable env j -> (error j <> None <-> status j = failed).
Proof.
  intros Hr.
  destruct (reachable_shape env j Hr)
    as [(Hs & _ & He & _) | [(Hs & _ & He) | (Hs & _ & He & _)]];
    split; intros H; congruence.
Qed.

Lemma error_iff_failed_witness :
  let w := always (Responded (mkResponse 200
             (Some (JObj [("status", JStr "error")])))) in
  let j := theJob (probe noEnv w 5000 (newJob "job-1" "c-1" "u-1" 0)) in
  error j <> None <-> status j = failed.
Proof.
  cbn zeta. apply (error_iff_failed noEnv).
  exact (reach_probe noEnv _ _ 5000 (reach_new noEnv "job-1" "c-1" "u-1" 0)).
Defined.

(** X3: no job is ever given the status [cancelled]; a provider status
    ["cancelled"] makes the job [failed]. *)
Theorem never_cancelled (env : Env) (j : Job) :
  reachable env j -> status j <> cancelled.
Proof.
  intros Hr.
  destruct (reachable_shape env j Hr)
    as [(Hs & _) | [(Hs & _) | (Hs & _)]]; congruence.
Qed.

Lemma never_cancelled_witness :
  let w := always (Responded (mkResponse 200
             (Some (JObj [("status", JStr "cancelled")])))) in
  let j := theJob (probe noEnv w 5000 (newJob "job-1" "c-1" "u-1" 0)) in
  status j <> cancelled /\ status j = failed.
Proof.
  cbn zeta. split.
  - apply (never_cancelled noEnv).
    exact (reach_probe noEnv _ _ 5000 (reach_new noEnv "job-1" "c-1" "u-1" 0)).
  - vm_compute. reflexivity.
Defined.

Lemma probe_identity (env : Env) (w : World) (now : Z) (j : Job) :
  let j' := theJob (probe env w now j) in
  requestId j' = requestId j /\ contactId j' = contactId j /\
  userId j' = userId j /\ createdAt j' = createdAt j.
Proof.
  cbn zeta. destruct (isPolling j) eqn:Hp.
  - rewrite (probe_theJob env w now j Hp).
    destruct (jobAfter_cases (now + latency w (statusRequest env j))
                (respond w (statusRequest env j)) j)
      as [E | [(imgs & E) | [(imgs & E) | [(e & E) | E]]]]; rewrite E; repeat split.
  - rewrite (probe_not_polling env w now j Hp). repeat split.
Qed.

Lemma probe_pollCount (env : Env) (w : World) (now : Z) (j : Job) :
  let j' := theJob (probe env w now j) in
  (pollCount j <= pollCount j' <= S (pollCount j))%nat.
Proof.
  cbn zeta. destruct (isPolling j) eqn:Hp.
  - rewrite (probe_theJob env w now j Hp).
    destruct (jobAfter_cases (now + latency w (statusRequest env j))
                (respond w (statusRequest env j)) j)
      as [E | [(imgs & E) | [(imgs & E) | [(e & E) | E]]]]; rewrite E; cbn; lia.
  - rewrite (probe_not_polling env w now j Hp). cbn. lia.
Qed.

(** X4: probes never change who a job belongs to: the request id, the
    contact and user ids and the creation date stay as registered. *)
Theorem probes_keep_identity
  (env : Env) (ws : list (World * Z)) (j : Job) (t : Trace) :
  let j' := fst (probes env ws j t) in
  requestId j' = requestId j /\ contactId j' = contactId j /\
  userId j' = userId j /\ createdAt j' = createdAt j.
Proof.
  cbn zeta. revert j t. induction ws as [|[w now] rest IH]; intros j t.
  - repeat split.
  - cbn [probes].
    destruct (IH (theJob (probe env w now j)) (t ++ trace (probe env w now j)))
      as (H1 & H2 & H3 & H4).
    destruct (probe_identity env w now j) as (P1 & P2 & P3 & P4).
    repeat split; congruence.
Qed.

(** X5: the attempt counter never goes down and grows by at most one per
    probe. *)
Theorem pollCount_bounds
  (env : Env) (ws : list (World * Z)) (j : Job) (t : Trace) :
  let j' := fst (probes env ws j t) in
  (pollCount j <= pollCount j' <= pollCount j + length ws)%nat.
Proof.
  cbn zeta. revert j t. induction ws as [|[w now] rest IH]; intros j t.
  - cbn. lia.
  - cbn [probes length].
    specialize (IH (theJob (probe env w now j)) (t ++ trace (probe env w now j))).
    pose proof (probe_pollCount env w now j) as Hp. cbn zeta in Hp. lia.
Qed.




(** X7: while the provider keeps answering 2xx with a document that lines
    77-92 can read (no [null] in the image list, a status that can be
    printed) and whose status is not terminal, a fresh job stays [polling]
    through its first [MAX_POLL_ATTEMPTS - 1] probes, counting each; the
    probe number [MAX_POLL_ATTEMPTS] fails it with the timeout message, and
    the count stops there. *)
Theorem busy_provider_timeline
  (env : Env) (ws : list (World * Z)) (rid cid uid : string) (t0 : Z) :
  Forall (fun wn => providerBusy env (newJob rid cid uid t0) (fst wn)) ws ->
  let j' := fst (probes env ws (newJob rid cid uid t0) []) in
  ((length ws < MAX_POLL_ATTEMPTS)%nat ->
     status j' = polling /\ pollCount j' = length ws /\ error j' = None) /\
  ((MAX_POLL_ATTEMPTS <= length ws)%nat ->
     status j' = failed /\ pollCount j' = MAX_POLL_ATTEMPTS /\
     error j' = Some (JStr TIMEOUT_MESSAGE) /\ completedAt j' <> None).
Proof.
  intros Hall. cbn zeta.
  assert (G : forall (ws : list (World * Z)) (j : Job) (t : Trace),
             isPolling j = true ->
             (pollCount j < MAX_POLL_ATTEMPTS)%nat ->
             Forall (fun wn => providerBusy env j (fst wn)) ws ->
             let j' := fst (probes env ws j t) in
             ((pollCount j + length ws < MAX_POLL_ATTEMPTS)%nat ->
                status j' = polling /\
                pollCount j' = (pollCount j + length ws)%nat /\
                error j' = error j) /\
             ((MAX_POLL_ATTEMPTS <= pollCount j + length ws)%nat ->
                status j' = failed /\ pollCount j' = MAX_POLL_ATTEMPTS /\
                error j' = Some (JStr TIMEOUT_MESSAGE) /\ completedAt j' <> None)).
  { clear. induction ws as [|[w now] rest IH]; intros j t Hp Hlt Hall; cbn zeta.
    - cbn [probes fst length]. split.
      + intros _. apply isPolling_true in Hp. repeat split; [exact Hp | lia].
      + lia.
    - inversion Hall as [|x l Hw Hrest]; subst. cbn [fst] in Hw.
      cbn [probes length]. rewrite (probe_theJob env w now j Hp).
      rewrite (providerBusy_jobAfter env w _ j Hw).
      destruct (MAX_POLL_ATTEMPTS <=? S (pollCount j))%nat eqn:Hmax.
      + apply Nat.leb_le in Hmax. rewrite probes_settled by reflexivity.
        cbn [fst]. split; [lia|]. intros _. cbn.
        repeat split; [lia | discriminate].
      + apply Nat.leb_gt in Hmax.
        specialize (IH (incPollCount j) (t ++ trace (probe env w now j))
                       Hp Hmax Hrest).
        cbn zeta in IH. cbn [pollCount incPollCount error] in IH.
        destruct IH as [IH1 IH2]. split; intros H.
        * destruct IH1 as (A & B & C); [lia|]. repeat split; [exact A | lia | exact C].
        * apply IH2. lia. }
  apply (G ws (newJob rid cid uid t0) []); [reflexivity | | exact Hall].
  unfold MAX_POLL_ATTEMPTS. cbn. lia.
Qed.

Lemma busy_provider_timeline_witness :
  let busy := always (Responded (mkResponse 200
                (Some (JObj [("status", JStr "in_progress")])))) in
  let job := newJob "job-1" "c-1" "u-1" 0 in
  (status (fst (probes noEnv (repeat (busy, 0%Z) 29) job [])) = polling /\
   pollCount (fst (probes noEnv (repeat (busy, 0%Z) 29) job [])) = 29%nat) /\
  (status (fst (probes noEnv (repeat (busy, 0%Z) 35) job [])) = failed /\
   pollCount (fst (probes noEnv (repeat (busy, 0%Z) 35) job [])) = 30%nat).
Proof.
  cbn zeta.
  assert (Hbusy : forall n,
            Forall (fun wn => providerBusy noEnv (newJob "job-1" "c-1" "u-1" 0) (fst wn))
                   (repeat (always (Responded (mkResponse 200
                      (Some (JObj [("status", JStr "in_progress")])))), 0%Z) n)).
  { intros n. apply Forall_forall. intros x Hx. apply repeat_spec in Hx. subst x.
    cbn. repeat split. discriminate. }
  split.
  - destruct (proj1 (busy_provider_timeline noEnv _ "job-1" "c-1" "u-1" 0 (Hbusy 29%nat)))
      as (A & B & _).
    + rewrite repeat_length. unfold MAX_POLL_ATTEMPTS. lia.
    + split; [exact A|]. rewrite B. apply repeat_length.
  - destruct (proj2 (busy_provider_timeline noEnv _ "job-1" "c-1" "u-1" 0 (Hbusy 35%nat)))
      as (A & B & _).
    + rewrite repeat_length. unfold MAX_POLL_ATTEMPTS. lia.
    + split; [exact A | exact B].
Defined.

(** ** What a probe sends to the messaging platform *)

Lemma failure_not_success (st : js) :
  isFailureStatus st = true -> isSuccessStatus st = false.
Proof.
  unfold isFailureStatus, isSuccessStatus, is_str.
  destruct st as [[| | |s| |]|]; try discriminate.
  intros H. apply orb_true_iff in H. destruct H as [H|H];
    [apply orb_true_iff in H; destruct H as [H|H]|];
    apply String.eqb_eq in H; subst s; reflexivity.
Qed.

(** X8: a 2xx answer with a failure status ([failed], [error] or
    [cancelled]) whose image list can be read settles the job as failed
    without counting an attempt and without a callback.  The reason is the
    payload's [error] when that is truthy, else its [message] when that is
    truthy, else the text ["Generation <status>"].  When the image list
    cannot be read ([images] has a [null] element), line 82 throws before
    the status is looked at: the job stays [polling] with one attempt
    counted, and nothing is sent either. *)
Theorem provider_failure_recorded
  (env : Env) (w : World) (now : Z) (j : Job) (r : Response) :
  isPolling j = true ->
  respond w (statusRequest env j) = Responded r ->
  ok r = true ->
  isFailureStatus (statusOf (payloadOf r)) = true ->
  let m := probe env w now j in
  invocations (trace m) = 0%nat /\
  messagingCalls (trace m) = [] /\
  (extractImages (payloadOf r) <> None ->
     status (theJob m) = failed /\
     pollCount (theJob m) = pollCount j /\
     images (theJob m) = images j /\
     completedAt (theJob m) = Some (now + latency w (statusRequest env j))%Z /\
     (forall e, prop (payloadOf r) "error" = Some e -> truthy e = true ->
        error (theJob m) = Some e) /\
     (forall msg, truthy_js (prop (payloadOf r) "error") = false ->
        prop (payloadOf r) "message" = Some msg -> truthy msg = true ->
        error (theJob m) = Some msg) /\
     (truthy_js (prop (payloadOf r) "error") = false ->
      truthy_js (prop (payloadOf r) "message") = false ->
      exists s, statusOf (payloadOf r) = Some (JStr s) /\
                error (theJob m) = Some (JStr ("Generation " ++ s)%string))) /\
  (extractImages (payloadOf r) = None ->
     onlyPollCountIncremented j (theJob m)).
Proof.
  intros Hp Hres Hok Hfail m. subst m.
  pose proof (failure_not_success _ Hfail) as Hns.
  pose proof (failure_stringifies _ Hfail) as Hstr.
  assert (Hd : dispatches (respond w (statusRequest env j)) = false).
  { rewrite Hres. unfold dispatches. rewrite Hok. cbn [andb].
    destruct (extractImages (payloadOf r)); [exact Hns | reflexivity]. }
  rewrite (probe_invocations env w now j Hp), (probe_messagingCalls env w now j Hp), Hd.
  rewrite (probe_theJob env w now j Hp), Hres. unfold jobAfter. rewrite Hok.
  split; [reflexivity|]. split; [reflexivity|].
  destruct (extractImages (payloadOf r)) as [imgs|].
  - split; [intros _ | discriminate].
    cbn zeta. rewrite Hstr, Hns, Hfail.
    cbn [negb status pollCount images completedAt error setCompletedAt markFailed].
    repeat split.
    + intros e He Ht. unfold failureReasonOf, or_else. rewrite He. cbn [truthy_js].
      rewrite Ht. cbn [truthy_js]. rewrite Ht. reflexivity.
    + intros msg He Hm Ht. unfold failureReasonOf, or_else. rewrite He, Hm.
      cbn [truthy_js]. rewrite Ht. reflexivity.
    + intros He Hm.
      assert (Hs : exists s, statusOf (payloadOf r) = Some (JStr s)).
      { unfold isFailureStatus, is_str in Hfail.
        destruct (statusOf (payloadOf r)) as [[| | |s| |]|]; try discriminate.
        exists s. reflexivity. }
      destruct Hs as (s & Hs). exists s. split; [exact Hs|].
      unfold failureReasonOf, or_else. rewrite He, Hm, Hs.
      cbn [generationMessage truthy_js truthy]. reflexivity.
  - split; [congruence | intros _].
    unfold onlyPollCountIncremented. cbn. repeat split.
Qed.

Lemma provider_failure_recorded_witness :
  let r := mkResponse 200 (Some (JObj [("state", JStr "cancelled");
                                       ("message", JStr "stopped by user")])) in
  let broken := mkResponse 200 (Some (JObj [("status", JStr "failed");
                                            ("images", JArr [JNull])])) in
  let job := newJob "job-1" "c-1" "u-1" 0 in
  let m := probe noEnv (always (Responded r)) 5000 job in
  let m' := probe noEnv (always (Responded broken)) 5000 job in
  (status (theJob m) = failed /\
   pollCount (theJob m) = 0%nat /\
   error (theJob m) = Some (JStr "stopped by user")) /\
  (status (theJob m') = polling /\ pollCount (theJob m') = 1%nat).
Proof.
  cbn zeta. split.
  - destruct (provider_failure_recorded noEnv
                (always (Responded (mkResponse 200
                   (Some (JObj [("state", JStr "cancelled");
                                ("message", JStr "stopped by user")])))))
                5000 (newJob "job-1" "c-1" "u-1" 0)
                (mkResponse 200 (Some (JObj [("state", JStr "cancelled");
                                             ("message", JStr "stopped by user")])))
                eq_refl eq_refl eq_refl eq_refl)
      as (_ & _ & H & _).
    destruct H as (A & B & _ & _ & _ & D & _).
    + vm_compute. discriminate.
    + split; [exact A|]. split; [exact B|].
      exact (D (JStr "stopped by user") eq_refl eq_refl eq_refl).
  - destruct (provider_failure_recorded noEnv
                (always (Responded (mkResponse 200
                   (Some (JObj [("status", JStr "failed");
                                ("images", JArr [JNull])])))))
                5000 (newJob "job-1" "c-1" "u-1" 0)
                (mkResponse 200 (Some (JObj [("status", JStr "failed");
                                             ("images", JArr [JNull])])))
                eq_refl eq_refl eq_refl eq_refl)
      as (_ & _ & _ & H).
    destruct (H eq_refl) as (A & B & _).
    split; [exact B | exact A].
Defined.

(** X9: a success answer with at least one image stores the extracted
    list and invokes [sendCallback] once.  When the first image can be
    converted to a string and URI-encoded, the probe makes exactly the two
    calls for it, addressed to the contact the job was registered with, and
    counts no attempt.  When it cannot, [sendCallback] throws before its
    first request (lines 142 and 150): nothing is sent, the [catch] block of
    [checkJobStatus] counts one attempt, and the job stays succeeded. *)
Theorem success_delivers_first_image
  (env : Env) (w : World) (now : Z) (j : Job) (r : Response)
  (img : value) (rest : list value) :
  isPolling j = true ->
  respond w (statusRequest env j) = Responded r ->
  ok r = true ->
  isSuccessStatus (statusOf (payloadOf r)) = true ->
  extractImages (payloadOf r) = Some (img :: rest) ->
  let m := probe env w now j in
  status (theJob m) = succeeded /\
  images (theJob m) = img :: rest /\
  completedAt (theJob m) = Some (now + latency w (statusRequest env j))%Z /\
  invocations (trace m) = 1%nat /\
  (encodable img = true ->
     pollCount (theJob m) = pollCount j /\
     messagingCalls (trace m)
     = [EFetch (CustomFieldReq (contactId j)
                               (envOr (CHATGPT_BUILDER_CUSTOM_FIELD_ID env) "871218")
                               (accessTokenOf env) img);
        EFetch (TriggerFlowReq (contactId j)
                               (envOr (CHATGPT_BUILDER_FLOW_ID env) "1760629479392")
                               (accessTokenOf env))]) /\
  (encodable img = false ->
     pollCount (theJob m) = S (pollCount j) /\
     messagingCalls (trace m) = []).
Proof.
  intros Hp Hres Hok Hst Hex m. subst m.
  assert (Hd : dispatches (respond w (statusRequest env j)) = true).
  { rewrite Hres. unfold dispatches. rewrite Hok, Hex. exact Hst. }
  assert (Hj : theJob (probe env w now j)
               = if encodable img
                 then setCompletedAt (now + latency w (statusRequest env j))
                        (markSucceeded (img :: rest) j)
                 else incPollCount
                        (setCompletedAt (now + latency w (statusRequest env j))
                           (markSucceeded (img :: rest) j))).
  { rewrite (probe_theJob env w now j Hp), Hres. unfold jobAfter.
    rewrite Hok, Hex. cbn zeta. rewrite (success_stringifies _ Hst), Hst.
    reflexivity. }
  rewrite (probe_invocations env w now j Hp), (probe_messagingCalls env w now j Hp), Hd.
  rewrite Hj.
  destruct (encodable img) eqn:Henc;
    cbn [status images completedAt pollCount incPollCount setCompletedAt markSucceeded];
    rewrite Henc; repeat split; intros; congruence.
Qed.

Lemma success_delivers_first_image_witness :
  let env := mkEnv None None None None (Some "token-1") None None "" in
  let r := mkResponse 200
             (Some (JObj [("status", JStr "completed");
                          ("images", JArr [JObj [("url", JStr "https://x/out.png")];
                                           JObj [("url", JStr "https://x/two.png")]])])) in
  let odd := mkResponse 200
               (Some (JObj [("status", JStr "completed");
                            ("image_urls", JArr [JObj [("toString", JNull)]])])) in
  let job := newJob "job-1" "c-1" "u-1" 0 in
  let m := probe env (always (Responded r)) 5000 job in
  let m' := probe env (always (Responded odd)) 5000 job in
  (images (theJob m) = [JStr "https://x/out.png"; JStr "https://x/two.png"] /\
   invocations (trace m) = 1%nat /\
   messagingCalls (trace m)
   = [EFetch (CustomFieldReq "c-1" "871218" "token-1" (JStr "https://x/out.png"));
      EFetch (TriggerFlowReq "c-1" "1760629479392" "token-1")]) /\
  (status (theJob m') = succeeded /\
   pollCount (theJob m') = 1%nat /\
   messagingCalls (trace m') = []).
Proof.
  cbn zeta. split.
  - destruct (success_delivers_first_image
                (mkEnv None None None None (Some "token-1") None None "")
                (always (Responded (mkResponse 200
                   (Some (JObj [("status", JStr "completed");
                                ("images", JArr [JObj [("url", JStr "https://x/out.png")];
                                                 JObj [("url", JStr "https://x/two.png")]])])))))
                5000 (newJob "job-1" "c-1" "u-1" 0)
                (mkResponse 200
                   (Some (JObj [("status", JStr "completed");
                                ("images", JArr [JObj [("url", JStr "https://x/out.png")];
                                                 JObj [("url", JStr "https://x/two.png")]])])))
                (JStr "https://x/out.png") [JStr "https://x/two.png"]
                eq_refl eq_refl eq_refl eq_refl eq_refl)
      as (_ & A & _ & B & C & _).
    split; [exact A|]. split; [exact B | exact (proj2 (C eq_refl))].
  - destruct (success_delivers_first_image
                (mkEnv None None None None (Some "token-1") None None "")
                (always (Responded (mkResponse 200
                   (Some (JObj [("status", JStr "completed");
                                ("image_urls", JArr [JObj [("toString", JNull)]])])))))
                5000 (newJob "job-1" "c-1" "u-1" 0)
                (mkResponse 200
                   (Some (JObj [("status", JStr "completed");
                                ("image_urls", JArr [JObj [("toString", JNull)]])])))
                (JObj [("toString", JNull)]) []
                eq_refl eq_refl eq_refl eq_refl eq_refl)
      as (A & _ & _ & _ & _ & C).
    split; [exact A | exact (C eq_refl)].
Defined.

(** X10: over the life of a job whose probes never overlap, [sendCallback]
    is invoked at most once, and it has been invoked exactly when the job
    is succeeded; the messaging platform has then received two calls if the
    job has results and the first of them can be converted to a string and
    URI-encoded, and none otherwise. *)
Theorem dispatched_iff_succeeded
  (env : Env) (ws : list (World * Z)) (rid cid uid : string) (t0 : Z) :
  let j' := fst (probes env ws (newJob rid cid uid t0) []) in
  let t := snd (probes env ws (newJob rid cid uid t0) []) in
  (invocations t <= 1)%nat /\
  (invocations t = 1%nat <-> status j' = succeeded) /\
  length (messagingCalls t)
  = (if JobStatus_eqb (status j') succeeded
     then match images j' with
          | [] => 0
          | img :: _ => if encodable img then 2 else 0
          end
     else 0)%nat.
Proof.
  cbn zeta.
  assert (G : forall (ws : list (World * Z)) (j : Job) (t : Trace),
            (status j = polling /\ invocations t = 0%nat /\ messagingCalls t = []) \/
            (status j = succeeded /\ invocations t = 1%nat /\
             length (messagingCalls t)
             = match images j with
               | [] => 0
               | img :: _ => if encodable img then 2 else 0
               end%nat) \/
            (status j = failed /\ invocations t = 0%nat /\ messagingCalls t = []) ->
            let j' := fst (probes env ws j t) in
            let t' := snd (probes env ws j t) in
            (status j' = polling /\ invocations t' = 0%nat /\ messagingCalls t' = []) \/
            (status j' = succeeded /\ invocations t' = 1%nat /\
             length (messagingCalls t')
             = match images j' with
               | [] => 0
               | img :: _ => if encodable img then 2 else 0
               end%nat) \/
            (status j' = failed /\ invocations t' = 0%nat /\ messagingCalls t' = [])).
  { clear. induction ws as [|[w now] rest IH]; intros j t Hinv; cbn zeta.
    - exact Hinv.
    - destruct (isPolling j) eqn:Hp.
      + cbn [probes]. apply IH.
        pose proof (proj1 (isPolling_true j) Hp) as Hst.
        destruct Hinv as [(_ & Hi & Hc) | [(Hs & _) | (Hs & _)]];
          [|congruence|congruence].
        rewrite invocations_app, messagingCalls_app, Hi, Hc.
        rewrite (probe_invocations env w now j Hp),
                (probe_messagingCalls env w now j Hp).
        cbn [app plus].
        pose proof (dispatches_iff_succeeded
                      (now + latency w (statusRequest env j))
                      (respond w (statusRequest env j)) j Hp) as Hiff.
        rewrite <- (probe_theJob env w now j Hp) in Hiff.
        destruct (dispatches (respond w (statusRequest env j))).
        * right. left. split; [apply Hiff; reflexivity|]. split; [reflexivity|].
          destruct (images (theJob (probe env w now j))) as [|img others];
            [|destruct (encodable img)]; reflexivity.
        * assert (Hns : status (theJob (probe env w now j)) <> succeeded).
          { intros H. apply Hiff in H. discriminate. }
          rewrite (probe_theJob env w now j Hp) in *.
          destruct (jobAfter_cases (now + latency w (statusRequest env j))
                      (respond w (statusRequest env j)) j)
            as [E | [(imgs & E) | [(imgs & E) | [(e & E) | E]]]]; rewrite E in *.
          -- left. cbn. auto.
          -- exfalso. apply Hns. reflexivity.
          -- exfalso. apply Hns. reflexivity.
          -- right. right. cbn. auto.
          -- right. right. cbn. auto.
      + rewrite (probes_settled env _ j t Hp). cbn [fst snd]. exact Hinv. }
  assert (Hstart : status (newJob rid cid uid t0) = polling /\
                   invocations [] = 0%nat /\ messagingCalls [] = [])
    by (repeat split).
  destruct (G ws (newJob rid cid uid t0) [] (or_introl Hstart))
    as [(Hs & Hi & Hc) | [(Hs & Hi & Hc) | (Hs & Hi & Hc)]].
  - rewrite Hs, Hi, Hc. cbn. repeat split; intros; congruence || lia.
  - rewrite Hs, Hi, Hc. cbn. repeat split; intros; congruence || lia.
  - rewrite Hs, Hi, Hc. cbn. repeat split; intros; congruence || lia.
Qed.

(** ** Reading the status document *)

Lemma mapImageUrls_None (items : list value) :
  mapImageUrls items = None <-> In JNull items.
Proof.
  induction items as [|img items IH]; cbn [mapImageUrls In].
  - split; [discriminate | tauto].
  - destruct (imageUrlOf img) as [u|] eqn:Hu.
    + assert (Hn : img <> JNull) by (intros ->; discriminate).
      destruct (mapImageUrls items).
      * split; [discriminate|]. intros [H|H]; [congruence|].
        apply IH in H. discriminate.
      * split; [|reflexivity]. intros _. right. apply IH. reflexivity.
    + destruct img; try discriminate. split; auto.
Qed.

(** X11: reading the image list fails in exactly one case: the payload has
    an [images] array with a [null] element.  Every other payload, of any
    shape, yields a list. *)
Theorem extractImages_throws_iff_null_image (payload : value) :
  extractImages payload = None
  <-> exists items, prop payload "images" = Some (JArr items) /\ In JNull items.
Proof.
  unfold extractImages. split.
  - destruct (prop payload "images") as [[| | | |items|]|] eqn:Himg;
      cbn [truthy_js truthy isArray andb arrayOrEmpty];
      try (repeat match goal with
                  | |- context [if ?b then _ else _] => destruct b
                  end; discriminate).
    destruct (mapImageUrls items) eqn:Hm; [discriminate|].
    intros _. exists items. split; [reflexivity|]. apply mapImageUrls_None. exact Hm.
  - intros (items & Himg & Hin). rewrite Himg.
    cbn [truthy_js truthy isArray andb arrayOrEmpty].
    apply mapImageUrls_None in Hin. rewrite Hin. reflexivity.
Qed.

Lemma mapImageUrls_objects (us : list string) :
  mapImageUrls (map (fun u => JObj [("url", JStr u)]) us)
  = Some (map (fun u => if (u =? "")%string then JStr "" else JStr u) us).
Proof.
  induction us as [|u us IH]; [reflexivity|].
  cbn [map mapImageUrls imageUrlOf assoc]. rewrite IH.
  cbn [String.eqb Ascii.eqb Bool.eqb andb truthy_js truthy].
  change (("url" =? "url")%string) with true. cbn iota.
  destruct (u =? "")%string; reflexivity.
Qed.

Lemma mapImageUrls_strings (us : list string) :
  mapImageUrls (map JStr us) = Some (map JStr us).
Proof.
  induction us as [|u us IH]; [reflexivity|].
  cbn [map mapImageUrls imageUrlOf]. rewrite IH. reflexivity.
Qed.

Lemma filter_truthy_strings (us : list string) :
  filter truthy (map JStr us)
  = map JStr (filter (fun u => negb (u =? "")%string) us).
Proof.
  induction us as [|u us IH]; [reflexivity|].
  cbn [map filter truthy]. destruct (u =? "")%string; cbn [negb map]; rewrite IH;
    reflexivity.
Qed.

(** X12: the same list of URLs is extracted from each of the five ways a
    document can carry it: as [images] objects with a [url], as [images]
    strings, or as strings under [image_urls], [outputs] or [result].  The
    two [images] forms drop empty strings; the other three keep the list as
    sent. *)
Theorem shapes_carry_the_same_urls (st : value) (us : list string) :
  let kept := map JStr (filter (fun u => negb (u =? "")%string) us) in
  extractImages (JObj [("status", st);
                       ("images", JArr (map (fun u => JObj [("url", JStr u)]) us))])
  = Some kept /\
  extractImages (JObj [("status", st); ("images", JArr (map JStr us))])
  = Some kept /\
  extractImages (JObj [("status", st); ("image_urls", JArr (map JStr us))])
  = Some (map JStr us) /\
  extractImages (JObj [("status", st); ("outputs", JArr (map JStr us))])
  = Some (map JStr us) /\
  extractImages (JObj [("status", st); ("result", JArr (map JStr us))])
  = Some (map JStr us).
Proof.
  cbn zeta. unfold extractImages. cbn [prop assoc].
  repeat match goal with
         | |- context [(?a =? ?b)%string] =>
             let v := eval vm_compute in (a =? b)%string in
             change ((a =? b)%string) with v
         end.
  cbn [truthy_js truthy isArray andb arrayOrEmpty].
  rewrite mapImageUrls_objects, mapImageUrls_strings, filter_truthy_strings.
  repeat split.
  f_equal. induction us as [|u us IH]; [reflexivity|].
  cbn [map filter]. destruct (u =? "")%string eqn:Hu; cbn [truthy negb map].
  - exact IH.
  - rewrite Hu. cbn [negb]. rewrite IH. reflexivity.
Qed.

(** X13: a 2xx answer whose body is not a JSON object (a malformed body,
    [null], a string, a number, a list) carries no status and no image and
    is handled as "still processing": one attempt is counted, and the job
    fails with the timeout message if that reaches the ceiling. *)
Theorem non_object_body_counts_as_attempt
  (env : Env) (w : World) (now : Z) (j : Job) (r : Response) :
  isPolling j = true ->
  respond w (statusRequest env j) = Responded r ->
  ok r = true ->
  (forall fields, payloadOf r <> JObj fields) ->
  let m := probe env w now j in
  invocations (trace m) = 0%nat /\
  theJob m
  = if (MAX_POLL_ATTEMPTS <=? S (pollCount j))%nat then
      setCompletedAt (now + latency w (statusRequest env j))
        (markFailed (JStr TIMEOUT_MESSAGE) (incPollCount j))
    else incPollCount j.
Proof.
  intros Hp Hres Hok Hobj m. subst m.
  assert (Hprop : forall k, prop (payloadOf r) k = None).
  { intros k. destruct (payloadOf r); try reflexivity. exfalso. eapply Hobj. reflexivity. }
  assert (Hex : extractImages (payloadOf r) = Some []).
  { unfold extractImages. rewrite !Hprop. reflexivity. }
  assert (Hst : statusOf (payloadOf r) = None).
  { unfold statusOf. rewrite !Hprop. reflexivity. }
  rewrite (probe_invocations env w now j Hp), (probe_theJob env w now j Hp), Hres.
  unfold dispatches, jobAfter. rewrite Hok, Hex, Hst. split; reflexivity.
Qed.

Lemma non_object_body_counts_as_attempt_witness :
  let r := mkResponse 200 (Some (JStr "queued")) in
  let j := newJob "job-1" "c-1" "u-1" 0 in
  theJob (probe noEnv (always (Responded r)) 5000 j) = incPollCount j.
Proof.
  cbn zeta.
  refine (proj2 (non_object_body_counts_as_attempt noEnv
                  (always (Responded (mkResponse 200 (Some (JStr "queued")))))
                  5000 (newJob "job-1" "c-1" "u-1" 0)
                  (mkResponse 200 (Some (JStr "queued")))
                  eq_refl eq_refl eq_refl _)).
  intros fields. cbn. discriminate.
Defined.

(** ** The provider credentials *)

(** X14: [buildAuthHeaders] sends at most one [Authorization] header.  A
    bearer token wins over a key pair; a key pair counts only when both the
    id and the secret are set; with neither there is no [Authorization]
    header.  The [x-api-key] header depends on [HIGGSFIELD_API_KEY] alone. *)
Theorem buildAuthHeaders_precedence (env : Env) :
  (forall b, HIGGSFIELD_BEARER_TOKEN env = Some b -> b <> ""%string ->
     lookupHeader "Authorization" (buildAuthHeaders env)
     = Some ("Bearer " ++ b)%string) /\
  (forall id secret,
     isSet (HIGGSFIELD_BEARER_TOKEN env) = false ->
     HIGGSFIELD_KEY_ID env = Some id -> id <> ""%string ->
     HIGGSFIELD_KEY_SECRET env = Some secret -> secret <> ""%string ->
     lookupHeader "Authorization" (buildAuthHeaders env)
     = Some ("Key " ++ id ++ ":" ++ secret)%string) /\
  (isSet (HIGGSFIELD_BEARER_TOKEN env) = false ->
   isSet (HIGGSFIELD_KEY_ID env) && isSet (HIGGSFIELD_KEY_SECRET env) = false ->
     lookupHeader "Authorization" (buildAuthHeaders env) = None) /\
  (lookupHeader "x-api-key" (buildAuthHeaders env)
   = if isSet (HIGGSFIELD_API_KEY env) then HIGGSFIELD_API_KEY env else None) /\
  (length (filter (fun h => (fst h =? "Authorization")%string) (buildAuthHeaders env))
   <= 1)%nat.
Proof.
  unfold buildAuthHeaders. repeat split.
  - intros b Hb Hne. rewrite Hb. cbn [isSet envOr].
    apply String.eqb_neq in Hne. rewrite Hne. reflexivity.
  - intros id secret Hb Hid Hidne Hs Hsne. rewrite Hb, Hid, Hs.
    cbn [isSet envOr]. apply String.eqb_neq in Hidne, Hsne.
    rewrite Hidne, Hsne. reflexivity.
  - intros Hb Hk. rewrite Hb, Hk.
    destruct (isSet (HIGGSFIELD_API_KEY env)); reflexivity.
  - destruct (HIGGSFIELD_API_KEY env) as [k|]; cbn [isSet envOr].
    + destruct (k =? "")%string eqn:Hk; cbn [negb];
        destruct (isSet (HIGGSFIELD_BEARER_TOKEN env));
        [reflexivity | | reflexivity |];
        destruct (isSet (HIGGSFIELD_KEY_ID env) && isSet (HIGGSFIELD_KEY_SECRET env));
        reflexivity.
    + destruct (isSet (HIGGSFIELD_BEARER_TOKEN env)); [reflexivity|].
      destruct (isSet (HIGGSFIELD_KEY_ID env) && isSet (HIGGSFIELD_KEY_SECRET env));
        reflexivity.
  - destruct (isSet (HIGGSFIELD_BEARER_TOKEN env));
      [|destruct (isSet (HIGGSFIELD_KEY_ID env) && isSet (HIGGSFIELD_KEY_SECRET env))];
      destruct (isSet (HIGGSFIELD_API_KEY env)); cbn; lia.
Qed.

Lemma buildAuthHeaders_precedence_witness :
  let both := mkEnv (Some "id") (Some "secret") (Some "tok") None None None None "" in
  let pair := mkEnv (Some "id") (Some "secret") None (Some "k") None None None "" in
  let half := mkEnv (Some "id") None (Some "") None None None None "" in
  lookupHeader "Authorization" (buildAuthHeaders both) = Some "Bearer tok" /\
  lookupHeader "Authorization" (buildAuthHeaders pair) = Some "Key id:secret" /\
  lookupHeader "Authorization" (buildAuthHeaders half) = None.
Proof.
  cbn zeta. split; [|split].
  - refine (proj1 (buildAuthHeaders_precedence
                     (mkEnv (Some "id") (Some "secret") (Some "tok")
                            None None None None "")) "tok" eq_refl _).
    discriminate.
  - refine (proj1 (proj2 (buildAuthHeaders_precedence
                     (mkEnv (Some "id") (Some "secret") None (Some "k")
                            None None None ""))) "id" "secret" eq_refl eq_refl _ eq_refl _);
      discriminate.
  - exact (proj1 (proj2 (proj2 (buildAuthHeaders_precedence
                     (mkEnv (Some "id") None (Some "") None None None None ""))))
                 eq_refl eq_refl).
Defined.

(** ** The store and the tick *)

Lemma setJob_absent (rid : string) (job : Job) (l : Store) :
  getJob rid l = None -> setJob rid job l = l ++ [(rid, job)].
Proof.
  induction l as [|[k j] l IH]; cbn [getJob setJob app]; [reflexivity|].
  destruct (k =? rid)%string; [discriminate|]. intros H. rewrite IH; auto.
Qed.

Lemma setJob_same (rid : string) (j : Job) (l : Store) :
  getJob rid l = Some j -> setJob rid j l = l.
Proof.
  induction l as [|[k j0] l IH]; cbn [getJob setJob]; [discriminate|].
  destruct (k =? rid)%string; [intros [= ->]; reflexivity|].
  intros H. rewrite IH; auto.
Qed.

Lemma getJob_In (rid : string) (j : Job) (l : Store) :
  getJob rid l = Some j -> In (rid, j) l.
Proof.
  induction l as [|[k j0] l IH]; cbn [getJob In]; [discriminate|].
  destruct (k =? rid)%string eqn:Hk.
  - apply String.eqb_eq in Hk. intros [= ->]. left. congruence.
  - intros H. right. apply IH. exact H.
Qed.

(** X15: registering an id the store does not hold appends the fresh job at
    the end: the jobs already there keep their places, and [getAllJobs]
    lists the new one last. *)
Theorem addJob_appends_new_id
  (t : Tracker) (rid cid uid : string) (now : Z) :
  getJob rid (jobs t) = None ->
  let t' := fst (addJob rid cid uid now t) in
  jobs t' = jobs t ++ [(rid, newJob rid cid uid now)] /\
  getAllJobs (jobs t') = getAllJobs (jobs t) ++ [newJob rid cid uid now] /\
  (forall other, other <> rid -> getJob other (jobs t') = getJob other (jobs t)).
Proof.
  intros Hnew. cbn zeta. rewrite addJob_jobs, (setJob_absent rid _ _ Hnew).
  split; [reflexivity|]. split.
  - unfold getAllJobs. rewrite map_app. reflexivity.
  - intros other Hne. rewrite <- (setJob_absent rid _ _ Hnew).
    apply getJob_setJob_other. exact Hne.
Qed.

Lemma addJob_appends_new_id_witness :
  let first := newJob "job-0" "c-0" "u-0" 0 in
  let t := mkTracker [("job-0", first)] true [] in
  getAllJobs (jobs (fst (addJob "job-1" "c-1" "u-1" 100 t)))
  = [first; newJob "job-1" "c-1" "u-1" 100].
Proof.
  cbn zeta.
  exact (proj1 (proj2 (addJob_appends_new_id
                  (mkTracker [("job-0", newJob "job-0" "c-0" "u-0" 0)] true [])
                  "job-1" "c-1" "u-1" 100 eq_refl))).
Defined.

Lemma expired_mono (now1 now2 : Z) (j : Job) :
  (now1 <= now2)%Z -> expired now1 j = true -> expired now2 j = true.
Proof.
  unfold expired. destruct (completedAt j); [|discriminate].
  rewrite !Z.ltb_lt. lia.
Qed.

(** X16: a later clean-up absorbs an earlier one, and a clean-up repeated
    at the same time changes nothing more. *)
Theorem cleanUp_absorbs_earlier (now1 now2 : Z) (l : Store) :
  storeOk l ->
  (now1 <= now2)%Z ->
  cleanUp now2 (cleanUp now1 l) = cleanUp now2 l /\
  cleanUp now1 (cleanUp now1 l) = cleanUp now1 l.
Proof.
  intros Hok Hle.
  assert (G : forall a b, (a <= b)%Z -> cleanUp b (cleanUp a l) = cleanUp b l).
  { intros a b Hab. rewrite (cleanUp_filter a l Hok).
    rewrite (cleanUp_filter b _ (storeOk_filter _ l Hok)), (cleanUp_filter b l Hok).
    rewrite filter_filter. apply filter_ext. intros e.
    destruct (expired a (snd e)) eqn:Ha; [|reflexivity].
    rewrite (expired_mono a b _ Hab Ha). reflexivity. }
  split; [apply G; exact Hle | apply G; lia].
Qed.

Lemma cleanUp_absorbs_earlier_witness :
  let old := mkJob "a" "c-1" "u-1" failed 30 [] 0 (Some 1000%Z)
                   (Some (JStr TIMEOUT_MESSAGE)) in
  let recent := mkJob "b" "c-2" "u-2" succeeded 2 [JStr "https://x/b.png"]
                      0 (Some 2000000%Z) None in
  let l := [("a", old); ("b", recent)] in
  cleanUp 6000000 (cleanUp 4000000 l) = cleanUp 6000000 l.
Proof.
  cbn zeta.
  refine (proj1 (cleanUp_absorbs_earlier 4000000 6000000
                   [("a", mkJob "a" "c-1" "u-1" failed 30 [] 0 (Some 1000%Z)
                                (Some (JStr TIMEOUT_MESSAGE)));
                    ("b", mkJob "b" "c-2" "u-2" succeeded 2 [JStr "https://x/b.png"]
                                0 (Some 2000000%Z) None)] _ _)).
  - unfold storeOk. cbn [map fst].
    apply NoDup_cons; [intros [H|[]]; discriminate|].
    apply NoDup_cons; [intros []|apply NoDup_nil].
  - lia.
Defined.

Lemma getJob_map (f : Job -> Job) (rid : string) (l : Store) :
  getJob rid (map (fun e => (fst e, f (snd e))) l) = option_map f (getJob rid l).
Proof.
  induction l as [|[k j] l IH]; [reflexivity|]. cbn [map getJob fst snd].
  destruct (k =? rid)%string; [reflexivity | exact IH].
Qed.

Lemma pollAllJobs_pending (env : Env) (w : World) (now : Z) (l : Store) :
  filter isPolling (getAllJobs l) <> [] ->
  fst (pollAllJobs env w now l)
  = cleanUp (tickEnd env w now l)
            (map (fun e => (fst e, theJob (probe env w now (snd e)))) l).
Proof.
  intros Hne. unfold pollAllJobs, tickEnd.
  destruct (filter isPolling (getAllJobs l)); [congruence|].
  cbn [fst]. rewrite !map_map. reflexivity.
Qed.

(** X17: a tick that finds a pending job treats every job on its own: the
    job is probed (a settled job is left as it is), and it is then dropped
    if it is expired at the end of the tick.  No job is added and no job is
    affected by the answers given for another. *)
Theorem pollAllJobs_per_job
  (env : Env) (w : World) (now : Z) (l : Store) (rid : string) :
  storeOk l ->
  filter isPolling (getAllJobs l) <> [] ->
  getJob rid (fst (pollAllJobs env w now l))
  = match getJob rid l with
    | None => None
    | Some j =>
        let j' := if isPolling j then theJob (probe env w now j) else j in
        if expired (tickEnd env w now l) j' then None else Some j'
    end.
Proof.
  intros Hok Hne. rewrite (pollAllJobs_pending env w now l Hne).
  assert (Hok' : storeOk (map (fun e => (fst e, theJob (probe env w now (snd e)))) l)).
  { unfold storeOk. rewrite map_map. exact Hok. }
  rewrite (cleanUp_filter _ _ Hok'), (getJob_retained _ rid _ Hok').
  rewrite (getJob_map (fun j => theJob (probe env w now j))).
  destruct (getJob rid l) as [j|]; [|reflexivity]. cbn [option_map].
  destruct (isPolling j) eqn:Hp; [reflexivity|].
  rewrite (probe_not_polling env w now j Hp). reflexivity.
Qed.

Lemma pollAllJobs_per_job_witness :
  let busy := always (Responded (mkResponse 200
                (Some (JObj [("status", JStr "in_progress")])))) in
  let old := mkJob "a" "c-1" "u-1" failed 30 [] 0 (Some 1000%Z)
                   (Some (JStr TIMEOUT_MESSAGE)) in
  let pending := newJob "b" "c-2" "u-2" 3990000 in
  let l := [("a", old); ("b", pending)] in
  getJob "a" (fst (pollAllJobs noEnv busy 4000000 l)) = None /\
  getJob "b" (fst (pollAllJobs noEnv busy 4000000 l)) = Some (incPollCount pending) /\
  getJob "c" (fst (pollAllJobs noEnv busy 4000000 l)) = None.
Proof.
  cbn zeta.
  assert (Hok : storeOk [("a", mkJob "a" "c-1" "u-1" failed 30 [] 0 (Some 1000%Z)
                                   (Some (JStr TIMEOUT_MESSAGE)));
                         ("b", newJob "b" "c-2" "u-2" 3990000)]).
  { unfold storeOk. cbn [map fst].
    apply NoDup_cons; [intros [H|[]]; discriminate|].
    apply NoDup_cons; [intros []|apply NoDup_nil]. }
  assert (Hne : filter isPolling
                  (getAllJobs [("a", mkJob "a" "c-1" "u-1" failed 30 [] 0 (Some 1000%Z)
                                           (Some (JStr TIMEOUT_MESSAGE)));
                               ("b", newJob "b" "c-2" "u-2" 3990000)]) <> [])
    by (vm_compute; discriminate).
  split; [|split].
  - rewrite (pollAllJobs_per_job noEnv _ 4000000 _ "a" Hok Hne). vm_compute. reflexivity.
  - rewrite (pollAllJobs_per_job noEnv _ 4000000 _ "b" Hok Hne). vm_compute. reflexivity.
  - rewrite (pollAllJobs_per_job noEnv _ 4000000 _ "c" Hok Hne). vm_compute. reflexivity.
Defined.

Lemma tick_idle (env : Env) (w : World) (now : Z) (t : Tracker) :
  filter isPolling (getAllJobs (jobs t)) = [] -> tick env w now t = t.
Proof.
  intros H. unfold tick. rewrite (tick_without_pending_job env w now _ H).
  destruct t; reflexivity.
Qed.

(** X18: while no job is pending the tracker never cleans up: any number of
    ticks leaves the store as it is, expired jobs included.  Settled jobs
    are only dropped by a tick that also has a job to probe. *)
Theorem idle_ticks_keep_everything
  (env : Env) (ticks : list (World * Z)) (t : Tracker) :
  filter isPolling (getAllJobs (jobs t)) = [] ->
  applyOps env (map (fun wn => OpTick (fst wn) (snd wn)) ticks) t = t.
Proof.
  intros Hidle. unfold applyOps.
  induction ticks as [|[w now] rest IH]; [reflexivity|].
  cbn [map fold_left applyOp fst snd]. rewrite (tick_idle env w now t Hidle).
  exact IH.
Qed.

Lemma idle_ticks_keep_everything_witness :
  let old := mkJob "a" "c-1" "u-1" failed 30 [] 0 (Some 1000%Z)
                   (Some (JStr TIMEOUT_MESSAGE)) in
  let t := mkTracker [("a", old)] true [] in
  let down := always NetworkError in
  applyOps noEnv [OpTick down 4000000; OpTick down 8000000; OpTick down 12000000] t
  = t.
Proof.
  cbn zeta.
  exact (idle_ticks_keep_everything noEnv
           [(always NetworkError, 4000000%Z); (always NetworkError, 8000000%Z);
            (always NetworkError, 12000000%Z)]
           (mkTracker [("a", mkJob "a" "c-1" "u-1" failed 30 [] 0 (Some 1000%Z)
                                   (Some (JStr TIMEOUT_MESSAGE)))] true [])
           eq_refl).
Defined.

(** X19: the first check of a job touches that job only, and only while it
    is pending: for an id the store does not hold (never registered, or
    cleaned up since) and for a settled job it does nothing; for a pending
    job it stores the result of one probe. *)
Theorem firstCheck_only_its_pending_job
  (env : Env) (w : World) (now : Z) (rid : string) (t : Tracker) :
  (getJob rid (jobs t) = None -> firstCheck env w now rid t = t) /\
  (forall j, getJob rid (jobs t) = Some j -> isPolling j = false ->
     firstCheck env w now rid t = t) /\
  (forall j, getJob rid (jobs t) = Some j ->
     getJob rid (jobs (firstCheck env w now rid t))
     = Some (theJob (probe env w now j))) /\
  (forall other, other <> rid ->
     getJob other (jobs (firstCheck env w now rid t)) = getJob other (jobs t)).
Proof.
  unfold firstCheck. repeat split.
  - intros ->. reflexivity.
  - intros j Hj Hs. rewrite Hj, (probe_not_polling env w now j Hs).
    cbn [theJob]. rewrite (setJob_same rid j _ Hj). destruct t; reflexivity.
  - intros j Hj. rewrite Hj. cbn [jobs]. apply getJob_setJob_same.
  - intros other Hne. destruct (getJob rid (jobs t)); [|reflexivity].
    cbn [jobs]. apply getJob_setJob_other. exact Hne.
Qed.

Lemma firstCheck_only_its_pending_job_witness :
  let settled := mkJob "a" "c-1" "u-1" succeeded 1 [JStr "https://x/a.png"]
                       0 (Some 5100%Z) None in
  let t := mkTracker [("a", settled)] true [(5000%Z, "a"); (5000%Z, "gone")] in
  let done := always (Responded (mkResponse 200
                (Some (JObj [("status", JStr "failed")])))) in
  firstCheck noEnv done 5000 "gone" t = t /\
  firstCheck noEnv done 5000 "a" t = t.
Proof.
  cbn zeta. split.
  - exact (proj1 (firstCheck_only_its_pending_job noEnv _ 5000 "gone"
                    (mkTracker [("a", mkJob "a" "c-1" "u-1" succeeded 1
                                            [JStr "https://x/a.png"] 0 (Some 5100%Z) None)]
                               true [(5000%Z, "a"); (5000%Z, "gone")])) eq_refl).
  - exact (proj1 (proj2 (firstCheck_only_its_pending_job noEnv _ 5000 "a"
                    (mkTracker [("a", mkJob "a" "c-1" "u-1" succeeded 1
                                            [JStr "https://x/a.png"] 0 (Some 5100%Z) None)]
                               true [(5000%Z, "a"); (5000%Z, "gone")])))
                 _ eq_refl eq_refl).
Defined.

(** ** The tracker over its whole life *)

Lemma Forall_setJob (P : string * Job -> Prop) (rid : string) (job : Job) (l : Store) :
  Forall P l -> P (rid, job) -> Forall P (setJob rid job l).
Proof.
  intros Hall Hnew. induction Hall as [|[k j] l Hx Hl IH]; cbn [setJob].
  - constructor; [exact Hnew | constructor].
  - destruct (k =? rid)%string eqn:Hk.
    + apply String.eqb_eq in Hk. subst k. constructor; assumption.
    + constructor; assumption.
Qed.

Lemma Forall_filter_keeps {A : Type} (P : A -> Prop) (p : A -> bool) (l : list A) :
  Forall P l -> Forall P (filter p l).
Proof.
  intros H. apply Forall_forall. intros x Hx. apply filter_In in Hx.
  rewrite Forall_forall in H. apply H. tauto.
Qed.

Lemma recordsOk_probed (env : Env) (w : World) (now : Z) (l : Store) :
  recordsOk env l ->
  recordsOk env (map (fun e => (fst e, theJob (probe env w now (snd e)))) l).
Proof.
  unfold recordsOk. intros H. apply Forall_map.
  eapply Forall_impl; [|exact H]. intros [k j] [Hk Hr]. cbn [fst snd] in *. split.
  - rewrite <- Hk. apply (probe_identity env w now j).
  - apply reach_probe. exact Hr.
Qed.

Lemma applyOp_keeps_records (env : Env) (op : TrackerOp) (t : Tracker) :
  storeOk (jobs t) /\ recordsOk env (jobs t) ->
  storeOk (jobs (applyOp env t op)) /\ recordsOk env (jobs (applyOp env t op)).
Proof.
  intros [Hok Hrec]. destruct op as [rid cid uid now | w now | w now rid];
    cbn [applyOp].
  - split; [apply storeOk_addJob; exact Hok|].
    rewrite addJob_jobs. apply Forall_setJob; [exact Hrec|].
    cbn [fst snd]. split; [reflexivity | apply reach_new].
  - unfold tick. cbn [jobs].
    split; [apply storeOk_pollAllJobs; exact Hok|].
    destruct (filter isPolling (getAllJobs (jobs t))) eqn:Hpend.
    + rewrite (tick_without_pending_job env w now _ Hpend). exact Hrec.
    + rewrite pollAllJobs_pending by congruence.
      rewrite cleanUp_filter.
      * apply Forall_filter_keeps, recordsOk_probed. exact Hrec.
      * unfold storeOk. rewrite map_map. exact Hok.
  - unfold firstCheck. destruct (getJob rid (jobs t)) as [j|] eqn:Hj;
      [|split; assumption].
    cbn [jobs]. split; [apply storeOk_setJob; exact Hok|].
    apply Forall_setJob; [exact Hrec|].
    apply getJob_In in Hj. unfold recordsOk in Hrec.
    rewrite Forall_forall in Hrec. destruct (Hrec _ Hj) as [Hk Hr].
    cbn [fst snd] in *. split.
    + rewrite <- Hk. apply (probe_identity env w now j).
    + apply reach_probe. exact Hr.
Qed.

Lemma applyOps_keeps_records (env : Env) (ops : list TrackerOp) (t : Tracker) :
  storeOk (jobs t) /\ recordsOk env (jobs t) ->
  storeOk (jobs (applyOps env ops t)) /\ recordsOk env (jobs (applyOps env ops t)).
Proof.
  unfold applyOps. revert t. induction ops as [|op ops IH]; intros t H.
  - exact H.
  - cbn [fold_left]. apply IH, applyOp_keeps_records, H.
Qed.

Lemma getJob_recordsOk (env : Env) (rid : string) (j : Job) (l : Store) :
  recordsOk env l -> getJob rid l = Some j -> requestId j = rid /\ reachable env j.
Proof.
  intros Hrec Hj. apply getJob_In in Hj. unfold recordsOk in Hrec.
  rewrite Forall_forall in Hrec. exact (Hrec _ Hj).
Qed.

(** X20: whatever registrations, ticks and first checks the tracker goes
    through, each tick and each first check running to its end before the
    next operation starts, the store keeps one entry per id, and the record
    found under an id is a job with that request id in one of the states a
    job can reach: pending with no result, completion date or error;
    succeeded with a completion date and no error; or failed with a
    completion date, an error and no result.  (Probes of one job that
    overlap are outside this statement: see
    [overlapping_probes_fail_succeeded_job].) *)
Theorem tracker_records_consistent
  (env : Env) (ops : list TrackerOp) (rid : string) (j : Job) :
  let t := applyOps env ops emptyTracker in
  storeOk (jobs t) /\
  (getJob rid (jobs t) = Some j ->
     requestId j = rid /\
     ((status j = polling /\ completedAt j = None /\ error j = None /\ images j = []) \/
      (status j = succeeded /\ completedAt j <> None /\ error j = None) \/
      (status j = failed /\ completedAt j <> None /\ error j <> None /\ images j = []))).
Proof.
  cbn zeta.
  destruct (applyOps_keeps_records env ops emptyTracker) as [Hok Hrec].
  { split; [apply NoDup_nil | constructor]. }
  split; [exact Hok|]. intros Hj.
  destruct (getJob_recordsOk env rid j _ Hrec Hj) as [Hk Hr].
  split; [exact Hk | apply (reachable_shape env j Hr)].
Qed.

Lemma tracker_records_consistent_witness :
  let broken := always (Responded (mkResponse 200
                  (Some (JObj [("status", JStr "failed")])))) in
  let busy := always (Responded (mkResponse 200
                (Some (JObj [("status", JStr "in_progress")])))) in
  let done := always (Responded (mkResponse 200
                (Some (JObj [("status", JStr "completed");
                             ("outputs", JArr [JStr "https://x/out.png"])])))) in
  let ops := [OpAddJob "job-1" "c-1" "u-1" 0; OpFirstCheck broken 5000 "job-1";
              OpAddJob "job-2" "c-2" "u-2" 6000; OpFirstCheck busy 11000 "job-2";
              OpTick done 20000] in
  let j := mkJob "job-2" "c-2" "u-2" succeeded 1 [JStr "https://x/out.png"]
                 6000 (Some 20000%Z) None in
  storeOk (jobs (applyOps noEnv ops emptyTracker)) /\
  getJob "job-2" (jobs (applyOps noEnv ops emptyTracker)) = Some j /\
  requestId j = "job-2".
Proof.
  cbn zeta.
  destruct (tracker_records_consistent noEnv
              [OpAddJob "job-1" "c-1" "u-1" 0;
               OpFirstCheck (always (Responded (mkResponse 200
                  (Some (JObj [("status", JStr "failed")]))))) 5000 "job-1";
               OpAddJob "job-2" "c-2" "u-2" 6000;
               OpFirstCheck (always (Responded (mkResponse 200
                  (Some (JObj [("status", JStr "in_progress")]))))) 11000 "job-2";
               OpTick (always (Responded (mkResponse 200
                  (Some (JObj [("status", JStr "completed");
                               ("outputs", JArr [JStr "https://x/out.png"])]))))) 20000]
              "job-2"
              (mkJob "job-2" "c-2" "u-2" succeeded 1 [JStr "https://x/out.png"]
                     6000 (Some 20000%Z) None)) as [Hok Hrec].
  assert (Hj : getJob "job-2"
                 (jobs (applyOps noEnv
                    [OpAddJob "job-1" "c-1" "u-1" 0;
                     OpFirstCheck (always (Responded (mkResponse 200
                        (Some (JObj [("status", JStr "failed")]))))) 5000 "job-1";
                     OpAddJob "job-2" "c-2" "u-2" 6000;
                     OpFirstCheck (always (Responded (mkResponse 200
                        (Some (JObj [("status", JStr "in_progress")]))))) 11000 "job-2";
                     OpTick (always (Responded (mkResponse 200
                        (Some (JObj [("status", JStr "completed");
                                     ("outputs", JArr [JStr "https://x/out.png"])]))))) 20000]
                    emptyTracker))
               = Some (mkJob "job-2" "c-2" "u-2" succeeded 1 [JStr "https://x/out.png"]
                             6000 (Some 20000%Z) None))
    by (vm_compute; reflexivity).
  split; [exact Hok|]. split; [exact Hj|]. exact (proj1 (Hrec Hj)).
Defined.

Lemma applyOp_timers (env : Env) (op : TrackerOp) (t : Tracker) :
  let t' := applyOp env t op in
  length (firstChecks t')
  = (length (firstChecks t) + if isRegistration op then 1 else 0)%nat /\
  pollInterval t' = pollInterval t || isRegistration op.
Proof.
  destruct op as [rid cid uid now | w now | w now rid]; cbn [applyOp isRegistration].
  - unfold addJob, startPolling. cbn [fst jobs pollInterval firstChecks].
    destruct (pollInterval t); cbn [firstChecks pollInterval];
      rewrite length_app; cbn [length]; split; reflexivity.
  - unfold tick. cbn [firstChecks pollInterval]. rewrite orb_false_r.
    split; [lia | reflexivity].
  - unfold firstCheck. destruct (getJob rid (jobs t));
      cbn [firstChecks pollInterval]; rewrite orb_false_r;
      split; [lia | reflexivity | lia | reflexivity].
Qed.

(** X21: every registration, of a new id or of one already stored,
    schedules one first check, and the first registration sets the
    recurring timer, which nothing ever clears: after any history the
    number of first checks scheduled is the number of registrations, and
    the timer is set exactly when there has been one. *)
Theorem timers_follow_registrations (env : Env) (ops : list TrackerOp) :
  let t := applyOps env ops emptyTracker in
  length (firstChecks t) = registrations ops /\
  pollInterval t = negb (registrations ops =? 0)%nat.
Proof.
  cbn zeta.
  assert (G : forall ops t,
            length (firstChecks (applyOps env ops t))
            = (length (firstChecks t) + registrations ops)%nat /\
            pollInterval (applyOps env ops t)
            = pollInterval t || negb (registrations ops =? 0)%nat).
  { clear. unfold applyOps, registrations.
    induction ops as [|op ops IH]; intros t.
    - cbn. rewrite orb_false_r. split; [lia | reflexivity].
    - cbn [fold_left filter]. destruct (IH (applyOp env t op)) as [H1 H2].
      destruct (applyOp_timers env op t) as [A B]. cbn zeta in A, B.
      rewrite H1, H2, A, B.
      destruct (isRegistration op); cbn [length Nat.eqb negb].
      + rewrite !orb_true_r. cbn [orb]. split; [lia | reflexivity].
      + rewrite orb_false_r. split; [lia | reflexivity]. }
  destruct (G ops emptyTracker) as [H1 H2]. rewrite H1, H2. split; reflexivity.
Qed.

(** ** The jobs endpoint *)

Lemma counts_add_up (l : list Job) :
  Forall (fun j => status j <> cancelled) l ->
  (countStatus polling l + countStatus succeeded l + countStatus failed l)%nat
  = length l.
Proof.
  unfold countStatus. induction 1 as [|j l Hj _ IH]; [reflexivity|].
  cbn [filter length]. destruct (status j); cbn [JobStatus_eqb length];
    [lia | lia | lia | congruence].
Qed.

(** The handler itself, over a tracker with any history. *)
Lemma jobsHandler_over_history
  (env : Env) (ops : list TrackerOp) (mth : string) (rid : string) :
  let l := jobs (applyOps env ops emptyTracker) in
  (mth <> "GET"%string -> forall q, jobsHandler mth q l = MethodNotAllowed) /\
  (rid <> ""%string ->
     (getJob rid l = None /\ jobsHandler "GET" (Some rid) l = JobNotFound rid) \/
     (exists j, getJob rid l = Some j /\ requestId j = rid /\
                jobsHandler "GET" (Some rid) l = JobDetail j)) /\
  (exists p s f sums,
     jobsHandler "GET" None l = JobList (length l) p s f sums /\
     jobsHandler "GET" (Some ""%string) l = JobList (length l) p s f sums /\
     (p + s + f)%nat = length l /\
     map sRequestId sums = map fst l).
Proof.
  cbn zeta.
  destruct (applyOps_keeps_records env ops emptyTracker) as [Hok Hrec].
  { split; [apply NoDup_nil | constructor]. }
  set (l := jobs (applyOps env ops emptyTracker)) in *.
  split; [|split].
  - intros Hm q. unfold jobsHandler. apply String.eqb_neq in Hm. rewrite Hm.
    reflexivity.
  - intros Hne. unfold jobsHandler. cbn [String.eqb negb].
    change (("GET" =? "GET")%string) with true. cbn [negb].
    apply String.eqb_neq in Hne. rewrite Hne.
    destruct (getJob rid l) as [j|] eqn:Hj.
    + right. exists j. split; [reflexivity|]. split; [|reflexivity].
      apply (getJob_recordsOk env rid j l Hrec Hj).
    + left. split; reflexivity.
  - exists (countStatus polling (getAllJobs l)),
           (countStatus succeeded (getAllJobs l)),
           (countStatus failed (getAllJobs l)),
           (map summaryOf (getAllJobs l)).
    assert (Hlen : length (getAllJobs l) = length l)
      by (unfold getAllJobs; apply length_map).
    unfold jobsHandler. change (("GET" =? "GET")%string) with true.
    cbn [negb String.eqb]. rewrite Hlen.
    split; [reflexivity|]. split; [reflexivity|]. split.
    + rewrite counts_add_up; [exact Hlen|].
      unfold getAllJobs. apply Forall_map. eapply Forall_impl; [|exact Hrec].
      intros [k j] [_ Hr]. cbn [snd].
      destruct (reachable_shape env j Hr) as [(H & _) | [(H & _) | (H & _)]];
        congruence.
    + unfold getAllJobs. rewrite map_map. clear Hok Hlen. induction Hrec as [|[k j] l' [Hk _] _ IH];
        [reflexivity|]. cbn [map fst snd summaryOf sRequestId] in *.
      rewrite IH, Hk. reflexivity.
Qed.

(** The three ways through [withMiddleware]. *)
Lemma withMiddleware_cases (menv : MiddlewareEnv) (req : ApiRequest) :
  let hs := fst (setCorsHeaders menv req) in
  (method req = "OPTIONS"%string -> withMiddleware menv req = Preflight hs) /\
  (method req <> "OPTIONS"%string -> validateApiKey menv req = false ->
     withMiddleware menv req = Unauthorized hs) /\
  (method req <> "OPTIONS"%string -> validateApiKey menv req = true ->
     withMiddleware menv req = CallHandler hs).
Proof.
  cbn zeta. unfold withMiddleware, setCorsHeaders. cbn [fst].
  split; [|split].
  - intros ->. reflexivity.
  - intros Hm Hk. apply String.eqb_neq in Hm. rewrite Hm, Hk. reflexivity.
  - intros Hm Hk. apply String.eqb_neq in Hm. rewrite Hm, Hk. reflexivity.
Qed.

(** X22: what the jobs endpoint, exported as [withMiddleware(handler)],
    answers over a tracker whose registrations, ticks and first checks have
    run one after the other.  An OPTIONS request gets the preflight answer
    and a request whose API key does not pass gets 401, whatever else it
    asks; neither reaches the handler.  A request that passes both gets
    405 unless its method is GET.  A GET with a non-empty id (given once in
    the query) gets 404 when the store has no job under that id, and
    otherwise the job filed under it, whose request id is the one asked
    for.  A GET with no id, or an empty one, lists all jobs in registration
    order, and its three counters add up to the total.  Every answer
    carries the CORS headers. *)
Theorem jobsEndpoint_replies
  (env : Env) (menv : MiddlewareEnv) (ops : list TrackerOp)
  (req : ApiRequest) (q : option string) :
  let l := jobs (applyOps env ops emptyTracker) in
  let hs := fst (setCorsHeaders menv req) in
  (method req = "OPTIONS"%string ->
     jobsEndpoint menv req q l = PreflightReply hs) /\
  (method req <> "OPTIONS"%string -> validateApiKey menv req = false ->
     jobsEndpoint menv req q l = UnauthorizedReply hs) /\
  (method req <> "OPTIONS"%string -> validateApiKey menv req = true ->
     (method req <> "GET"%string ->
        jobsEndpoint menv req q l = HandlerReply hs MethodNotAllowed) /\
     (method req = "GET"%string ->
        (forall rid, q = Some rid -> rid <> ""%string -> getJob rid l = None ->
           jobsEndpoint menv req q l = HandlerReply hs (JobNotFound rid)) /\
        (forall rid j, q = Some rid -> rid <> ""%string -> getJob rid l = Some j ->
           requestId j = rid /\
           jobsEndpoint menv req q l = HandlerReply hs (JobDetail j)) /\
        (q = None \/ q = Some ""%string ->
           exists p s f sums,
             jobsEndpoint menv req q l
             = HandlerReply hs (JobList (length l) p s f sums) /\
             (p + s + f)%nat = length l /\
             map sRequestId sums = map fst l))).
Proof.
  cbn zeta.
  destruct (withMiddleware_cases menv req) as (Hpre & Hno & Hyes). cbn zeta in *.
  unfold jobsEndpoint. split; [|split].
  - intros Hm. rewrite (Hpre Hm). reflexivity.
  - intros Hm Hk. rewrite (Hno Hm Hk). reflexivity.
  - intros Hm Hk. rewrite (Hyes Hm Hk). split.
    + intros Hg.
      rewrite (proj1 (jobsHandler_over_history env ops (method req) "") Hg q).
      reflexivity.
    + intros Hg. rewrite Hg. split; [|split].
      * intros rid -> Hne Hnone.
        destruct (proj1 (proj2 (jobsHandler_over_history env ops "GET" rid)) Hne)
          as [[_ H] | (j & Hj & _)]; [rewrite H; reflexivity | congruence].
      * intros rid j -> Hne Hj.
        destruct (proj1 (proj2 (jobsHandler_over_history env ops "GET" rid)) Hne)
          as [[Hnone _] | (j' & Hj' & Hid & H)]; [congruence|].
        assert (j' = j) by congruence. subst j'.
        split; [exact Hid | rewrite H; reflexivity].
      * intros Hq.
        destruct (proj2 (proj2 (jobsHandler_over_history env ops "GET" "")))
          as (p & s & f & sums & Hnone & Hempty & Hsum & Hids).
        exists p, s, f, sums.
        destruct Hq as [-> | ->]; [rewrite Hnone | rewrite Hempty];
          (split; [reflexivity|]); split; assumption.
Qed.

Lemma jobsEndpoint_replies_witness :
  let broken := always (Responded (mkResponse 200
                  (Some (JObj [("status", JStr "failed")])))) in
  let ops := [OpAddJob "job-1" "c-1" "u-1" 0; OpFirstCheck broken 5000 "job-1";
              OpAddJob "job-2" "c-2" "u-2" 6000] in
  let l := jobs (applyOps noEnv ops emptyTracker) in
  let menv := mkMiddlewareEnv (Some "secret") None in
  (exists hs, jobsEndpoint menv (mkApiRequest "OPTIONS" None None) None l
              = PreflightReply hs) /\
  (exists hs, jobsEndpoint menv (mkApiRequest "POST" (Some "guess") None) None l
              = UnauthorizedReply hs) /\
  (exists hs, jobsEndpoint menv (mkApiRequest "POST" (Some "secret") None) None l
              = HandlerReply hs MethodNotAllowed) /\
  (exists hs, jobsEndpoint menv (mkApiRequest "GET" (Some "secret") None)
                           (Some "job-9") l
              = HandlerReply hs (JobNotFound "job-9")).
Proof.
  cbn zeta. split; [|split; [|split]]; eexists.
  - refine (proj1 (jobsEndpoint_replies noEnv (mkMiddlewareEnv (Some "secret") None) _
                     (mkApiRequest "OPTIONS" None None) None) _).
    reflexivity.
  - refine (proj1 (proj2 (jobsEndpoint_replies noEnv
                     (mkMiddlewareEnv (Some "secret") None) _
                     (mkApiRequest "POST" (Some "guess") None) None)) _ _).
    + discriminate.
    + reflexivity.
  - refine (proj1 (proj2 (proj2 (jobsEndpoint_replies noEnv
                     (mkMiddlewareEnv (Some "secret") None) _
                     (mkApiRequest "POST" (Some "secret") None) None)) _ _) _).
    + discriminate.
    + reflexivity.
    + discriminate.
  - refine (proj1 (proj2 (proj2 (proj2 (jobsEndpoint_replies noEnv
                     (mkMiddlewareEnv (Some "secret") None) _
                     (mkApiRequest "GET" (Some "secret") None) (Some "job-9")))
                     _ _) eq_refl) "job-9" eq_refl _ _).
    + discriminate.
    + reflexivity.
    + discriminate.
    + vm_compute. reflexivity.
Defined.

(** ** The middleware *)

(** X23: a preflight request is answered by the CORS layer itself: an
    OPTIONS request never reaches the handler and is never refused for its
    API key, whatever key is configured or sent. *)
Theorem preflight_bypasses_auth (menv : MiddlewareEnv) (req : ApiRequest) :
  method req = "OPTIONS"%string ->
  withMiddleware menv req = Preflight (fst (setCorsHeaders menv req)) /\
  withCors menv req = Preflight (fst (setCorsHeaders menv req)).
Proof.
  intros Hm. unfold withMiddleware, withCors, setCorsHeaders. rewrite Hm.
  split; reflexivity.
Qed.

Lemma preflight_bypasses_auth_witness :
  let menv := mkMiddlewareEnv (Some "secret") None in
  let req := mkApiRequest "OPTIONS" None (Some "https://app.example") in
  exists hs, withMiddleware menv req = Preflight hs.
Proof.
  cbn zeta. eexists.
  exact (proj1 (preflight_bypasses_auth (mkMiddlewareEnv (Some "secret") None)
                  (mkApiRequest "OPTIONS" None (Some "https://app.example")) eq_refl)).
Defined.

(** X24: for any other method [withMiddleware] lets the request through to
    the handler exactly when no API key is configured (unset or empty) or
    the [x-api-key] header equals the configured key; every other request
    is refused with 401.  [withCors] never refuses. *)
Theorem api_key_gate (menv : MiddlewareEnv) (req : ApiRequest) :
  method req <> "OPTIONS"%string ->
  let hs := fst (setCorsHeaders menv req) in
  (withMiddleware menv req = CallHandler hs
   <-> isSet (API_KEY menv) = false \/ xApiKey req = API_KEY menv) /\
  (withMiddleware menv req = Unauthorized hs
   <-> isSet (API_KEY menv) = true /\ xApiKey req <> API_KEY menv) /\
  withCors menv req = CallHandler hs.
Proof.
  intros Hm. apply String.eqb_neq in Hm. cbn zeta.
  unfold withMiddleware, withCors, setCorsHeaders, validateApiKey. rewrite Hm.
  cbn [fst]. split; [|split; [|reflexivity]].
  - destruct (API_KEY menv) as [key|]; cbn [isSet]; [|split; auto].
    destruct (key =? "")%string; cbn [negb]; [split; auto|].
    destruct (xApiKey req) as [p|]; cbn [negb].
    + destruct (p =? key)%string eqn:Hp; cbn [negb].
      * apply String.eqb_eq in Hp. subst. split; auto.
      * apply String.eqb_neq in Hp. split; [discriminate|].
        intros [H|H]; [discriminate | congruence].
    + split; [discriminate|]. intros [H|H]; discriminate.
  - destruct (API_KEY menv) as [key|]; cbn [isSet];
      [|split; [discriminate | intros [H _]; discriminate]].
    destruct (key =? "")%string; cbn [negb];
      [split; [discriminate | intros [H _]; discriminate]|].
    destruct (xApiKey req) as [p|]; cbn [negb].
    + destruct (p =? key)%string eqn:Hp; cbn [negb].
      * apply String.eqb_eq in Hp. subst.
        split; [discriminate | intros [_ H]; congruence].
      * apply String.eqb_neq in Hp. split; [|reflexivity].
        intros _. split; [reflexivity | congruence].
    + split; [|reflexivity]. intros _. split; [reflexivity | discriminate].
Qed.

Lemma api_key_gate_witness :
  let menv := mkMiddlewareEnv (Some "secret") None in
  (exists hs, withMiddleware menv (mkApiRequest "GET" (Some "secret") None)
              = CallHandler hs) /\
  (exists hs, withMiddleware menv (mkApiRequest "GET" (Some "guess") None)
              = Unauthorized hs) /\
  (exists hs, withMiddleware (mkMiddlewareEnv (Some "") None)
                             (mkApiRequest "GET" None None)
              = CallHandler hs).
Proof.
  cbn zeta. split; [|split]; eexists.
  - refine (proj2 (proj1 (api_key_gate (mkMiddlewareEnv (Some "secret") None)
                            (mkApiRequest "GET" (Some "secret") None) _))
                  (or_intror eq_refl)).
    discriminate.
  - refine (proj2 (proj1 (proj2 (api_key_gate (mkMiddlewareEnv (Some "secret") None)
                            (mkApiRequest "GET" (Some "guess") None) _)))
                  (conj eq_refl _)); discriminate.
  - refine (proj2 (proj1 (api_key_gate (mkMiddlewareEnv (Some "") None)
                            (mkApiRequest "GET" None None) _))
                  (or_introl eq_refl)).
    discriminate.
Defined.

Lemma includes_In (s : string) (l : list string) : includes s l = true <-> In s l.
Proof.
  unfold includes. rewrite existsb_exists. split.
  - intros (x & Hx & He). apply String.eqb_eq in He. subst. exact Hx.
  - intros H. exists s. split; [exact H | apply String.eqb_refl].
Qed.

(** X25: the CORS headers of every answer, whichever way the request goes.
    The methods, headers and max-age headers are always there.
    [Access-Control-Allow-Origin] is ["*"] when the allowed origins are not
    configured or contain ["*"]; otherwise it repeats the request's origin
    when that is in the list, and is absent when it is not: an origin that
    is not allowed is never echoed. *)
Theorem cors_headers (menv : MiddlewareEnv) (req : ApiRequest) :
  let hs := gateHeaders (withMiddleware menv req) in
  let allowed := match allowedOrigins menv with Some l => l | None => ["*"%string] end in
  gateHeaders (withCors menv req) = hs /\
  lookupHeader "Access-Control-Allow-Methods" hs = Some "GET, POST, OPTIONS"%string /\
  lookupHeader "Access-Control-Allow-Headers" hs
  = Some "Content-Type, X-API-Key, Authorization"%string /\
  lookupHeader "Access-Control-Max-Age" hs = Some "86400"%string /\
  (In "*"%string allowed ->
     lookupHeader "Access-Control-Allow-Origin" hs = Some "*"%string) /\
  (~ In "*"%string allowed -> In (envOr (origin req) "") allowed ->
     lookupHeader "Access-Control-Allow-Origin" hs = Some (envOr (origin req) "")) /\
  (~ In "*"%string allowed -> ~ In (envOr (origin req) "") allowed ->
     lookupHeader "Access-Control-Allow-Origin" hs = None).
Proof.
  cbn zeta.
  set (allowed := match allowedOrigins menv with Some l => l | None => ["*"%string] end).
  assert (Hhs : gateHeaders (withMiddleware menv req) = fst (setCorsHeaders menv req)).
  { unfold withMiddleware. destruct (setCorsHeaders menv req) as [hs handled].
    destruct handled; [reflexivity|].
    destruct (negb (validateApiKey menv req)); reflexivity. }
  assert (Hhc : gateHeaders (withCors menv req) = fst (setCorsHeaders menv req)).
  { unfold withCors. destruct (setCorsHeaders menv req) as [hs handled].
    destruct handled; reflexivity. }
  rewrite Hhs, Hhc. unfold setCorsHeaders. fold allowed. cbn [fst].
  split; [reflexivity|].
  destruct (includes "*" allowed) eqn:Hstar; cbn [orb].
  - repeat split; try reflexivity.
    + intros Hn _. exfalso. apply Hn. apply includes_In. exact Hstar.
    + intros Hn _. exfalso. apply Hn. apply includes_In. exact Hstar.
  - assert (Hnot : ~ In "*"%string allowed).
    { intros H. apply includes_In in H. congruence. }
    destruct (includes (envOr (origin req) "") allowed) eqn:Horg.
    + repeat split; try reflexivity.
      * intros H. contradiction.
      * intros _ Hn. exfalso. apply Hn. apply includes_In. exact Horg.
    + repeat split; try reflexivity.
      * intros H. contradiction.
      * intros _ H. apply includes_In in H. congruence.
Qed.

Lemma cors_headers_witness :
  let menv := mkMiddlewareEnv None (Some ["https://app.example"; "https://admin.example"]) in
  lookupHeader "Access-Control-Allow-Origin"
    (gateHeaders (withMiddleware menv
       (mkApiRequest "GET" None (Some "https://admin.example"))))
  = Some "https://admin.example" /\
  lookupHeader "Access-Control-Allow-Origin"
    (gateHeaders (withMiddleware menv
       (mkApiRequest "GET" None (Some "https://evil.example"))))
  = None /\
  lookupHeader "Access-Control-Allow-Origin"
    (gateHeaders (withMiddleware (mkMiddlewareEnv None None)
       (mkApiRequest "GET" None (Some "https://evil.example"))))
  = Some "*".
Proof.
  cbn zeta. split; [|split].
  - refine (proj1 (proj2 (proj2 (proj2 (proj2 (proj2
             (cors_headers
                (mkMiddlewareEnv None (Some ["https://app.example"; "https://admin.example"]))
                (mkApiRequest "GET" None (Some "https://admin.example")))))))) _ _).
    + intros [H|[H|[]]]; discriminate.
    + right. left. reflexivity.
  - refine (proj2 (proj2 (proj2 (proj2 (proj2 (proj2
             (cors_headers
                (mkMiddlewareEnv None (Some ["https://app.example"; "https://admin.example"]))
                (mkApiRequest "GET" None (Some "https://evil.example")))))))) _ _).
    + intros [H|[H|[]]]; discriminate.
    + intros [H|[H|[]]]; discriminate.
  - refine (proj1 (proj2 (proj2 (proj2 (proj2
             (cors_headers (mkMiddlewareEnv None None)
                (mkApiRequest "GET" None (Some "https://evil.example"))))))) _).
    left. reflexivity.
Defined.

(** ** The event loop *)

Lemma progress_refl (j : Job) : progress j j.
Proof. unfold progress. repeat split; auto. Qed.

Lemma progress_trans (a b c : Job) : progress a b -> progress b c -> progress a c.
Proof.
  unfold progress. intros (A1 & A2 & A3 & A4 & A5 & A6) (B1 & B2 & B3 & B4 & B5 & B6).
  repeat split; try congruence; [lia | auto].
Qed.

Lemma progress_incPollCount (j : Job) : progress j (incPollCount j).
Proof. unfold progress. cbn. repeat split; auto. Qed.

Lemma progress_markSucceeded (imgs : list value) (j : Job) :
  progress j (markSucceeded imgs j).
Proof. unfold progress. cbn. repeat split; auto. discriminate. Qed.

Lemma progress_markFailed (e : value) (j : Job) : progress j (markFailed e j).
Proof. unfold progress. cbn. repeat split; auto. discriminate. Qed.

Lemma progress_setCompletedAt (now : Z) (j : Job) : progress j (setCompletedAt now j).
Proof. unfold progress. cbn. repeat split; auto. Qed.

Lemma progressing_sendCallback (env : Env) : progressing (sendCallback env Done).
Proof.
  unfold sendCallback. constructor. intros job. constructor.
  destruct (images job) as [|img rest]; [repeat constructor|].
  constructor. destruct (negb (encodable img)); repeat (constructor; intros).
Qed.

(** A [try] around a progressing program, with a progressing handler. *)
Lemma progressing_catching (handler p : Prog) :
  progressing handler -> progressing p -> progressing (catching handler p).
Proof.
  intros Hh Hp.
  induction Hp as [| | r k Hk IH | ms k Hk IH | k Hk IH | k Hk IH
                   | f k Hf Hk IH | e k Hk IH];
    cbn [catching]; try (constructor; auto; fail).
  exact Hh.
Qed.

Lemma progressing_stillProcessing : progressing stillProcessing.
Proof.
  unfold stillProcessing. constructor; [apply progress_incPollCount|].
  constructor. intros job.
  destruct (MAX_POLL_ATTEMPTS <=? pollCount job)%nat; [|constructor].
  constructor; [apply progress_markFailed|]. constructor. intros now.
  constructor; [apply progress_setCompletedAt|]. repeat constructor.
Qed.

Lemma progressing_catchBlock (rid : string) : progressing (catchBlock rid).
Proof.
  unfold catchBlock. constructor. constructor; [apply progress_incPollCount|].
  constructor.
Qed.

Lemma progressing_onStatusResponse (env : Env) (rid : string) (r : Response) :
  progressing (onStatusResponse env rid r).
Proof.
  unfold onStatusResponse. destruct (negb (ok r)).
  - constructor. constructor; [apply progress_incPollCount | constructor].
  - destruct (extractImages (payloadOf r)) as [imgs|]; [|constructor].
    cbn zeta.
    destruct (negb (stringifies_js (statusOf (payloadOf r)))); [constructor|].
    constructor. intros job. constructor.
    destruct (isSuccessStatus (statusOf (payloadOf r))).
    + constructor; [apply progress_markSucceeded|]. constructor. intros now.
      constructor; [apply progress_setCompletedAt|]. constructor.
      apply progressing_sendCallback.
    + destruct (isFailureStatus (statusOf (payloadOf r)));
        [|apply progressing_stillProcessing].
      constructor; [apply progress_markFailed|]. constructor. intros now.
      constructor; [apply progress_setCompletedAt|]. repeat constructor.
Qed.

Lemma progressing_checkJobStatus (env : Env) : progressing (checkJobStatus env).
Proof.
  unfold checkJobStatus, tryBlock. constructor. intros job.
  apply progressing_catching; [apply progressing_catchBlock|].
  constructor. intros [|r].
  - constructor.
  - apply progressing_onStatusResponse.
Qed.

Lemma advance_progress (now : Z) (p : Prog) (j : Job) (t : Trace) :
  progressing p ->
  progress j (snd (fst (advance now p j t))) /\
  match fst (fst (advance now p j t)) with
  | Some task => taskProgressing task
  | None => True
  end.
Proof.
  intros Hp. revert j t.
  induction Hp as [| | r k Hk _ | ms k Hk _ | k Hk IH | k Hk IH
                   | f k Hf Hk IH | e k Hk IH];
    intros j t; cbn [advance fst snd].
  - split; [apply progress_refl | exact I].
  - split; [apply progress_refl | exact I].
  - split; [apply progress_refl | exact Hk].
  - split; [apply progress_refl | exact Hk].
  - apply IH.
  - apply IH.
  - destruct (IH (f j) t) as [H1 H2]. split; [|exact H2].
    eapply progress_trans; [apply Hf | exact H1].
  - apply IH.
Qed.

Lemma Forall_removeNth {A : Type} (P : A -> Prop) (i : nat) (l : list A) :
  Forall P l -> Forall P (removeNth i l).
Proof.
  intros H. revert i. induction H as [|x l Hx Hl IH]; intros i.
  - destruct i; constructor.
  - destruct i; cbn [removeNth]; [exact Hl | constructor; auto].
Qed.

Lemma resume_progress (now : Z) (i : nat) (p : Prog) (l : Loop) :
  progressing p ->
  Forall taskProgressing (suspended l) ->
  progress (shared l) (shared (resume now i p l)) /\
  Forall taskProgressing (suspended (resume now i p l)).
Proof.
  intros Hp Hl. unfold resume.
  pose proof (advance_progress now p (shared l) (seen l) Hp) as [H1 H2].
  destruct (advance now p (shared l) (seen l)) as [[[task|] j'] tr];
    cbn [fst snd shared suspended] in *.
  - split; [exact H1|]. apply Forall_app. split.
    + apply Forall_removeNth. exact Hl.
    + constructor; [exact H2 | constructor].
  - split; [exact H1|]. apply Forall_removeNth. exact Hl.
Qed.

Lemma async_step_progress (env : Env) (a : Action) (l l' : Loop) :
  Forall taskProgressing (suspended l) ->
  async_step env a l = Some l' ->
  progress (shared l) (shared l') /\ Forall taskProgressing (suspended l').
Proof.
  intros Hl. destruct a as [now | i now res | i now]; cbn [async_step].
  - destruct (isPolling (shared l)).
    + pose proof (advance_progress now (checkJobStatus env) (shared l) (seen l)
                    (progressing_checkJobStatus env)) as [H1 H2].
      destruct (advance now (checkJobStatus env) (shared l) (seen l))
        as [[[task|] j'] tr]; cbn [fst snd] in *; intros [= <-];
        cbn [shared suspended].
      * split; [exact H1|]. apply Forall_app. split; [exact Hl|].
        constructor; [exact H2 | constructor].
      * split; [exact H1 | exact Hl].
    + intros [= <-]. split; [apply progress_refl | exact Hl].
  - destruct (nth_error (suspended l) i) as [[r k|ms k]|] eqn:Hn; try discriminate.
    intros [= <-]. apply resume_progress; [|exact Hl].
    apply nth_error_In in Hn. rewrite Forall_forall in Hl.
    apply (Hl _ Hn).
  - destruct (nth_error (suspended l) i) as [[r k|ms k]|] eqn:Hn; try discriminate.
    intros [= <-]. apply resume_progress; [|exact Hl].
    apply nth_error_In in Hn. rewrite Forall_forall in Hl.
    apply (Hl _ Hn).
Qed.

(** X26: under every interleaving of probes, first checks, answers and
    timers on one job, overlapping ones included, the job keeps its request,
    contact and user ids and its creation date, its attempt count never
    goes down, and once it has left [polling] it never returns to it. *)
Theorem event_loop_never_reopens
  (env : Env) (acts1 acts2 : list Action) (j : Job) (mid l : Loop) :
  async_run env acts1 (mkLoop j [] []) = Some mid ->
  async_run env acts2 mid = Some l ->
  progress j (shared mid) /\ progress (shared mid) (shared l).
Proof.
  assert (G : forall acts a b,
            Forall taskProgressing (suspended a) ->
            async_run env acts a = Some b ->
            progress (shared a) (shared b) /\ Forall taskProgressing (suspended b)).
  { induction acts as [|x acts IH]; intros a b Ha; cbn [async_run].
    - intros [= <-]. split; [apply progress_refl | exact Ha].
    - destruct (async_step env x a) as [a'|] eqn:Hstep; [|discriminate].
      intros Hrun.
      destruct (async_step_progress env x a a' Ha Hstep) as [P1 Ha'].
      destruct (IH a' b Ha' Hrun) as [P2 Hb].
      split; [eapply progress_trans; eassumption | exact Hb]. }
  intros H1 H2.
  destruct (G acts1 (mkLoop j [] []) mid (Forall_nil _) H1) as [P1 Hmid].
  destruct (G acts2 mid l Hmid H2) as [P2 _].
  split; [exact P1 | exact P2].
Qed.

Lemma event_loop_never_reopens_witness :
  let done := Responded (mkResponse 200
                (Some (JObj [("status", JStr "completed");
                             ("images", JArr [JStr "https://x/out.png"])]))) in
  let busy := Responded (mkResponse 200
                (Some (JObj [("status", JStr "in_progress")]))) in
  let j := newJob "job-1" "c-1" "u-1" 0 in
  exists mid l,
    async_run noEnv [StartProbe 5000; StartProbe 5010; FetchSettles 0 5200 done]
              (mkLoop j [] []) = Some mid /\
    async_run noEnv [FetchSettles 0 5300 busy] mid = Some l /\
    status (shared mid) = succeeded /\
    progress j (shared mid) /\ progress (shared mid) (shared l).
Proof.
  cbn zeta.
  assert (H1 : exists mid,
            async_run noEnv
              [StartProbe 5000; StartProbe 5010;
               FetchSettles 0 5200
                 (Responded (mkResponse 200
                    (Some (JObj [("status", JStr "completed");
                                 ("images", JArr [JStr "https://x/out.png"])]))))]
              (mkLoop (newJob "job-1" "c-1" "u-1" 0) [] []) = Some mid /\
            status (shared mid) = succeeded)
    by (eexists; split; [lazy; reflexivity | reflexivity]).
  destruct H1 as (mid & Hmid & Hs).
  assert (H2 : exists l,
            async_run noEnv
              [FetchSettles 0 5300
                 (Responded (mkResponse 200
                    (Some (JObj [("status", JStr "in_progress")]))))] mid = Some l).
  { destruct (async_run noEnv _ mid) as [l|] eqn:Hl; [exists l; reflexivity|].
    exfalso. revert Hl. injection Hmid as <-. lazy. discriminate. }
  destruct H2 as (l & Hl).
  exists mid, l. split; [exact Hmid|]. split; [exact Hl|]. split; [exact Hs|].
  exact (event_loop_never_reopens noEnv _ _ _ mid l Hmid Hl).
Defined.

(** ** Answers whose status cannot be printed *)

Lemma statusUnprintable_jobAfter (env : Env) (w : World) (at_ : Z) (j : Job) :
  statusUnprintable env j w ->
  jobAfter at_ (respond w (statusRequest env j)) j = incPollCount j.
Proof.
  unfold statusUnprintable, jobAfter.
  destruct (respond w (statusRequest env j)) as [|r]; [tauto|].
  intros (-> & Hs).
  destruct (extractImages (payloadOf r)); [|reflexivity].
  cbn zeta. rewrite Hs. reflexivity.
Qed.

(** X27: a 2xx answer whose status cannot be converted to a string (an
    object with a [toString] entry, as in [{"status": {"toString": null}}])
    makes line 92 throw, so the probe ends in the [catch] block: it counts
    one attempt, sends nothing and, since the ceiling is not tested there,
    never times the job out.  A job that only gets such answers stays
    [polling] however many probes it gets. *)
Theorem unprintable_status_never_times_out
  (env : Env) (ws : list (World * Z)) (j : Job) :
  isPolling j = true ->
  Forall (fun wn => statusUnprintable env j (fst wn)) ws ->
  let j' := fst (probes env ws j []) in
  let t' := snd (probes env ws j []) in
  status j' = polling /\
  pollCount j' = (pollCount j + length ws)%nat /\
  error j' = error j /\
  completedAt j' = completedAt j /\
  invocations t' = 0%nat /\
  messagingCalls t' = [].
Proof.
  intros Hp Hall. cbn zeta.
  assert (G : forall (t : Trace),
            invocations t = 0%nat -> messagingCalls t = [] ->
            status (fst (probes env ws j t)) = polling /\
            pollCount (fst (probes env ws j t)) = (pollCount j + length ws)%nat /\
            error (fst (probes env ws j t)) = error j /\
            completedAt (fst (probes env ws j t)) = completedAt j /\
            invocations (snd (probes env ws j t)) = 0%nat /\
            messagingCalls (snd (probes env ws j t)) = []).
  { revert j Hp Hall. induction ws as [|[w now] rest IH]; intros j Hp Hall t Hi Hc.
    - cbn. apply isPolling_true in Hp. repeat split; [exact Hp | lia | exact Hi | exact Hc].
    - inversion Hall as [|x l Hw Hrest]; subst. cbn [fst] in Hw.
      assert (Hd : dispatches (respond w (statusRequest env j)) = false).
      { unfold statusUnprintable in Hw. unfold dispatches.
        destruct (respond w (statusRequest env j)) as [|r]; [reflexivity|].
        destruct Hw as (-> & Hs). cbn [andb].
        destruct (extractImages (payloadOf r)); [|reflexivity].
        destruct (isSuccessStatus (statusOf (payloadOf r))) eqn:Hst; [|reflexivity].
        rewrite (success_stringifies _ Hst) in Hs. discriminate Hs. }
      cbn [probes]. rewrite (probe_theJob env w now j Hp).
      rewrite (statusUnprintable_jobAfter env w _ j Hw).
      destruct (IH (incPollCount j) Hp Hrest (t ++ trace (probe env w now j)))
        as (H1 & H2 & H3 & H4 & H5 & H6).
      + rewrite invocations_app, Hi, (probe_invocations env w now j Hp), Hd.
        reflexivity.
      + rewrite messagingCalls_app, Hc, (probe_messagingCalls env w now j Hp), Hd.
        reflexivity.
      + repeat split; [exact H1 | | exact H3 | exact H4 | exact H5 | exact H6].
        rewrite H2. cbn [pollCount incPollCount length]. lia. }
  apply G; reflexivity.
Qed.

Lemma unprintable_status_never_times_out_witness :
  let odd := always (Responded (mkResponse 200
               (Some (JObj [("status", JObj [("toString", JNull)])])))) in
  let j' := fst (probes noEnv (repeat (odd, 0%Z) 40)
                        (newJob "job-1" "c-1" "u-1" 0) []) in
  status j' = polling /\ pollCount j' = 40%nat.
Proof.
  cbn zeta.
  destruct (unprintable_status_never_times_out noEnv
              (repeat (always (Responded (mkResponse 200
                 (Some (JObj [("status", JObj [("toString", JNull)])])))), 0%Z) 40)
              (newJob "job-1" "c-1" "u-1" 0)) as (A & B & _).
  - reflexivity.
  - apply Forall_forall. intros x Hx. apply repeat_spec in Hx. subst x.
    split; reflexivity.
  - split; [exact A|]. rewrite B, repeat_length. reflexivity.
Defined.
